(** * Mission feasibility checker and Euler-from-DCM constructor

    A shallow embedding of
    [src/modules/navigator/mission_feasibility_checker.cpp] and of the
    DCM constructor of [matrix/Euler.hpp].

    Floating-point values are IEEE 754 values ([spec_float]); the
    single-precision operations of the checker are the correctly rounded
    binary32 operations of [SpecFloat].  Functions of libm, of the geo
    library and of the navigator that are not part of the translated files
    are parameters of the development. *)

From Stdlib Require Import ZArith List Bool Lia.
From Stdlib Require Import Floats.SpecFloat.
Import ListNotations.

Set Implicit Arguments.
Open Scope Z_scope.

(** ** Single- and double-precision values *)

Module F32.

Definition prec : Z := 24.
Definition emax : Z := 128.

Definition add := SFadd prec emax.
Definition sub := SFsub prec emax.
Definition mul := SFmul prec emax.
Definition div := SFdiv prec emax.
Definition sqrtf := SFsqrt prec emax.
Definition fabsf := SFabs.
Definition neg := SFopp.

(** C comparison operators: every comparison with a NaN is false. *)
Definition lt (a b : spec_float) : bool := SFltb a b.
Definition le (a b : spec_float) : bool := SFleb a b.
Definition gt (a b : spec_float) : bool := SFltb b a.

(** Conversion of a C integer to [float]. *)
Definition of_int (z : Z) : spec_float := binary_normalize prec emax z 0 false.

Definition is_nan (a : spec_float) : bool :=
  match a with S754_nan => true | _ => false end.

(** The literals of the source. *)
Definition zero : spec_float := S754_zero false.
Definition one : spec_float := S754_finite false 8388608 (-23).
Definition c0_05 : spec_float := S754_finite false 13421773 (-28).
Definition c0_1 : spec_float := S754_finite false 13421773 (-27).
Definition ten : spec_float := S754_finite false 10485760 (-20).
Definition FLT_EPSILON : spec_float := S754_finite false 8388608 (-46).

End F32.

Definition float32 : Type := spec_float.
Definition float64 : Type := spec_float.

(** [PX4_ISFINITE]: neither an infinity nor a NaN. *)
Definition PX4_ISFINITE (x : float64) : bool :=
  match x with
  | S754_zero _ | S754_finite _ _ _ => true
  | S754_infinity _ | S754_nan => false
  end.

(** ** Mission items

    [nav_cmd] is an open 16-bit enumeration in the firmware; the model has one
    constructor for every command the checker names and [NAV_CMD_OTHER] for
    any other stored value. *)

Inductive nav_cmd : Type :=
| NAV_CMD_IDLE
| NAV_CMD_WAYPOINT
| NAV_CMD_LOITER_UNLIMITED
| NAV_CMD_LOITER_TIME_LIMIT
| NAV_CMD_RETURN_TO_LAUNCH
| NAV_CMD_LAND
| NAV_CMD_TAKEOFF
| NAV_CMD_LOITER_TO_ALT
| NAV_CMD_VTOL_TAKEOFF
| NAV_CMD_VTOL_LAND
| NAV_CMD_DELAY
| NAV_CMD_CONDITION_GATE
| NAV_CMD_DO_WINCH
| NAV_CMD_DO_GRIPPER
| NAV_CMD_DO_JUMP
| NAV_CMD_DO_CHANGE_SPEED
| NAV_CMD_DO_SET_HOME
| NAV_CMD_DO_SET_SERVO
| NAV_CMD_DO_SET_ACTUATOR
| NAV_CMD_DO_LAND_START
| NAV_CMD_DO_TRIGGER_CONTROL
| NAV_CMD_DO_DIGICAM_CONTROL
| NAV_CMD_IMAGE_START_CAPTURE
| NAV_CMD_IMAGE_STOP_CAPTURE
| NAV_CMD_VIDEO_START_CAPTURE
| NAV_CMD_VIDEO_STOP_CAPTURE
| NAV_CMD_DO_CONTROL_VIDEO
| NAV_CMD_DO_MOUNT_CONFIGURE
| NAV_CMD_DO_MOUNT_CONTROL
| NAV_CMD_DO_GIMBAL_MANAGER_PITCHYAW
| NAV_CMD_DO_GIMBAL_MANAGER_CONFIGURE
| NAV_CMD_DO_SET_ROI
| NAV_CMD_DO_SET_ROI_LOCATION
| NAV_CMD_DO_SET_ROI_WPNEXT_OFFSET
| NAV_CMD_DO_SET_ROI_NONE
| NAV_CMD_DO_SET_CAM_TRIGG_DIST
| NAV_CMD_OBLIQUE_SURVEY
| NAV_CMD_DO_SET_CAM_TRIGG_INTERVAL
| NAV_CMD_SET_CAMERA_MODE
| NAV_CMD_SET_CAMERA_ZOOM
| NAV_CMD_SET_CAMERA_FOCUS
| NAV_CMD_DO_VTOL_TRANSITION
| NAV_CMD_OTHER (raw : Z).

Definition nav_cmd_eq_dec (a b : nav_cmd) : {a = b} + {a <> b}.
Proof. decide equality. apply Z.eq_dec. Defined.

Definition cmd_eqb (a b : nav_cmd) : bool :=
  if nav_cmd_eq_dec a b then true else false.

Infix "==c" := cmd_eqb (at level 70, no associativity).

(** Modelled from the spec: [mission_item_s] (navigation.h is not among the
    translated files).  The record has the fields the checker reads: command,
    latitude and longitude (double), altitude, the relative-altitude flag,
    acceptance and loiter radius, and the generic parameters, of which the
    checker reads [params[0]] and [params[1]]. *)
Record mission_item_s : Type := {
  nav_cmd_of : nav_cmd;
  lat : float64;
  lon : float64;
  altitude : float32;
  altitude_is_relative : bool;
  acceptance_radius : float32;
  loiter_radius : float32;
  params0 : float32;
  params1 : float32
}.

Definition set_altitude (m : mission_item_s) (a : float32) : mission_item_s :=
  {| nav_cmd_of := nav_cmd_of m; lat := lat m; lon := lon m; altitude := a;
     altitude_is_relative := altitude_is_relative m;
     acceptance_radius := acceptance_radius m;
     loiter_radius := loiter_radius m;
     params0 := params0 m; params1 := params1 m |}.

(** [mission_s]: the storage the items live in and their number. *)
Record mission_s : Type := {
  dataman_id : nat;
  count : nat
}.

(** ** Integer narrowing at the event interface *)

Definition to_int16 (z : Z) : Z := (z + 32768) mod 65536 - 32768.
Definition to_uint16 (z : Z) : Z := z mod 65536.
Definition to_uint32 (z : Z) : Z := z mod 4294967296.

(** ** Events

    One constructor per event identifier of the source, with the arguments
    the call passes. *)

Inductive event : Type :=
| navigator_mis_no_pos_lock
| navigator_mis_geofence_no_home
| navigator_mis_geofence_no_home2
| navigator_mis_geofence_violation (index : Z)
| navigator_mis_no_home_rel_alt (index : Z)
| navigator_mis_wp_below_home (index : Z)
| navigator_mis_sd_failure
| navigator_mis_unsup_cmd (index : Z) (cmd : nav_cmd)
| navigator_mis_act_index (number : Z)
| navigator_mis_act_range (value : Z) (bound : Z)
| navigator_mis_starts_w_landing
| navigator_mis_takeoff_too_low (minimum : float32)
| navigator_mis_takeoff_not_first
| navigator_mis_multiple_land
| navigator_mis_land_angle_param_missing
| navigator_mis_approach_wp_below_land
| navigator_mis_land_wp_inside_orbit_radius
| navigator_mis_unsupported_landing_approach_wp
| navigator_mis_glide_slope_too_steep (left_of_decimal after_decimal : Z)
| navigator_mis_correct_glide_slope (entrance_alt landing_dist : Z)
| navigator_mis_req_landing_approach
| navigator_mis_starts_w_landing2
| navigator_mis_land_before_rtl
| navigator_mis_invalid_land
| navigator_mis_multi_land
| navigator_mis_starts_w_land
| navigator_mis_land_before_rtl2
| navigator_mis_invalid_land2
| navigator_mis_takeoff_missing
| navigator_mis_land_missing
| navigator_mis_takeoff_or_land_missing
| navigator_mis_add_land_or_rm_to
| navigator_mis_add_to_or_rm_land
| navigator_mis_storage_failure
| navigator_mis_first_wp_too_far (dist maximum : Z)
| navigator_mis_storage_failure2
| navigator_mis_wp_dist_too_far (dist maximum : Z)
| navigator_mis_wp_gate_too_close (dist minimum : float32).

(** The three identifiers that report a storage failure. *)
Definition is_storage_failure (e : event) : bool :=
  match e with
  | navigator_mis_sd_failure
  | navigator_mis_storage_failure
  | navigator_mis_storage_failure2 => true
  | _ => false
  end.

Definition is_wp_below_home (e : event) : bool :=
  match e with navigator_mis_wp_below_home _ => true | _ => false end.

Definition is_takeoff_too_low (e : event) : bool :=
  match e with navigator_mis_takeoff_too_low _ => true | _ => false end.

Definition is_distance_failure (e : event) : bool :=
  match e with
  | navigator_mis_first_wp_too_far _ _
  | navigator_mis_wp_dist_too_far _ _
  | navigator_mis_wp_gate_too_close _ _ => true
  | _ => false
  end.

(** What a run does that an observer outside the checker sees: an event
    handed to the sink, or a [dm_read] call that did not return the item. *)
Inductive output : Type :=
| Send (e : event)
| DmReadFailed (index : nat).

Definition is_send (p : event -> bool) (o : output) : bool :=
  match o with Send e => p e | DmReadFailed _ => false end.

Definition is_read_failure (o : output) : bool :=
  match o with DmReadFailed _ => true | Send _ => false end.

(** ** The checker's state and its monad

    [warning] is the flag of the navigator's mission result; [_has_takeoff]
    and [_has_landing] are the members of the checker object. *)

Record checker : Type := {
  warning : bool;
  _has_takeoff : bool;
  _has_landing : bool
}.

Definition M (A : Type) : Type := checker -> A * checker * list output.

Definition ret {A} (a : A) : M A := fun s => (a, s, []).

Definition bind {A B} (c : M A) (k : A -> M B) : M B :=
  fun s =>
    let '(a, s1, t1) := c s in
    let '(b, s2, t2) := k a s1 in
    (b, s2, t1 ++ t2).

Notation "x <- c ;; k" := (bind c (fun x => k))
  (at level 61, c at next level, right associativity).
Notation "c ;; k" := (bind c (fun _ => k))
  (at level 61, right associativity).

Definition send (e : event) : M unit := fun s => (tt, s, [Send e]).

Definition set_warning (b : bool) : M unit :=
  fun s => (tt, {| warning := b; _has_takeoff := _has_takeoff s;
                   _has_landing := _has_landing s |}, []).

Definition set_has_takeoff (b : bool) : M unit :=
  fun s => (tt, {| warning := warning s; _has_takeoff := b;
                   _has_landing := _has_landing s |}, []).

Definition set_has_landing (b : bool) : M unit :=
  fun s => (tt, {| warning := warning s; _has_takeoff := _has_takeoff s;
                   _has_landing := b |}, []).

Definition get_has_takeoff : M bool := fun s => (_has_takeoff s, s, []).
Definition get_has_landing : M bool := fun s => (_has_landing s, s, []).

(** A loop body either falls through to the next iteration with its local
    variables, or leaves the function with a result. *)
Inductive flow (L : Type) : Type :=
| Continue (l : L)
| Return (b : bool).

Arguments Continue {L} l.
Arguments Return {L} b.

(** [for (size_t i = start; i < start + n; i++) body]. *)
Fixpoint for_loop {L} (n : nat) (i : nat) (body : nat -> L -> M (flow L))
  (l : L) : M (flow L) :=
  match n with
  | O => ret (Continue l)
  | S n' =>
      f <- body i l ;;
      match f with
      | Continue l' => for_loop n' (S i) body l'
      | Return b => ret (Return b)
      end
  end.

(** Sequencing inside a body: the rest runs unless the first part returned. *)
Definition and_then {L L'} (c : M (flow L)) (k : L -> M (flow L')) : M (flow L') :=
  f <- c ;;
  match f with
  | Continue l => k l
  | Return b => ret (Return b)
  end.

(** ** Collaborators *)

(** Functions and constants of libm, the geo library, the parameter store,
    the data manager and [MissionBlock] that the checker calls. *)
Record Platform : Type := {
  dm_read : nat -> nat -> option mission_item_s;
  item_contains_position : mission_item_s -> bool;
  get_distance_to_next_waypoint : float64 -> float64 -> float64 -> float64 -> float32;
  tanf : float32 -> float32;
  radians : float32 -> float32;
  floorf : float32 -> float32;
  ceilf : float32 -> float32;
  float_to_int : float32 -> Z;
  float_to_uint32 : float32 -> Z;
  float_to_uint8 : float32 -> Z;
  param_find_FW_LND_ANG : option float32;
  NAV_EPSILON_POSITION : float32;
  PWM_DEFAULT_MAX : Z;
  VEHICLE_TYPE_FIXED_WING : Z
}.

(** The accessors of the navigator, its geofence included. *)
Record Navigator : Type := {
  home_global_position_valid : bool;
  home_alt_valid : bool;
  home_lat : float64;
  home_lon : float64;
  home_alt : float32;
  is_vtol : bool;
  vehicle_type : Z;
  landed : bool;
  takeoff_land_required : Z;
  default_acceptance_radius : float32;
  geofence_isHomeRequired : bool;
  geofence_valid : bool;
  geofence_check : mission_item_s -> bool
}.

(** ** The checker *)

(** The conjunction of [!=] tests of [checkMissionItemValidity]. *)
Definition supported_commands : list nav_cmd :=
  [ NAV_CMD_IDLE; NAV_CMD_WAYPOINT; NAV_CMD_LOITER_UNLIMITED;
    NAV_CMD_LOITER_TIME_LIMIT; NAV_CMD_RETURN_TO_LAUNCH; NAV_CMD_LAND;
    NAV_CMD_TAKEOFF; NAV_CMD_LOITER_TO_ALT; NAV_CMD_VTOL_TAKEOFF;
    NAV_CMD_VTOL_LAND; NAV_CMD_DELAY; NAV_CMD_CONDITION_GATE;
    NAV_CMD_DO_WINCH; NAV_CMD_DO_GRIPPER; NAV_CMD_DO_JUMP;
    NAV_CMD_DO_CHANGE_SPEED; NAV_CMD_DO_SET_HOME; NAV_CMD_DO_SET_SERVO;
    NAV_CMD_DO_SET_ACTUATOR; NAV_CMD_DO_LAND_START;
    NAV_CMD_DO_TRIGGER_CONTROL; NAV_CMD_DO_DIGICAM_CONTROL;
    NAV_CMD_IMAGE_START_CAPTURE; NAV_CMD_IMAGE_STOP_CAPTURE;
    NAV_CMD_VIDEO_START_CAPTURE; NAV_CMD_VIDEO_STOP_CAPTURE;
    NAV_CMD_DO_CONTROL_VIDEO; NAV_CMD_DO_MOUNT_CONFIGURE;
    NAV_CMD_DO_MOUNT_CONTROL; NAV_CMD_DO_GIMBAL_MANAGER_PITCHYAW;
    NAV_CMD_DO_GIMBAL_MANAGER_CONFIGURE; NAV_CMD_DO_SET_ROI;
    NAV_CMD_DO_SET_ROI_LOCATION; NAV_CMD_DO_SET_ROI_WPNEXT_OFFSET;
    NAV_CMD_DO_SET_ROI_NONE; NAV_CMD_DO_SET_CAM_TRIGG_DIST;
    NAV_CMD_OBLIQUE_SURVEY; NAV_CMD_DO_SET_CAM_TRIGG_INTERVAL;
    NAV_CMD_SET_CAMERA_MODE; NAV_CMD_SET_CAMERA_ZOOM;
    NAV_CMD_SET_CAMERA_FOCUS; NAV_CMD_DO_VTOL_TRANSITION ].

(** [c != c1 && c != c2 && ...]. *)
Definition differs_from_all (c : nav_cmd) (l : list nav_cmd) : bool :=
  forallb (fun c' => negb (c ==c c')) l.

(** The commands of the pre-takeoff scan of [checkTakeoff]. *)
Definition before_takeoff_commands : list nav_cmd :=
  [ NAV_CMD_IDLE; NAV_CMD_DELAY; NAV_CMD_DO_JUMP; NAV_CMD_DO_CHANGE_SPEED;
    NAV_CMD_DO_SET_HOME; NAV_CMD_DO_SET_SERVO; NAV_CMD_DO_LAND_START;
    NAV_CMD_DO_TRIGGER_CONTROL; NAV_CMD_DO_DIGICAM_CONTROL;
    NAV_CMD_IMAGE_START_CAPTURE; NAV_CMD_IMAGE_STOP_CAPTURE;
    NAV_CMD_VIDEO_START_CAPTURE; NAV_CMD_VIDEO_STOP_CAPTURE;
    NAV_CMD_DO_CONTROL_VIDEO; NAV_CMD_DO_MOUNT_CONFIGURE;
    NAV_CMD_DO_MOUNT_CONTROL; NAV_CMD_DO_GIMBAL_MANAGER_PITCHYAW;
    NAV_CMD_DO_GIMBAL_MANAGER_CONFIGURE; NAV_CMD_DO_SET_ROI;
    NAV_CMD_DO_SET_ROI_LOCATION; NAV_CMD_DO_SET_ROI_WPNEXT_OFFSET;
    NAV_CMD_DO_SET_ROI_NONE; NAV_CMD_DO_SET_CAM_TRIGG_DIST;
    NAV_CMD_OBLIQUE_SURVEY; NAV_CMD_DO_SET_CAM_TRIGG_INTERVAL;
    NAV_CMD_SET_CAMERA_MODE; NAV_CMD_SET_CAMERA_ZOOM;
    NAV_CMD_SET_CAMERA_FOCUS; NAV_CMD_DO_VTOL_TRANSITION ].

(** The value the pre-takeoff scan assigns to [takeoff_first] at an item. *)
Definition allowed_before_takeoff (c : nav_cmd) : bool :=
  negb (differs_from_all c before_takeoff_commands).

Definition is_takeoff_cmd (c : nav_cmd) : bool :=
  (c ==c NAV_CMD_TAKEOFF) || (c ==c NAV_CMD_VTOL_TAKEOFF).

Section Checker.

Variable P : Platform.
Variable nav : Navigator.

(** [dm_read(...) != len] is the [None] case. *)
Definition read_item (mission : mission_s) (i : nat) : M (option mission_item_s) :=
  fun s =>
    match dm_read P (dataman_id mission) i with
    | Some item => (Some item, s, [])
    | None => (None, s, [DmReadFailed i])
    end.

(** The altitude above mean sea level of an item. *)
Definition alt_amsl (home_alt : float32) (item : mission_item_s) : float32 :=
  if altitude_is_relative item then F32.add (altitude item) home_alt
  else altitude item.

Definition checkGeofence_body (mission : mission_s) (home_alt : float32)
  (home_valid : bool) (i : nat) (_ : unit) : M (flow unit) :=
  r <- read_item mission i ;;
  match r with
  | None => ret (Return false)
  | Some missionitem =>
      if altitude_is_relative missionitem && negb home_valid then
        send navigator_mis_geofence_no_home2 ;; ret (Return false)
      else
        let missionitem :=
          set_altitude missionitem (alt_amsl home_alt missionitem) in
        if item_contains_position P missionitem
           && negb (geofence_check nav missionitem) then
          send (navigator_mis_geofence_violation
                  (to_int16 (Z.of_nat i + 1))) ;;
          ret (Return false)
        else ret (Continue tt)
  end.

Definition checkGeofence (mission : mission_s) (home_alt : float32)
  (home_valid : bool) : M bool :=
  if geofence_isHomeRequired nav && negb home_valid then
    send navigator_mis_geofence_no_home ;; ret false
  else if geofence_valid nav then
    f <- for_loop (count mission) 0
           (checkGeofence_body mission home_alt home_valid) tt ;;
    match f with
    | Return b => ret b
    | Continue _ => ret true
    end
  else ret true.

Definition checkHomePositionAltitude_body (mission : mission_s)
  (home_alt : float32) (home_alt_valid : bool) (i : nat) (_ : unit)
  : M (flow unit) :=
  r <- read_item mission i ;;
  match r with
  | None => set_warning true ;; ret (Return false)
  | Some missionitem =>
      if altitude_is_relative missionitem && negb home_alt_valid
         && item_contains_position P missionitem then
        set_warning true ;;
        send (navigator_mis_no_home_rel_alt (to_int16 (Z.of_nat i + 1))) ;;
        ret (Return false)
      else
        let wp_alt := alt_amsl home_alt missionitem in
        if home_alt_valid && F32.gt home_alt wp_alt
           && item_contains_position P missionitem then
          set_warning true ;;
          send (navigator_mis_wp_below_home (to_int16 (Z.of_nat i + 1))) ;;
          ret (Continue tt)
        else ret (Continue tt)
  end.

Definition checkHomePositionAltitude (mission : mission_s)
  (home_alt : float32) (home_alt_valid : bool) : M bool :=
  f <- for_loop (count mission) 0
         (checkHomePositionAltitude_body mission home_alt home_alt_valid) tt ;;
  match f with
  | Return b => ret b
  | Continue _ => ret true
  end.

Definition checkMissionItemValidity_body (mission : mission_s) (i : nat)
  (_ : unit) : M (flow unit) :=
  r <- read_item mission i ;;
  match r with
  | None => send navigator_mis_sd_failure ;; ret (Return false)
  | Some missionitem =>
      if differs_from_all (nav_cmd_of missionitem) supported_commands then
        send (navigator_mis_unsup_cmd (to_uint16 (Z.of_nat i + 1))
                (nav_cmd_of missionitem)) ;;
        ret (Return false)
      else
        and_then
          (if nav_cmd_of missionitem ==c NAV_CMD_DO_SET_SERVO then
             if F32.lt (params0 missionitem) (F32.of_int 0)
                || F32.gt (params0 missionitem) (F32.of_int 5) then
               send (navigator_mis_act_index
                       (to_uint32 (float_to_int P (params0 missionitem)))) ;;
               ret (Return false)
             else if F32.lt (params1 missionitem)
                            (F32.of_int (- PWM_DEFAULT_MAX P))
                     || F32.gt (params1 missionitem)
                               (F32.of_int (PWM_DEFAULT_MAX P)) then
               send (navigator_mis_act_range
                       (to_uint32 (float_to_int P (params1 missionitem)))
                       (to_uint32 (PWM_DEFAULT_MAX P))) ;;
               ret (Return false)
             else ret (Continue tt)
           else ret (Continue tt))
          (fun _ =>
             if (i =? 0)%nat && (nav_cmd_of missionitem ==c NAV_CMD_LAND)
                && landed nav then
               send navigator_mis_starts_w_landing ;; ret (Return false)
             else ret (Continue tt))
  end.

Definition checkMissionItemValidity (mission : mission_s) : M bool :=
  f <- for_loop (count mission) 0 (checkMissionItemValidity_body mission) tt ;;
  match f with
  | Return b => ret b
  | Continue _ => ret true
  end.

(** The altitude of a takeoff item above home. *)
Definition takeoff_alt (home_alt : float32) (item : mission_item_s) : float32 :=
  if altitude_is_relative item then altitude item
  else F32.sub (altitude item) home_alt.

(** The acceptance radius [checkTakeoff] compares against. *)
Definition takeoff_acceptance_radius (item : mission_item_s) : float32 :=
  if F32.gt (acceptance_radius item) (NAV_EPSILON_POSITION P)
  then acceptance_radius item
  else default_acceptance_radius nav.

(** [takeoff_alt - 1.0f < acceptance_radius]. *)
Definition takeoff_too_low (home_alt : float32) (item : mission_item_s) : bool :=
  F32.lt (F32.sub (takeoff_alt home_alt item) F32.one)
         (takeoff_acceptance_radius item).

(** First loop of [checkTakeoff]; the locals are [takeoff_first] and
    [takeoff_index]. *)
Definition checkTakeoff_body (mission : mission_s) (home_alt : float32)
  (i : nat) (l : bool * Z) : M (flow (bool * Z)) :=
  let '(takeoff_first, takeoff_index) := l in
  r <- read_item mission i ;;
  match r with
  | None => ret (Return false)
  | Some missionitem =>
      if is_takeoff_cmd (nav_cmd_of missionitem) then
        if takeoff_too_low home_alt missionitem then
          send (navigator_mis_takeoff_too_low
                  (F32.add (takeoff_acceptance_radius missionitem) F32.one)) ;;
          ret (Return false)
        else
          set_has_takeoff true ;;
          if (i =? 0)%nat then ret (Continue (true, takeoff_index))
          else if takeoff_index =? -1 then
                 ret (Continue (takeoff_first, Z.of_nat i))
               else ret (Continue (takeoff_first, takeoff_index))
      else ret (Continue (takeoff_first, takeoff_index))
  end.

(** Second loop of [checkTakeoff]: the items before the first takeoff. *)
Definition checkTakeoff_scan_body (mission : mission_s) (i : nat)
  (takeoff_first : bool) : M (flow bool) :=
  r <- read_item mission i ;;
  match r with
  | None => ret (Return false)
  | Some missionitem =>
      ret (Continue (allowed_before_takeoff (nav_cmd_of missionitem)))
  end.

Definition checkTakeoff (mission : mission_s) (home_alt : float32) : M bool :=
  f <- for_loop (count mission) 0 (checkTakeoff_body mission home_alt)
         (false, -1) ;;
  match f with
  | Return b => ret b
  | Continue (takeoff_first, takeoff_index) =>
      g <- (if negb (takeoff_index =? -1) then
              for_loop (Z.to_nat takeoff_index) 0
                (checkTakeoff_scan_body mission) takeoff_first
            else ret (Continue takeoff_first)) ;;
      match g with
      | Return b => ret b
      | Continue takeoff_first =>
          has_takeoff <- get_has_takeoff ;;
          if has_takeoff && negb takeoff_first then
            send navigator_mis_takeoff_not_first ;; ret false
          else ret true
      end
  end.

Definition hasMissionLanding_body (mission : mission_s) (i : nat)
  (mission_landing_found : bool) : M (flow bool) :=
  r <- read_item mission i ;;
  match r with
  | None => ret (Return false)
  | Some missionitem =>
      if nav_cmd_of missionitem ==c NAV_CMD_LAND then ret (Continue true)
      else ret (Continue mission_landing_found)
  end.

Definition hasMissionLanding (mission : mission_s) : M bool :=
  f <- for_loop (count mission) 0 (hasMissionLanding_body mission) false ;;
  match f with
  | Return b => ret b
  | Continue mission_landing_found => ret mission_landing_found
  end.

(** The [DO_LAND_START] step shared by the two landing checks ([ev] is
    the event of the caller); the local is [do_land_start_index]. *)
Definition land_start_step (ev : event) (missionitem : mission_item_s)
  (i : nat) (do_land_start_index : nat) : M (flow nat) :=
  if nav_cmd_of missionitem ==c NAV_CMD_DO_LAND_START then
    has_landing <- get_has_landing ;;
    if has_landing then send ev ;; ret (Return false)
    else set_has_landing true ;; ret (Continue i)
  else ret (Continue do_land_start_index).

(** The [RETURN_TO_LAUNCH] step shared by the two landing checks. *)
Definition rtl_step {L} (ev : event) (i : nat) (do_land_start_index : nat)
  (l : L) : M (flow L) :=
  has_landing <- get_has_landing ;;
  if has_landing && (do_land_start_index <? i)%nat then
    send ev ;; ret (Return false)
  else ret (Continue l).

(** Quantities of the fixed-wing landing check for a [LAND] item and the
    item before it. *)
Definition relative_approach_altitude (item previous : mission_item_s) : float32 :=
  F32.sub (alt_amsl (home_alt nav) previous) (alt_amsl (home_alt nav) item).

Definition distance_orbit_center_to_land (item previous : mission_item_s) : float32 :=
  get_distance_to_next_waypoint P (lat previous) (lon previous)
    (lat item) (lon item).

Definition orbit_radius (previous : mission_item_s) : float32 :=
  F32.fabsf (loiter_radius previous).

Definition tangent_distance (item previous : mission_item_s) : float32 :=
  let D := distance_orbit_center_to_land item previous in
  let r := orbit_radius previous in
  F32.sqrtf (F32.sub (F32.mul D D) (F32.mul r r)).

Definition max_glide_slope (param_fw_lnd_ang : float32) : float32 :=
  tanf P (radians P (F32.add param_fw_lnd_ang F32.c0_1)).

(** The glide-slope comparison and its two events, for a landing approach
    distance that has been determined. *)
Definition glide_slope_step (param_fw_lnd_ang : float32)
  (item previous : mission_item_s) (landing_approach_distance : float32)
  : M (flow unit) :=
  let glide_slope :=
    F32.div (relative_approach_altitude item previous)
            landing_approach_distance in
  let max_glide_slope := max_glide_slope param_fw_lnd_ang in
  if F32.gt glide_slope max_glide_slope then
    send (navigator_mis_glide_slope_too_steep
            (float_to_uint8 P param_fw_lnd_ang)
            (float_to_uint8 P
               (F32.mul (F32.sub param_fw_lnd_ang (floorf P param_fw_lnd_ang))
                        F32.ten))) ;;
    send (navigator_mis_correct_glide_slope
            (float_to_uint32 P
               (F32.mul max_glide_slope landing_approach_distance))
            (float_to_uint32 P
               (ceilf P (F32.div (relative_approach_altitude item previous)
                                 max_glide_slope)))) ;;
    ret (Return false)
  else ret (Continue tt).

(** The [LAND] branch at an index [i > 0] once the previous item has been
    read; falling through sets [landing_valid]. *)
Definition fw_approach_step (param_fw_lnd_ang : float32)
  (item previous : mission_item_s) : M (flow unit) :=
  if item_contains_position P previous then
    if F32.lt (relative_approach_altitude item previous) F32.FLT_EPSILON then
      send navigator_mis_approach_wp_below_land ;; ret (Return false)
    else if nav_cmd_of previous ==c NAV_CMD_LOITER_TO_ALT then
      if F32.le (distance_orbit_center_to_land item previous)
                (orbit_radius previous) then
        send navigator_mis_land_wp_inside_orbit_radius ;; ret (Return false)
      else glide_slope_step param_fw_lnd_ang item previous
             (tangent_distance item previous)
    else if nav_cmd_of previous ==c NAV_CMD_WAYPOINT then
      glide_slope_step param_fw_lnd_ang item previous
        (distance_orbit_center_to_land item previous)
    else
      send navigator_mis_unsupported_landing_approach_wp ;; ret (Return false)
  else
    send navigator_mis_req_landing_approach ;; ret (Return false).

(** Locals of [checkFixedWingLanding]. *)
Record fw_locals : Type := {
  landing_valid : bool;
  do_land_start_index : nat;
  landing_approach_index : nat
}.

Definition checkFixedWingLanding_body (mission : mission_s) (i : nat)
  (l : fw_locals) : M (flow fw_locals) :=
  r <- read_item mission i ;;
  match r with
  | None => ret (Return false)
  | Some missionitem =>
      and_then
        (land_start_step navigator_mis_multiple_land missionitem i
           (do_land_start_index l))
        (fun dlsi =>
           if nav_cmd_of missionitem ==c NAV_CMD_LAND then
             set_has_landing true ;;
             match param_find_FW_LND_ANG P with
             | None =>
                 send navigator_mis_land_angle_param_missing ;;
                 ret (Return false)
             | Some param_fw_lnd_ang =>
                 if (0 <? i)%nat then
                   let landing_approach_index := (i - 1)%nat in
                   p <- read_item mission landing_approach_index ;;
                   match p with
                   | None => ret (Return false)
                   | Some missionitem_previous =>
                       and_then
                         (fw_approach_step param_fw_lnd_ang missionitem
                            missionitem_previous)
                         (fun _ =>
                            ret (Continue
                                   {| landing_valid := true;
                                      do_land_start_index := dlsi;
                                      landing_approach_index :=
                                        landing_approach_index |}))
                   end
                 else
                   send navigator_mis_starts_w_landing2 ;; ret (Return false)
             end
           else
             let l' := {| landing_valid := landing_valid l;
                          do_land_start_index := dlsi;
                          landing_approach_index := landing_approach_index l |} in
             if nav_cmd_of missionitem ==c NAV_CMD_RETURN_TO_LAUNCH then
               rtl_step navigator_mis_land_before_rtl i dlsi l'
             else ret (Continue l'))
  end.

Definition checkFixedWingLanding (mission : mission_s) : M bool :=
  f <- for_loop (count mission) 0 (checkFixedWingLanding_body mission)
         {| landing_valid := false; do_land_start_index := 0%nat;
            landing_approach_index := 0%nat |} ;;
  match f with
  | Return b => ret b
  | Continue l =>
      has_landing <- get_has_landing ;;
      if has_landing
         && (negb (landing_valid l)
             || (landing_approach_index l <? do_land_start_index l)%nat) then
        send navigator_mis_invalid_land ;; ret false
      else ret true
  end.

(** Locals of [checkVTOLLanding]: [do_land_start_index] and
    [landing_approach_index]. *)
Definition checkVTOLLanding_body (mission : mission_s) (i : nat)
  (l : nat * nat) : M (flow (nat * nat)) :=
  r <- read_item mission i ;;
  match r with
  | None => ret (Return false)
  | Some missionitem =>
      and_then
        (land_start_step navigator_mis_multi_land missionitem i (fst l))
        (fun dlsi =>
           if (nav_cmd_of missionitem ==c NAV_CMD_LAND)
              || (nav_cmd_of missionitem ==c NAV_CMD_VTOL_LAND) then
             set_has_landing true ;;
             if (0 <? i)%nat then
               let landing_approach_index := (i - 1)%nat in
               p <- read_item mission landing_approach_index ;;
               match p with
               | None => ret (Return false)
               | Some _ => ret (Continue (dlsi, landing_approach_index))
               end
             else
               send navigator_mis_starts_w_land ;; ret (Return false)
           else if nav_cmd_of missionitem ==c NAV_CMD_RETURN_TO_LAUNCH then
             rtl_step navigator_mis_land_before_rtl2 i dlsi (dlsi, snd l)
           else ret (Continue (dlsi, snd l)))
  end.

Definition checkVTOLLanding (mission : mission_s) : M bool :=
  f <- for_loop (count mission) 0 (checkVTOLLanding_body mission)
         (0%nat, 0%nat) ;;
  match f with
  | Return b => ret b
  | Continue (do_land_start_index, landing_approach_index) =>
      has_landing <- get_has_landing ;;
      if has_landing && (landing_approach_index <? do_land_start_index)%nat then
        send navigator_mis_invalid_land2 ;; ret false
      else ret true
  end.

Definition checkTakeoffLandAvailable : M bool :=
  has_takeoff <- get_has_takeoff ;;
  has_landing <- get_has_landing ;;
  match takeoff_land_required nav with
  | 0 => ret true
  | 1 =>
      if negb has_takeoff then send navigator_mis_takeoff_missing ;; ret false
      else ret has_takeoff
  | 2 =>
      if negb has_landing then send navigator_mis_land_missing ;; ret has_landing
      else ret has_landing
  | 3 =>
      let result := has_takeoff && has_landing in
      if negb result then
        send navigator_mis_takeoff_or_land_missing ;; ret result
      else ret result
  | 4 =>
      let result := Bool.eqb has_takeoff has_landing in
      if negb result && has_takeoff then
        send navigator_mis_add_land_or_rm_to ;; ret result
      else if negb result && has_landing then
        send navigator_mis_add_to_or_rm_land ;; ret result
      else ret result
  | _ => ret true
  end.

Definition checkDistanceToFirstWaypoint_body (mission : mission_s)
  (max_distance : float32) (i : nat) (_ : unit) : M (flow unit) :=
  r <- read_item mission i ;;
  match r with
  | None => send navigator_mis_storage_failure ;; ret (Return false)
  | Some mission_item =>
      if negb (item_contains_position P mission_item) then ret (Continue tt)
      else
        let dist_to_1wp :=
          get_distance_to_next_waypoint P (lat mission_item) (lon mission_item)
            (home_lat nav) (home_lon nav) in
        if F32.lt dist_to_1wp max_distance then ret (Return true)
        else
          send (navigator_mis_first_wp_too_far
                  (float_to_uint32 P dist_to_1wp)
                  (float_to_uint32 P max_distance)) ;;
          set_warning true ;;
          ret (Return false)
  end.

Definition checkDistanceToFirstWaypoint (mission : mission_s)
  (max_distance : float32) : M bool :=
  if F32.le max_distance F32.zero then ret true
  else
    f <- for_loop (count mission) 0
           (checkDistanceToFirstWaypoint_body mission max_distance) tt ;;
    match f with
    | Return b => ret b
    | Continue _ => ret true
    end.

(** Locals of [checkDistancesBetweenWaypoints]; [last_cmd] is [None] for
    the initial [0], which is never compared: [last_lat] is a NaN then. *)
Record dist_locals : Type := {
  last_lat : float64;
  last_lon : float64;
  last_cmd : option nav_cmd
}.

Definition last_cmd_is (l : dist_locals) (c : nav_cmd) : bool :=
  match last_cmd l with
  | Some c' => c' ==c c
  | None => false
  end.

Definition checkDistancesBetweenWaypoints_body (mission : mission_s)
  (max_distance : float32) (i : nat) (l : dist_locals) : M (flow dist_locals) :=
  r <- read_item mission i ;;
  match r with
  | None => send navigator_mis_storage_failure2 ;; ret (Return false)
  | Some mission_item =>
      if negb (item_contains_position P mission_item) then ret (Continue l)
      else
        and_then
          (if PX4_ISFINITE (last_lat l) && PX4_ISFINITE (last_lon l) then
             let dist_between_waypoints :=
               get_distance_to_next_waypoint P (lat mission_item)
                 (lon mission_item) (last_lat l) (last_lon l) in
             if F32.gt dist_between_waypoints max_distance then
               send (navigator_mis_wp_dist_too_far
                       (float_to_uint32 P dist_between_waypoints)
                       (float_to_uint32 P max_distance)) ;;
               set_warning true ;;
               ret (Return false)
             else if F32.lt dist_between_waypoints F32.c0_05
                     && ((nav_cmd_of mission_item ==c NAV_CMD_CONDITION_GATE)
                         || last_cmd_is l NAV_CMD_CONDITION_GATE) then
               send (navigator_mis_wp_gate_too_close dist_between_waypoints
                       F32.c0_05) ;;
               set_warning true ;;
               ret (Return false)
             else ret (Continue tt)
           else ret (Continue tt))
          (fun _ =>
             ret (Continue {| last_lat := lat mission_item;
                              last_lon := lon mission_item;
                              last_cmd := Some (nav_cmd_of mission_item) |}))
  end.

Definition checkDistancesBetweenWaypoints (mission : mission_s)
  (max_distance : float32) : M bool :=
  if F32.le max_distance F32.zero then ret true
  else
    f <- for_loop (count mission) 0
           (checkDistancesBetweenWaypoints_body mission max_distance)
           {| last_lat := S754_nan; last_lon := S754_nan; last_cmd := None |} ;;
    match f with
    | Return b => ret b
    | Continue _ => ret true
    end.

(** [failed |= !check]. *)
Definition or_failed (failed : bool) (c : M bool) : M bool :=
  ok <- c ;; ret (failed || negb ok).

Definition checkMissionFeasible (mission : mission_s)
  (max_distance_to_1st_waypoint max_distance_between_waypoints : float32)
  : M bool :=
  set_warning false ;;
  if (Z.of_nat (count mission) <=? 0) then ret false
  else
    let home_valid := home_global_position_valid nav in
    let home_alt_valid := home_alt_valid nav in
    failed <- (if negb home_alt_valid then
                 send navigator_mis_no_pos_lock ;; ret true
               else
                 or_failed false
                   (checkDistanceToFirstWaypoint mission
                      max_distance_to_1st_waypoint)) ;;
    let home_alt := home_alt nav in
    set_has_takeoff false ;;
    set_has_landing false ;;
    failed <- or_failed failed (checkMissionItemValidity mission) ;;
    failed <- or_failed failed
                (checkDistancesBetweenWaypoints mission
                   max_distance_between_waypoints) ;;
    failed <- or_failed failed (checkGeofence mission home_alt home_valid) ;;
    failed <- or_failed failed
                (checkHomePositionAltitude mission home_alt home_alt_valid) ;;
    failed <- or_failed failed (checkTakeoff mission home_alt) ;;
    failed <- (if is_vtol nav then
                 or_failed failed (checkVTOLLanding mission)
               else if vehicle_type nav =? VEHICLE_TYPE_FIXED_WING P then
                 or_failed failed (checkFixedWingLanding mission)
               else
                 b <- hasMissionLanding mission ;;
                 set_has_landing b ;;
                 ret failed) ;;
    failed <- or_failed failed checkTakeoffLandAvailable ;;
    ret (negb failed).

End Checker.

(** ** Euler angles from a direction cosine matrix ([matrix/Euler.hpp]) *)

Module Euler.
Section EulerFromDcm.

(** The template parameter [Type] with the arithmetic the constructor
    uses on it; [asin] and [atan2] stand for the libm call followed by the
    cast to [Type]. *)
Variable T : Type.
Variable zero : T.
Variable neg : T -> T.
Variable add sub : T -> T -> T.
Variable fabs : T -> T.
Variable lt : T -> T -> bool.
Variable asin : T -> T.
Variable atan2 : T -> T -> T.
Variable M_PI_2 : T.
Variable c1e_3 : T.

(** [Vector<Type, 3>]; the constructor assigns all three components, the
    model starts from the zero vector. *)
Definition vector3 : Type := nat -> T.
Definition vector3_zero : vector3 := fun _ => zero.

(** Assignment through the reference to component [k]. *)
Definition assign (v : vector3) (k : nat) (x : T) : vector3 :=
  fun j => if Nat.eqb j k then x else v j.

Definition phi (v : vector3) : T := v 0%nat.
Definition theta (v : vector3) : T := v 1%nat.
Definition psi (v : vector3) : T := v 2%nat.

Definition set_phi (v : vector3) (x : T) : vector3 := assign v 0 x.
Definition set_theta (v : vector3) (x : T) : vector3 := assign v 1 x.
Definition set_psi (v : vector3) (x : T) : vector3 := assign v 2 x.

(** A 3x3 matrix read through [dcm(i, j)]. *)
Definition Dcm : Type := nat -> nat -> T.

(** [fabs(theta() - (Type)M_PI_2) < 1.0e-3]. *)
Definition near_plus_half_pi (v : vector3) : bool :=
  lt (fabs (sub (theta v) M_PI_2)) c1e_3.

(** [fabs(theta() + (Type)M_PI_2) < 1.0e-3]. *)
Definition near_minus_half_pi (v : vector3) : bool :=
  lt (fabs (add (theta v) M_PI_2)) c1e_3.

(** [Euler(const Dcm<Type> & dcm)], one assignment after the other. *)
Definition Euler_of_Dcm (dcm : Dcm) : vector3 :=
  let v := vector3_zero in
  let v := set_theta v (asin (neg (dcm 2 0)%nat)) in
  if near_plus_half_pi v then
    let v := set_phi v zero in
    let v := set_psi v (atan2 (dcm 0 1)%nat (dcm 1 1)%nat) in
    let v := set_psi v (atan2 (dcm 1 2)%nat (dcm 0 2)%nat) in
    v
  else if near_minus_half_pi v then
    let v := set_phi v zero in
    let v := set_psi v (atan2 (neg (dcm 1 2)%nat) (neg (dcm 0 2)%nat)) in
    v
  else
    let v := set_phi v (atan2 (dcm 2 1)%nat (dcm 2 2)%nat) in
    let v := set_psi v (atan2 (dcm 1 0)%nat (dcm 0 0)%nat) in
    v.

End EulerFromDcm.
End Euler.

(** ** Fixtures: a concrete platform, navigator and missions *)

Module Fixture.

(** Modelled from the spec: [MissionBlock::item_contains_position]
    (mission_block.cpp is not among the translated files); true exactly for
    the positional navigation commands. *)
Definition positional (item : mission_item_s) : bool :=
  match nav_cmd_of item with
  | NAV_CMD_WAYPOINT | NAV_CMD_LOITER_UNLIMITED | NAV_CMD_LOITER_TIME_LIMIT
  | NAV_CMD_LOITER_TO_ALT | NAV_CMD_TAKEOFF | NAV_CMD_VTOL_TAKEOFF
  | NAV_CMD_LAND | NAV_CMD_VTOL_LAND | NAV_CMD_RETURN_TO_LAUNCH => true
  | _ => false
  end.

(** A stand-in for the geo library on a flat grid whose unit is the metre:
    the sum of the coordinate differences. *)
Definition grid_distance (lat1 lon1 lat2 lon2 : float64) : float32 :=
  F32.add (F32.fabsf (F32.sub lat1 lat2)) (F32.fabsf (F32.sub lon1 lon2)).

(** A platform whose storage is the list [items]; the libm functions are
    stand-ins (the identity), the casts return 0. *)
Definition platform (items : list (option mission_item_s))
  (fw_lnd_ang : option float32) : Platform :=
  {| dm_read := fun _ i => match nth_error items i with
                           | Some r => r
                           | None => None
                           end;
     item_contains_position := positional;
     get_distance_to_next_waypoint := grid_distance;
     tanf := fun x => x;
     radians := fun x => x;
     floorf := fun x => x;
     ceilf := fun x => x;
     float_to_int := fun _ => 0;
     float_to_uint32 := fun _ => 0;
     float_to_uint8 := fun _ => 0;
     param_find_FW_LND_ANG := fw_lnd_ang;
     NAV_EPSILON_POSITION := S754_finite false 8589935 (-33);
     PWM_DEFAULT_MAX := 2000;
     VEHICLE_TYPE_FIXED_WING := 2 |}.

Definition mission_of (items : list (option mission_item_s)) : mission_s :=
  {| dataman_id := 0; count := length items |}.

(** An item at the grid point [(x, y)] with a relative altitude [alt] and
    an acceptance radius [acc], all whole numbers of metres. *)
Definition item (c : nav_cmd) (x y alt acc : Z) : mission_item_s :=
  {| nav_cmd_of := c; lat := F32.of_int x; lon := F32.of_int y;
     altitude := F32.of_int alt; altitude_is_relative := true;
     acceptance_radius := F32.of_int acc; loiter_radius := F32.zero;
     params0 := F32.zero; params1 := F32.zero |}.

(** Home at the origin of the grid, 488 m above sea level, valid; no
    geofence; [vtype] as in [vehicle_status_s] (1 rotary wing, 2 fixed
    wing); requirement policy [policy]. *)
Definition navigator (vtol : bool) (vtype : Z) (policy : Z) : Navigator :=
  {| home_global_position_valid := true;
     home_alt_valid := true;
     home_lat := F32.zero;
     home_lon := F32.zero;
     home_alt := F32.of_int 488;
     is_vtol := vtol;
     vehicle_type := vtype;
     landed := false;
     takeoff_land_required := policy;
     default_acceptance_radius := F32.of_int 2;
     geofence_isHomeRequired := false;
     geofence_valid := false;
     geofence_check := fun _ => true |}.

Definition fresh : checker :=
  {| warning := false; _has_takeoff := false; _has_landing := false |}.

(** A navigator whose geofence is not loaded but asks for a home position
    that is not valid. *)
Definition navigator_without_home : Navigator :=
  {| home_global_position_valid := false;
     home_alt_valid := false;
     home_lat := F32.zero;
     home_lon := F32.zero;
     home_alt := F32.zero;
     is_vtol := false;
     vehicle_type := 1;
     landed := false;
     takeoff_land_required := 0;
     default_acceptance_radius := F32.of_int 2;
     geofence_isHomeRequired := true;
     geofence_valid := false;
     geofence_check := fun _ => true |}.

(** A waypoint, a non-positional item, then the takeoff. *)
Definition waypoint_idle_takeoff : list (option mission_item_s) :=
  [ Some (item NAV_CMD_WAYPOINT 0 0 5 2);
    Some (item NAV_CMD_IDLE 0 0 0 0);
    Some (item NAV_CMD_TAKEOFF 0 0 10 2) ].

(** A mission whose only item cannot be read. *)
Definition unreadable : list (option mission_item_s) := [ None ].

(** A first waypoint 1000 m from home. *)
Definition far_waypoint : list (option mission_item_s) :=
  [ Some (item NAV_CMD_WAYPOINT 1000 0 10 2) ].

(** A takeoff, then a waypoint 5 m below home. *)
Definition low_waypoint : list (option mission_item_s) :=
  [ Some (item NAV_CMD_TAKEOFF 0 0 10 2);
    Some (item NAV_CMD_WAYPOINT 100 0 (-5) 2) ].

(** Scenario S2: the takeoff altitude equals the acceptance radius. *)
Definition low_takeoff : list (option mission_item_s) :=
  [ Some (item NAV_CMD_TAKEOFF 0 0 10 10);
    Some (item NAV_CMD_WAYPOINT 100 0 10 2);
    Some (item NAV_CMD_LAND 100 0 0 2) ].

(** A multicopter mission that ends with a VTOL landing item. *)
Definition vtol_land_only : list (option mission_item_s) :=
  [ Some (item NAV_CMD_TAKEOFF 0 0 10 2);
    Some (item NAV_CMD_VTOL_LAND 100 0 0 2) ].

(** Scenario S1: takeoff, waypoint, landing. *)
Definition takeoff_waypoint_land : list (option mission_item_s) :=
  [ Some (item NAV_CMD_TAKEOFF 0 0 10 2);
    Some (item NAV_CMD_WAYPOINT 100 0 10 2);
    Some (item NAV_CMD_LAND 100 0 0 2) ].




(** An item with an unsupported command, then an item that cannot be
    read. *)
Definition unsupported_then_unreadable : list (option mission_item_s) :=
  [ Some (item (NAV_CMD_OTHER 9999) 0 0 0 0); None ].

(** Binary64 values and stand-ins for libm for the Euler constructor:
    [asin_at_one] is exact at 1, the only argument the fixture passes. *)
Definition d_one : float64 := S754_finite false 4503599627370496 (-52).
Definition d_half_pi : float64 := S754_finite false 7074237752028440 (-52).
Definition d_1e_3 : float64 := S754_finite false 4611686018427388 (-62).
Definition asin_at_one (x : float64) : float64 :=
  if SFeqb x d_one then d_half_pi else S754_nan.
Definition atan2_stub (y x : float64) : float64 := SFsub 53 1024 y x.

(** The rotation by a pitch of +90 degrees. *)
Definition dcm_pitch_up (i j : nat) : float64 :=
  match i, j with
  | 0%nat, 2%nat => d_one
  | 1%nat, 1%nat => d_one
  | 2%nat, 0%nat => SFopp d_one
  | _, _ => S754_zero false
  end.

(** A navigator with a geofence loaded that accepts the items west of the
    grid line 500. *)
Definition fenced_navigator : Navigator :=
  {| home_global_position_valid := true;
     home_alt_valid := true;
     home_lat := F32.zero;
     home_lon := F32.zero;
     home_alt := F32.of_int 488;
     is_vtol := false;
     vehicle_type := 1;
     landed := false;
     takeoff_land_required := 0;
     default_acceptance_radius := F32.of_int 2;
     geofence_isHomeRequired := true;
     geofence_valid := true;
     geofence_check := fun item => F32.lt (lat item) (F32.of_int 500) |}.

(** A non-positional item, then a waypoint 100 m from home. *)
Definition idle_then_waypoint : list (option mission_item_s) :=
  [ Some (item NAV_CMD_IDLE 0 0 0 0);
    Some (item NAV_CMD_WAYPOINT 100 0 10 2) ].

(** Two items without a position. *)
Definition idle_only : list (option mission_item_s) :=
  [ Some (item NAV_CMD_IDLE 0 0 0 0);
    Some (item NAV_CMD_DO_CHANGE_SPEED 0 0 0 0) ].

(** A VTOL mission with a landing sequence. *)
Definition vtol_land_sequence : list (option mission_item_s) :=
  [ Some (item NAV_CMD_VTOL_TAKEOFF 0 0 10 2);
    Some (item NAV_CMD_DO_LAND_START 0 0 0 0);
    Some (item NAV_CMD_WAYPOINT 100 0 10 2);
    Some (item NAV_CMD_VTOL_LAND 100 0 0 2) ].

(** A fixed-wing mission with a landing sequence. *)
Definition fw_land_sequence : list (option mission_item_s) :=
  [ Some (item NAV_CMD_TAKEOFF 0 0 10 2);
    Some (item NAV_CMD_DO_LAND_START 0 0 0 0);
    Some (item NAV_CMD_WAYPOINT 0 0 5 2);
    Some (item NAV_CMD_LAND 200 0 0 2) ].

(** Scenario for the where-clauses of the takeoff rule: a takeoff item
    with an altitude above mean sea level, 2 m above home, and no acceptance
    radius of its own. *)
Definition absolute_takeoff : mission_item_s :=
  {| nav_cmd_of := NAV_CMD_TAKEOFF; lat := F32.zero; lon := F32.zero;
     altitude := F32.of_int 490; altitude_is_relative := false;
     acceptance_radius := F32.zero; loiter_radius := F32.zero;
     params0 := F32.zero; params1 := F32.zero |}.

Definition low_absolute_takeoff : list (option mission_item_s) :=
  [ Some absolute_takeoff ].

(** Two takeoff items that are both too low, with acceptance radii 10 m
    and 20 m. *)
Definition two_low_takeoffs : list (option mission_item_s) :=
  [ Some (item NAV_CMD_TAKEOFF 0 0 10 10);
    Some (item NAV_CMD_TAKEOFF 0 0 10 20) ].



(** A mission of [k + 1] items: [k] items without a position, then a
    waypoint 5 m below home at index [k]. *)
Definition long_storage (k : nat) : Platform :=
  {| dm_read := fun _ i =>
       Some (if (i <? k)%nat then item NAV_CMD_IDLE 0 0 0 0
             else item NAV_CMD_WAYPOINT 100 0 (-5) 2);
     item_contains_position := positional;
     get_distance_to_next_waypoint := grid_distance;
     tanf := fun x => x;
     radians := fun x => x;
     floorf := fun x => x;
     ceilf := fun x => x;
     float_to_int := fun _ => 0;
     float_to_uint32 := fun _ => 0;
     float_to_uint8 := fun _ => 0;
     param_find_FW_LND_ANG := None;
     NAV_EPSILON_POSITION := S754_finite false 8589935 (-33);
     PWM_DEFAULT_MAX := 2000;
     VEHICLE_TYPE_FIXED_WING := 2 |}.

Definition long_mission (k : nat) : mission_s :=
  {| dataman_id := 0; count := S k |}.

(** A servo command for actuator 3 with the value 1500. *)
Definition servo : mission_item_s :=
  {| nav_cmd_of := NAV_CMD_DO_SET_SERVO; lat := F32.zero; lon := F32.zero;
     altitude := F32.zero; altitude_is_relative := true;
     acceptance_radius := F32.zero; loiter_radius := F32.zero;
     params0 := F32.of_int 3; params1 := F32.of_int 1500 |}.

End Fixture.

(** ** Statements about runs and missions *)

(** The three components of the outcome of a run. *)
Definition result_of {A} (x : A * checker * list output) : A := fst (fst x).
Definition state_of {A} (x : A * checker * list output) : checker := snd (fst x).
Definition trace_of {A} (x : A * checker * list output) : list output := snd x.

(** Item [i] of the mission is stored and is [item]. *)
Definition item_at (P : Platform) (mission : mission_s) (i : nat)
  (item : mission_item_s) : Prop :=
  (i < count mission)%nat /\ dm_read P (dataman_id mission) i = Some item.

(** Every item of the mission can be read. *)
Definition readable (P : Platform) (mission : mission_s) : bool :=
  forallb (fun i => match dm_read P (dataman_id mission) i with
                    | Some _ => true
                    | None => false
                    end)
          (seq 0 (count mission)).

(** The first loop of [checkTakeoff] gets to index [i]: every item before
    [i] has been read and none of them is a takeoff item that is too low. *)
Definition reaches (P : Platform) (nav : Navigator) (mission : mission_s)
  (h : float32) (i : nat) : Prop :=
  forall j, (j < i)%nat ->
    exists it, dm_read P (dataman_id mission) j = Some it
               /\ is_takeoff_cmd (nav_cmd_of it) && takeoff_too_low P nav h it
                  = false.

(** Item [i] is the first takeoff item that is too low. *)
Definition first_low_takeoff (P : Platform) (nav : Navigator)
  (mission : mission_s) (h : float32) (i : nat) (item : mission_item_s) : Prop :=
  item_at P mission i item
  /\ is_takeoff_cmd (nav_cmd_of item) = true
  /\ takeoff_too_low P nav h item = true
  /\ reaches P nav mission h i.

(** What the first loop of [checkTakeoff] has done when it is left. *)
Definition takeoff_loop_post (P : Platform) (nav : Navigator)
  (mission : mission_s) (h : float32) (b : bool) (t : list output) : Prop :=
  (exists k item, first_low_takeoff P nav mission h k item /\ b = false
     /\ t = [Send (navigator_mis_takeoff_too_low
                     (F32.add (takeoff_acceptance_radius P nav item) F32.one))])
  \/ (exists k, reaches P nav mission h k
        /\ dm_read P (dataman_id mission) k = None /\ t = [DmReadFailed k]).

(** [c == c1 || c == c2 || ...]. *)
Definition is_one_of (c : nav_cmd) (cmds : list nav_cmd) : bool :=
  existsb (cmd_eqb c) cmds.

(** The mission has a stored item whose command is among [cmds]. *)
Definition contains_any (P : Platform) (mission : mission_s)
  (cmds : list nav_cmd) : Prop :=
  exists i item, item_at P mission i item
                 /\ is_one_of (nav_cmd_of item) cmds = true.

(** The commands that make the landing step of [checkMissionFeasible] set
    [_has_landing], by the branch the vehicle takes. *)
Definition landing_commands (P : Platform) (nav : Navigator) : list nav_cmd :=
  if is_vtol nav then
    [NAV_CMD_DO_LAND_START; NAV_CMD_LAND; NAV_CMD_VTOL_LAND]
  else if vehicle_type nav =? VEHICLE_TYPE_FIXED_WING P then
    [NAV_CMD_DO_LAND_START; NAV_CMD_LAND]
  else [NAV_CMD_LAND].

(** Invariant of the landing loops before iteration [i], and what holds
    when they leave the function. *)
Definition landing_inv (P : Platform) (mission : mission_s)
  (cmds : list nav_cmd) (i : nat) (s : checker) : Prop :=
  _has_landing s = true <->
  exists j item, (j < i)%nat /\ dm_read P (dataman_id mission) j = Some item
                 /\ is_one_of (nav_cmd_of item) cmds = true.

Definition landing_exit (P : Platform) (mission : mission_s)
  (cmds : list nav_cmd) (s : checker) : Prop :=
  _has_landing s = true /\ contains_any P mission cmds.

(** The landing approach distance of the fixed-wing check, by the command
    of the entrance item: the tangent length for an orbit, the distance
    between the two items otherwise. *)
Definition landing_approach_distance (P : Platform)
  (item previous : mission_item_s) : float32 :=
  if nav_cmd_of previous ==c NAV_CMD_LOITER_TO_ALT
  then tangent_distance P item previous
  else distance_orbit_center_to_land P item previous.

Definition glide_slope (P : Platform) (nav : Navigator)
  (item previous : mission_item_s) : float32 :=
  F32.div (relative_approach_altitude nav item previous)
          (landing_approach_distance P item previous).


(** The sub-checks, as [checkMissionFeasible] calls them. *)
Inductive subcheck : Type :=
| DistanceToFirstWaypoint
| MissionItemValidity
| DistancesBetweenWaypoints
| Geofence
| HomePositionAltitude
| Takeoff
| VTOLLanding
| FixedWingLanding
| TakeoffLandAvailable.

Definition run_subcheck (P : Platform) (nav : Navigator) (c : subcheck)
  (mission : mission_s) (max_distance : float32) : M bool :=
  match c with
  | DistanceToFirstWaypoint =>
      checkDistanceToFirstWaypoint P nav mission max_distance
  | MissionItemValidity => checkMissionItemValidity P nav mission
  | DistancesBetweenWaypoints =>
      checkDistancesBetweenWaypoints P mission max_distance
  | Geofence =>
      checkGeofence P nav mission (home_alt nav) (home_global_position_valid nav)
  | HomePositionAltitude =>
      checkHomePositionAltitude P mission (home_alt nav) (home_alt_valid nav)
  | Takeoff => checkTakeoff P nav mission (home_alt nav)
  | VTOLLanding => checkVTOLLanding P mission
  | FixedWingLanding => checkFixedWingLanding P nav mission
  | TakeoffLandAvailable => checkTakeoffLandAvailable nav
  end.

(** The sub-checks whose read-failure branch sends a storage-failure event. *)
Definition reports_storage_failure (c : subcheck) : bool :=
  match c with
  | DistanceToFirstWaypoint | MissionItemValidity | DistancesBetweenWaypoints =>
      true
  | _ => false
  end.

(** ** Summaries of a run *)

(** An event other than the below-home warning. *)
Definition is_fatal (o : output) : bool :=
  is_send (fun e => negb (is_wp_below_home e)) o.

(** What every sub-check guarantees about one run from [s] with outcome
    [(r, s', t)]; [reports] tells whether the sub-check announces a failed
    read with a storage-failure event. *)
Definition run_ok (reports : bool) (s : checker) (r : bool) (s' : checker)
  (t : list output) : Prop :=
  (warning s = true -> warning s' = true)
  /\ (r = true -> existsb is_fatal t = false /\ existsb is_read_failure t = false)
  /\ (existsb (is_send is_distance_failure) t = true -> r = false /\ warning s' = true)
  /\ (existsb is_read_failure t = true ->
      existsb (is_send is_storage_failure) t = reports)
  /\ (reports = false -> existsb (is_send is_storage_failure) t = false).

(** A trace with no failed read and no event other than the below-home
    warning. *)
Definition quiet (t : list output) : Prop :=
  existsb is_fatal t = false /\ existsb is_read_failure t = false
  /\ existsb (is_send is_distance_failure) t = false
  /\ existsb (is_send is_storage_failure) t = false.

(** The same for one iteration of a loop: a body that falls through has
    been quiet. *)
Definition step_ok {L} (reports : bool) (s : checker)
  (res : flow L * checker * list output) : Prop :=
  let '(f, s', t) := res in
  match f with
  | Continue _ => (warning s = true -> warning s' = true) /\ quiet t
  | Return b => run_ok reports s b s' t
  end.

(** ** Further statements about the sub-checks *)

(** The verdict of [checkTakeoffLandAvailable] for requirement [p]. *)
Definition policy_verdict (p : Z) (has_takeoff has_landing : bool) : bool :=
  match p with
  | 1 => has_takeoff
  | 2 => has_landing
  | 3 => has_takeoff && has_landing
  | 4 => Bool.eqb has_takeoff has_landing
  | _ => true
  end.

(** The event [checkTakeoffLandAvailable] sends when it fails. *)
Definition policy_event (p : Z) (has_takeoff : bool) : event :=
  match p with
  | 1 => navigator_mis_takeoff_missing
  | 2 => navigator_mis_land_missing
  | 3 => navigator_mis_takeoff_or_land_missing
  | _ => if has_takeoff then navigator_mis_add_land_or_rm_to
         else navigator_mis_add_to_or_rm_land
  end.

(** The tests of [checkMissionItemValidity] on the item at index [i]. *)
Definition servo_in_range (P : Platform) (item : mission_item_s) : bool :=
  negb (F32.lt (params0 item) (F32.of_int 0)
        || F32.gt (params0 item) (F32.of_int 5))
  && negb (F32.lt (params1 item) (F32.of_int (- PWM_DEFAULT_MAX P))
           || F32.gt (params1 item) (F32.of_int (PWM_DEFAULT_MAX P))).

Definition item_valid (P : Platform) (nav : Navigator) (i : nat)
  (item : mission_item_s) : bool :=
  negb (differs_from_all (nav_cmd_of item) supported_commands)
  && (if nav_cmd_of item ==c NAV_CMD_DO_SET_SERVO
      then servo_in_range P item else true)
  && negb ((i =? 0)%nat && (nav_cmd_of item ==c NAV_CMD_LAND) && landed nav).

(** The checker with its two derived flags replaced. *)
Definition with_flags (s : checker) (has_takeoff has_landing : bool) : checker :=
  {| warning := warning s; _has_takeoff := has_takeoff;
     _has_landing := has_landing |}.

(** Item [k] is the first item of the mission with a position; every item
    before it can be read. *)
Definition first_positional (P : Platform) (mission : mission_s) (k : nat)
  (item : mission_item_s) : Prop :=
  item_at P mission k item
  /\ item_contains_position P item = true
  /\ forall j, (j < k)%nat ->
       exists it, dm_read P (dataman_id mission) j = Some it
                  /\ item_contains_position P it = false.

(** Every item of the mission can be read and none has a position. *)
Definition no_positional (P : Platform) (mission : mission_s) : Prop :=
  forall i, (i < count mission)%nat ->
    exists it, dm_read P (dataman_id mission) i = Some it
               /\ item_contains_position P it = false.

(** The distance from home [checkDistanceToFirstWaypoint] computes. *)
Definition distance_from_home (P : Platform) (nav : Navigator)
  (item : mission_item_s) : float32 :=
  get_distance_to_next_waypoint P (lat item) (lon item)
    (home_lat nav) (home_lon nav).

(** Items [j < k] both have a position and no item between them has one. *)
Definition consecutive_positional (P : Platform) (mission : mission_s)
  (j k : nat) (a b : mission_item_s) : Prop :=
  (j < k)%nat
  /\ dm_read P (dataman_id mission) j = Some a
  /\ item_at P mission k b
  /\ item_contains_position P a = true
  /\ item_contains_position P b = true
  /\ forall m, (j < m < k)%nat ->
       forall it, dm_read P (dataman_id mission) m = Some it ->
                  item_contains_position P it = false.

(** The distance [checkDistancesBetweenWaypoints] computes at item [b]
    when the last item with a position was [a]. *)
Definition distance_between (P : Platform) (a b : mission_item_s) : float32 :=
  get_distance_to_next_waypoint P (lat b) (lon b) (lat a) (lon a).

(** The locals of [checkDistancesBetweenWaypoints] before iteration [i]
    hold the position and command of the last item with a position. *)
Definition tracks_last (P : Platform) (mission : mission_s) (i : nat)
  (l : dist_locals) : Prop :=
  forall j a, (j < i)%nat -> dm_read P (dataman_id mission) j = Some a ->
    item_contains_position P a = true ->
    (forall m, (j < m < i)%nat ->
       forall it, dm_read P (dataman_id mission) m = Some it ->
                  item_contains_position P it = false) ->
    last_lat l = lat a /\ last_lon l = lon a
    /\ last_cmd l = Some (nav_cmd_of a).

(** What a passing [checkDistancesBetweenWaypoints] has established for two
    items with a position that follow one another. *)
Definition segment_checked (P : Platform) (d : float32)
  (a b : mission_item_s) : Prop :=
  PX4_ISFINITE (lat a) && PX4_ISFINITE (lon a) = true ->
  F32.gt (distance_between P a b) d = false
  /\ F32.lt (distance_between P a b) F32.c0_05
     && ((nav_cmd_of b ==c NAV_CMD_CONDITION_GATE)
         || (nav_cmd_of a ==c NAV_CMD_CONDITION_GATE)) = false.

(** The item as the geofence is to see it: every field as stored, but the
    altitude above mean sea level, which for a relative altitude is the
    stored altitude plus the home altitude. *)
Definition geofence_item (home_alt : float32) (item : mission_item_s)
  : mission_item_s :=
  {| nav_cmd_of := nav_cmd_of item;
     lat := lat item;
     lon := lon item;
     altitude := if altitude_is_relative item
                 then F32.add (altitude item) home_alt
                 else altitude item;
     altitude_is_relative := altitude_is_relative item;
     acceptance_radius := acceptance_radius item;
     loiter_radius := loiter_radius item;
     params0 := params0 item;
     params1 := params1 item |}.

(** The tests of [checkGeofence] on one item. *)
Definition geofence_item_ok (P : Platform) (nav : Navigator)
  (home_alt : float32) (home_valid : bool) (item : mission_item_s) : bool :=
  negb (altitude_is_relative item && negb home_valid)
  && negb (item_contains_position P (geofence_item home_alt item)
           && negb (geofence_check nav (geofence_item home_alt item))).

(** Every item can be read and passes the test [ok]. *)
Definition all_items (P : Platform) (mission : mission_s)
  (ok : nat -> mission_item_s -> bool) : Prop :=
  forall i, (i < count mission)%nat ->
    exists item, dm_read P (dataman_id mission) i = Some item
                 /\ ok i item = true.

(** Item [j] can be read and is a takeoff item. *)
Definition takeoff_at (P : Platform) (mission : mission_s) (j : nat) : Prop :=
  exists item, dm_read P (dataman_id mission) j = Some item
               /\ is_takeoff_cmd (nav_cmd_of item) = true.

(** Among the items before [i], [k] is the first takeoff item at an index
    above 0. *)
Definition first_later_takeoff (P : Platform) (mission : mission_s)
  (i k : nat) : Prop :=
  (0 < k < i)%nat /\ takeoff_at P mission k
  /\ forall j, (0 < j < k)%nat -> ~ takeoff_at P mission j.

(** What the first loop of [checkTakeoff], started in [s], has computed
    before iteration [i]: the locals [takeoff_first] and [takeoff_index] and
    the checker. *)
Definition takeoff_loop_inv (P : Platform) (nav : Navigator)
  (mission : mission_s) (h : float32) (s : checker) (i : nat)
  (l : bool * Z) (s1 : checker) (t1 : list output) : Prop :=
  t1 = []
  /\ reaches P nav mission h i
  /\ warning s1 = warning s /\ _has_landing s1 = _has_landing s
  /\ (_has_takeoff s1 = true <->
      _has_takeoff s = true \/ exists j, (j < i)%nat /\ takeoff_at P mission j)
  /\ (fst l = true <-> (0 < i)%nat /\ takeoff_at P mission 0)
  /\ ((snd l = -1 /\ forall j, (0 < j < i)%nat -> ~ takeoff_at P mission j)
      \/ exists k, snd l = Z.of_nat k /\ first_later_takeoff P mission i k).

(** The order rules of the landing checks at the item at index [k]: a
    landing item (one of [lands]) is not the first item, and no item among
    [cmds] comes before a [DO_LAND_START] or a [RETURN_TO_LAUNCH]. *)
Definition landing_rules (P : Platform) (mission : mission_s)
  (lands cmds : list nav_cmd) (k : nat) (item : mission_item_s) : Prop :=
  (is_one_of (nav_cmd_of item) lands = true -> (0 < k)%nat)
  /\ (is_one_of (nav_cmd_of item)
        [NAV_CMD_DO_LAND_START; NAV_CMD_RETURN_TO_LAUNCH] = true ->
      ~ exists j it, (j < k)%nat
          /\ dm_read P (dataman_id mission) j = Some it
          /\ is_one_of (nav_cmd_of it) cmds = true).

(** Invariant of [checkVTOLLanding] before iteration [i]. *)
Definition vtol_inv (P : Platform) (mission : mission_s) (i : nat)
  (l : nat * nat) (s : checker) : Prop :=
  landing_inv P mission
    [NAV_CMD_DO_LAND_START; NAV_CMD_LAND; NAV_CMD_VTOL_LAND] i s
  /\ (fst l < Nat.max i 1)%nat
  /\ (forall k item, (k < i)%nat ->
        dm_read P (dataman_id mission) k = Some item ->
        landing_rules P mission [NAV_CMD_LAND; NAV_CMD_VTOL_LAND]
          [NAV_CMD_DO_LAND_START; NAV_CMD_LAND; NAV_CMD_VTOL_LAND] k item)
  /\ ((0 < snd l)%nat ->
      exists item, (snd l + 1 < i)%nat
        /\ dm_read P (dataman_id mission) (snd l + 1) = Some item
        /\ is_one_of (nav_cmd_of item) [NAV_CMD_LAND; NAV_CMD_VTOL_LAND]
           = true)
  /\ (forall k item, (k < i)%nat ->
        dm_read P (dataman_id mission) k = Some item ->
        nav_cmd_of item = NAV_CMD_DO_LAND_START ->
        fst l = k).

(** Invariant of [checkFixedWingLanding] before iteration [i]. *)
Definition fw_inv (P : Platform) (mission : mission_s) (i : nat)
  (l : fw_locals) (s : checker) : Prop :=
  landing_inv P mission [NAV_CMD_DO_LAND_START; NAV_CMD_LAND] i s
  /\ (do_land_start_index l < Nat.max i 1)%nat
  /\ (forall k item, (k < i)%nat ->
        dm_read P (dataman_id mission) k = Some item ->
        landing_rules P mission [NAV_CMD_LAND]
          [NAV_CMD_DO_LAND_START; NAV_CMD_LAND] k item)
  /\ (landing_valid l = true ->
      exists item, (landing_approach_index l + 1 < i)%nat
        /\ dm_read P (dataman_id mission) (landing_approach_index l + 1)
           = Some item
        /\ nav_cmd_of item = NAV_CMD_LAND)
  /\ (forall k item, (k < i)%nat ->
        dm_read P (dataman_id mission) k = Some item ->
        nav_cmd_of item = NAV_CMD_DO_LAND_START ->
        do_land_start_index l = k).

(** An output that comes with the warning flag being set: a failed read,
    the below-home warning, a relative altitude without home, or one of the
    distance failures. *)
Definition raises_warning (o : output) : bool :=
  match o with
  | DmReadFailed _ => true
  | Send e =>
      is_wp_below_home e || is_distance_failure e
      || match e with navigator_mis_no_home_rel_alt _ => true | _ => false end
  end.

(** The warning flag over a piece of a run from [s] to [s'] with output
    [t]: it is set only if it was set before or [t] has an output that
    raises it, and it is set if it was set before or [t] has a below-home
    warning. *)
Definition warning_accounted (s s' : checker) (t : list output) : Prop :=
  (warning s' = true ->
   warning s = true \/ existsb raises_warning t = true)
  /\ (warning s = true \/ existsb (is_send is_wp_below_home) t = true ->
      warning s' = true).

Definition accounts {A} (m : M A) : Prop :=
  forall s, warning_accounted s (state_of (m s)) (trace_of (m s)).

(** ** The takeoff rule in the words of the specification

    These definitions follow the text of the specification and not the
    code; the statements about [checkTakeoff] compare the two. *)

(** A takeoff item: [TAKEOFF] or [VTOL_TAKEOFF]. *)
Definition is_takeoff_item (item : mission_item_s) : Prop :=
  nav_cmd_of item = NAV_CMD_TAKEOFF \/ nav_cmd_of item = NAV_CMD_VTOL_TAKEOFF.

(** The takeoff altitude above home: the stored altitude if it is relative,
    the stored altitude minus the home altitude otherwise. *)
Definition takeoff_alt_above_home (home_alt : float32)
  (item : mission_item_s) : float32 :=
  if altitude_is_relative item then altitude item
  else F32.sub (altitude item) home_alt.

(** The acceptance radius of the rule: the item's when it exceeds
    [NAV_EPSILON_POSITION], the default acceptance radius otherwise. *)
Definition rule_acceptance_radius (P : Platform) (nav : Navigator)
  (item : mission_item_s) : float32 :=
  if F32.gt (acceptance_radius item) (NAV_EPSILON_POSITION P)
  then acceptance_radius item
  else default_acceptance_radius nav.

(** [takeoff_alt_above_home - 1.0 m < acceptance_radius]. *)
Definition below_minimum_takeoff_alt (P : Platform) (nav : Navigator)
  (home_alt : float32) (item : mission_item_s) : bool :=
  F32.lt (F32.sub (takeoff_alt_above_home home_alt item) F32.one)
         (rule_acceptance_radius P nav item).

(** Item [i] is a takeoff item below the minimum; every item before it can
    be read and none of them is a takeoff item below the minimum. *)
Definition first_takeoff_below_minimum (P : Platform) (nav : Navigator)
  (mission : mission_s) (home_alt : float32) (i : nat)
  (item : mission_item_s) : Prop :=
  item_at P mission i item
  /\ is_takeoff_item item
  /\ below_minimum_takeoff_alt P nav home_alt item = true
  /\ forall j, (j < i)%nat ->
       exists it, dm_read P (dataman_id mission) j = Some it
                  /\ (is_takeoff_item it ->
                      below_minimum_takeoff_alt P nav home_alt it = false).

(** * Properties *)

Unset Implicit Arguments.

Arguments F32.lt : simpl never.
Arguments F32.le : simpl never.
Arguments F32.gt : simpl never.
Arguments cmd_eqb : simpl never.
Arguments differs_from_all : simpl never.

Lemma cmd_eqb_eq (a b : nav_cmd) : (a ==c b) = true <-> a = b.
Proof. unfold cmd_eqb. destruct (nav_cmd_eq_dec a b); split; congruence. Qed.

Lemma cmd_eqb_neq (a b : nav_cmd) : (a ==c b) = false <-> a <> b.
Proof. unfold cmd_eqb. destruct (nav_cmd_eq_dec a b); split; congruence. Qed.

(** ** Reasoning about runs *)

Lemma quiet_nil : quiet [].
Proof. repeat split. Qed.

Lemma run_ok_app reports s s1 s2 r t1 t2 :
  (warning s = true -> warning s1 = true) -> quiet t1 ->
  run_ok reports s1 r s2 t2 -> run_ok reports s r s2 (t1 ++ t2).
Proof.
  intros Hw (Q1 & Q2 & Q3 & Q4) (R1 & R2 & R3 & R4 & R5).
  unfold run_ok. rewrite !existsb_app, Q1, Q2, Q3, Q4. cbn [orb].
  repeat split; auto; intros; try apply R2; try apply R3; auto.
Qed.

Lemma quiet_app t1 t2 : quiet t1 -> quiet t2 -> quiet (t1 ++ t2).
Proof.
  intros (Q1 & Q2 & Q3 & Q4) (R1 & R2 & R3 & R4).
  unfold quiet. rewrite !existsb_app, Q1, Q2, Q3, Q4. auto.
Qed.

Lemma for_loop_step_ok {L} reports (body : nat -> L -> M (flow L)) :
  (forall i l s, step_ok reports s (body i l s)) ->
  forall n i l s, step_ok reports s (for_loop n i body l s).
Proof.
  intros Hb n. induction n as [|n IH]; intros i l s.
  - cbn. split; [auto | apply quiet_nil].
  - cbn [for_loop]. unfold bind.
    specialize (Hb i l s). destruct (body i l s) as [[f s1] t1].
    destruct f as [l1|b].
    + destruct Hb as [Hw Hq]. specialize (IH (S i) l1 s1).
      destruct (for_loop n (S i) body l1 s1) as [[f2 s2] t2].
      cbn in IH |- *. destruct f2 as [l2|b2].
      * destruct IH as [Hw2 Hq2]. split; [auto | apply quiet_app; auto].
      * eapply run_ok_app; eauto.
    + cbn. rewrite app_nil_r. exact Hb.
Qed.


(** Invariant rule for [for_loop]: [I] holds before every iteration below
    [stop], [Q] when the body leaves the function. *)
Lemma for_loop_inv {L} (body : nat -> L -> M (flow L)) (stop : nat)
  (I : nat -> L -> checker -> list output -> Prop)
  (Q : bool -> checker -> list output -> Prop) :
  (forall i l s t, (i < stop)%nat -> I i l s t ->
     let '(f, s', t') := body i l s in
     match f with
     | Continue l' => I (S i) l' s' (t ++ t')
     | Return b => Q b s' (t ++ t')
     end) ->
  forall n i l s t, (i + n = stop)%nat -> I i l s t ->
     let '(f, s', t') := for_loop n i body l s in
     match f with
     | Continue l' => I stop l' s' (t ++ t')
     | Return b => Q b s' (t ++ t')
     end.
Proof.
  intros Hb n. induction n as [|n IH]; intros i l s t Hn HI.
  - cbn. rewrite app_nil_r, Nat.add_0_r in *. now subst.
  - cbn [for_loop]. unfold bind.
    assert (Hi : (i < stop)%nat) by lia.
    specialize (Hb i l s t Hi HI). destruct (body i l s) as [[f s1] t1].
    destruct f as [l1|b].
    + specialize (IH (S i) l1 s1 (t ++ t1) ltac:(lia) Hb).
      destruct (for_loop n (S i) body l1 s1) as [[f2 s2] t2].
      rewrite app_assoc. exact IH.
    + cbn. now rewrite app_nil_r.
Qed.

Ltac unfold_m :=
  unfold and_then, land_start_step, rtl_step, fw_approach_step,
    glide_slope_step, read_item, or_failed, bind, ret, send, set_warning,
    set_has_takeoff, set_has_landing, get_has_takeoff, get_has_landing in *.

Ltac case_split :=
  match goal with
  | |- context [match dm_read ?P ?a ?b with _ => _ end] =>
      destruct (dm_read P a b) eqn:?
  | |- context [match param_find_FW_LND_ANG ?P with _ => _ end] =>
      destruct (param_find_FW_LND_ANG P) eqn:?
  | |- context [if ?c then _ else _] => destruct c eqn:?
  end.

Ltac split_pairs :=
  repeat match goal with x : (_ * _)%type |- _ => destruct x end.

Ltac leaf :=
  cbn; unfold run_ok, quiet; cbn;
  repeat split; intros; cbn in *; try congruence; auto.


(** Finishing a sub-check after its loop. *)
Ltac after_loop lem :=
  match goal with
  | |- context [for_loop ?n ?i ?body ?l ?s] =>
      let H := fresh "Hloop" in
      pose proof (for_loop_step_ok _ body lem n i l s) as H;
      destruct (for_loop n i body l s) as [[[?|?] ?] ?]; cbn in H
  end.

Lemma run_ok_nil_r reports s r s' t : run_ok reports s r s' t -> run_ok reports s r s' (t ++ []).
Proof. now rewrite app_nil_r. Qed.

Lemma run_ok_pass reports s s' t :
  (warning s = true -> warning s' = true) -> quiet t -> run_ok reports s true s' (t ++ []).
Proof.
  intros Hw (Q1 & Q2 & Q3 & Q4). rewrite app_nil_r. unfold run_ok.
  rewrite Q1, Q2, Q3, Q4. repeat split; auto; try discriminate.
Qed.

Lemma run_ok_tail reports s s1 t1 r s2 t2 :
  (warning s = true -> warning s1 = true) /\ quiet t1 ->
  run_ok reports s1 r s2 t2 -> run_ok reports s r s2 (t1 ++ t2).
Proof. intros [Hw Hq] H. eapply run_ok_app; eauto. Qed.

Section Summaries.
Variable P : Platform.
Variable nav : Navigator.

Ltac body_ok := unfold_m; repeat case_split; leaf.

Lemma checkMissionItemValidity_body_ok mission i l s :
  step_ok true s (checkMissionItemValidity_body P nav mission i l s).
Proof. unfold checkMissionItemValidity_body. body_ok. Qed.

Lemma checkGeofence_body_ok mission h hv i l s :
  step_ok false s (checkGeofence_body P nav mission h hv i l s).
Proof. unfold checkGeofence_body. body_ok. Qed.

Lemma checkHomePositionAltitude_body_ok mission h hv i l s :
  step_ok false s (checkHomePositionAltitude_body P mission h hv i l s).
Proof. unfold checkHomePositionAltitude_body. body_ok. Qed.

Lemma checkTakeoff_body_ok mission h i l s :
  step_ok false s (checkTakeoff_body P nav mission h i l s).
Proof. unfold checkTakeoff_body. destruct l. body_ok. Qed.

Lemma checkTakeoff_scan_body_ok mission i l s :
  step_ok false s (checkTakeoff_scan_body P mission i l s).
Proof. unfold checkTakeoff_scan_body. body_ok. Qed.

Lemma hasMissionLanding_body_ok mission i l s :
  step_ok false s (hasMissionLanding_body P mission i l s).
Proof. unfold hasMissionLanding_body. body_ok. Qed.

Lemma checkFixedWingLanding_body_ok mission i l s :
  step_ok false s (checkFixedWingLanding_body P nav mission i l s).
Proof. unfold checkFixedWingLanding_body. body_ok. Qed.

Lemma checkVTOLLanding_body_ok mission i l s :
  step_ok false s (checkVTOLLanding_body P mission i l s).
Proof. unfold checkVTOLLanding_body. body_ok. Qed.

Lemma checkDistanceToFirstWaypoint_body_ok mission d i l s :
  step_ok true s (checkDistanceToFirstWaypoint_body P nav mission d i l s).
Proof. unfold checkDistanceToFirstWaypoint_body. body_ok. Qed.

Lemma checkDistancesBetweenWaypoints_body_ok mission d i l s :
  step_ok true s (checkDistancesBetweenWaypoints_body P mission d i l s).
Proof. unfold checkDistancesBetweenWaypoints_body. body_ok. Qed.

Lemma checkMissionItemValidity_ok mission s r s' t :
  checkMissionItemValidity P nav mission s = (r, s', t) -> run_ok true s r s' t.
Proof.
  unfold checkMissionItemValidity, bind.
  after_loop (checkMissionItemValidity_body_ok mission);
    cbn; intros [= <- <- <-].
  - now apply run_ok_pass.
  - now apply run_ok_nil_r.
Qed.

Ltac finish :=
  cbn; intros [= <- <- <-];
  first [ now apply run_ok_pass
        | now apply run_ok_nil_r
        | eapply run_ok_tail; [eassumption | leaf] ].

Lemma checkGeofence_ok mission h hv s r s' t :
  checkGeofence P nav mission h hv s = (r, s', t) -> run_ok false s r s' t.
Proof.
  unfold checkGeofence. unfold_m. repeat case_split;
    try (intros [= <- <- <-]; leaf).
  after_loop (checkGeofence_body_ok mission h hv); finish.
Qed.

Lemma checkHomePositionAltitude_ok mission h hv s r s' t :
  checkHomePositionAltitude P mission h hv s = (r, s', t) ->
  run_ok false s r s' t.
Proof.
  unfold checkHomePositionAltitude, bind.
  after_loop (checkHomePositionAltitude_body_ok mission h hv); finish.
Qed.

Lemma checkTakeoff_ok mission h s r s' t :
  checkTakeoff P nav mission h s = (r, s', t) -> run_ok false s r s' t.
Proof.
  unfold checkTakeoff. unfold_m.
  after_loop (checkTakeoff_body_ok mission h); [|finish].
  split_pairs. case_split.
  - after_loop (checkTakeoff_scan_body_ok mission).
    + case_split; cbn; intros [= <- <- <-];
        (eapply run_ok_tail; [eassumption|]);
        (eapply run_ok_tail; [eassumption|]); leaf.
    + cbn; intros [= <- <- <-].
      eapply run_ok_tail; [eassumption|]. now apply run_ok_nil_r.
  - case_split; finish.
Qed.

Lemma hasMissionLanding_ok mission s r s' t :
  hasMissionLanding P mission s = (r, s', t) -> run_ok false s r s' t.
Proof.
  unfold hasMissionLanding, bind.
  after_loop (hasMissionLanding_body_ok mission); [|finish].
  cbn; intros [= <- <- <-]. rewrite app_nil_r.
  destruct Hloop as [Hw (Q1 & Q2 & Q3 & Q4)]. unfold run_ok.
  rewrite Q1, Q2, Q3, Q4. repeat split; auto; discriminate.
Qed.

Lemma checkFixedWingLanding_ok mission s r s' t :
  checkFixedWingLanding P nav mission s = (r, s', t) -> run_ok false s r s' t.
Proof.
  unfold checkFixedWingLanding. unfold_m.
  after_loop (checkFixedWingLanding_body_ok mission); [|finish].
  case_split; finish.
Qed.

Lemma checkVTOLLanding_ok mission s r s' t :
  checkVTOLLanding P mission s = (r, s', t) -> run_ok false s r s' t.
Proof.
  unfold checkVTOLLanding. unfold_m.
  after_loop (checkVTOLLanding_body_ok mission); [|finish].
  split_pairs. case_split; finish.
Qed.

Lemma checkTakeoffLandAvailable_ok s r s' t :
  checkTakeoffLandAvailable nav s = (r, s', t) -> run_ok false s r s' t.
Proof.
  unfold checkTakeoffLandAvailable. unfold_m.
  destruct s as [w [] []]; cbn;
  destruct (takeoff_land_required nav) as [|p|p];
    repeat match goal with
           | |- context [match ?q with xI _ => _ | xO _ => _ | xH => _ end] =>
               destruct q
           end;
    repeat case_split; intros [= <- <- <-]; leaf.
Qed.

Lemma checkDistanceToFirstWaypoint_ok mission d s r s' t :
  checkDistanceToFirstWaypoint P nav mission d s = (r, s', t) ->
  run_ok true s r s' t.
Proof.
  unfold checkDistanceToFirstWaypoint. unfold_m. case_split;
    [intros [= <- <- <-]; leaf|].
  after_loop (checkDistanceToFirstWaypoint_body_ok mission d); finish.
Qed.

Lemma checkDistancesBetweenWaypoints_ok mission d s r s' t :
  checkDistancesBetweenWaypoints P mission d s = (r, s', t) ->
  run_ok true s r s' t.
Proof.
  unfold checkDistancesBetweenWaypoints. unfold_m. case_split;
    [intros [= <- <- <-]; leaf|].
  after_loop (checkDistancesBetweenWaypoints_body_ok mission d); finish.
Qed.


Lemma hasMissionLanding_silent mission s r s' t :
  hasMissionLanding P mission s = (r, s', t) ->
  (existsb is_fatal t = false
   /\ existsb (is_send is_distance_failure) t = false) /\ s' = s.
Proof.
  unfold hasMissionLanding, bind.
  pose proof (for_loop_inv (hasMissionLanding_body P mission)
                (count mission)
                (fun _ _ s1 t1 =>
                   (existsb is_fatal t1 = false
                    /\ existsb (is_send is_distance_failure) t1 = false)
                   /\ s1 = s)
                (fun _ s1 t1 =>
                   (existsb is_fatal t1 = false
                    /\ existsb (is_send is_distance_failure) t1 = false)
                   /\ s1 = s)) as H.
  specialize (H ltac:(intros i l s1 t1 _ [[Ht Hd] ->];
                      unfold hasMissionLanding_body; unfold_m;
                      repeat case_split; rewrite !existsb_app, Ht, Hd;
                      cbn; auto)
                (count mission) 0%nat false s [] eq_refl
                (conj (conj eq_refl eq_refl) eq_refl)).
  destruct (for_loop _ _ _ _ _) as [[[?|?] ?] ?]; cbn in *;
    intros [= <- <- <-]; now rewrite app_nil_r.
Qed.

Ltac sub_call :=
  let E := fresh "E" in
  match goal with
  | |- context [checkDistanceToFirstWaypoint ?P ?n ?m ?d ?s] =>
      destruct (checkDistanceToFirstWaypoint P n m d s) as [[? ?] ?] eqn:E;
      apply checkDistanceToFirstWaypoint_ok in E
  | |- context [checkMissionItemValidity ?P ?n ?m ?s] =>
      destruct (checkMissionItemValidity P n m s) as [[? ?] ?] eqn:E;
      apply checkMissionItemValidity_ok in E
  | |- context [checkDistancesBetweenWaypoints ?P ?m ?d ?s] =>
      destruct (checkDistancesBetweenWaypoints P m d s) as [[? ?] ?] eqn:E;
      apply checkDistancesBetweenWaypoints_ok in E
  | |- context [checkGeofence ?P ?n ?m ?h ?hv ?s] =>
      destruct (checkGeofence P n m h hv s) as [[? ?] ?] eqn:E;
      apply checkGeofence_ok in E
  | |- context [checkHomePositionAltitude ?P ?m ?h ?hv ?s] =>
      destruct (checkHomePositionAltitude P m h hv s) as [[? ?] ?] eqn:E;
      apply checkHomePositionAltitude_ok in E
  | |- context [checkTakeoff ?P ?n ?m ?h ?s] =>
      destruct (checkTakeoff P n m h s) as [[? ?] ?] eqn:E;
      apply checkTakeoff_ok in E
  | |- context [checkVTOLLanding ?P ?m ?s] =>
      destruct (checkVTOLLanding P m s) as [[? ?] ?] eqn:E;
      apply checkVTOLLanding_ok in E
  | |- context [checkFixedWingLanding ?P ?n ?m ?s] =>
      destruct (checkFixedWingLanding P n m s) as [[? ?] ?] eqn:E;
      apply checkFixedWingLanding_ok in E
  | |- context [hasMissionLanding ?P ?m ?s] =>
      destruct (hasMissionLanding P m s) as [[? ?] ?] eqn:E;
      destruct (hasMissionLanding_silent _ _ _ _ _ E) as [[? ?] ->];
      apply hasMissionLanding_ok in E
  | |- context [checkTakeoffLandAvailable ?n ?s] =>
      destruct (checkTakeoffLandAvailable n s) as [[? ?] ?] eqn:E;
      apply checkTakeoffLandAvailable_ok in E
  end.

Lemma checkMissionFeasible_ok mission d1 d2 s r s' t :
  checkMissionFeasible P nav mission d1 d2 s = (r, s', t) ->
  (r = true -> existsb is_fatal t = false)
  /\ (existsb (is_send is_distance_failure) t = true ->
      r = false /\ warning s' = true).
Proof.
  unfold checkMissionFeasible. unfold_m.
  case_split; [intros [= <- <- <-]; cbn; split; [auto|discriminate]|].
  repeat case_split; repeat sub_call; cbn; intros [= <- <- <-].
  all: unfold run_ok in *; cbn in *.
  all: repeat match goal with
              | H : _ /\ _ /\ _ /\ _ /\ _ |- _ =>
                  let Hw := fresh "Hw" in
                  let Hp := fresh "Hp" in
                  let Hd := fresh "Hd" in
                  destruct H as (Hw & Hp & Hd & _ & _)
              end.
  all: (split;
    [ rewrite ?negb_true_iff, ?orb_false_iff, ?negb_false_iff;
      try (intros; discriminate); intros;
      repeat match goal with H : _ /\ _ |- _ => destruct H end; subst;
      repeat match goal with
             | H : true = true -> _ |- _ => destruct (H eq_refl) as [? _]; clear H
             end;
      rewrite ?existsb_app; cbn;
      repeat match goal with H : existsb is_fatal _ = false |- _ => rewrite H; clear H end;
      reflexivity
    | rewrite ?existsb_app, ?orb_true_iff; cbn; intros Hd';
      repeat match goal with H : _ \/ _ |- _ => destruct H as [H|H] end;
      try discriminate; try congruence;
      match goal with
      | Hd : ?x = true -> _ /\ _, H : ?x = true |- _ =>
          destruct (Hd H) as [-> ?]
      end;
      (split; [cbn; repeat (rewrite ?orb_true_r; cbn); reflexivity | auto 12]) ]).
Qed.
End Summaries.

(** ** The empty mission *)

(** C8: a mission with [count = 0] makes [checkMissionFeasible] return
    [false] at once, whatever the vehicle state and the configuration, and
    nothing is sent to the event sink (the run has no output at all). *)
Theorem checkMissionFeasible_empty P nav mission d1 d2 s :
  count mission = 0%nat ->
  result_of (checkMissionFeasible P nav mission d1 d2 s) = false
  /\ trace_of (checkMissionFeasible P nav mission d1 d2 s) = [].
Proof.
  intros H. unfold checkMissionFeasible. unfold_m. rewrite H. cbn. auto.
Qed.

Lemma checkMissionFeasible_empty_witness :
  result_of (checkMissionFeasible (Fixture.platform [] None)
               (Fixture.navigator false 1 3) (Fixture.mission_of [])
               (F32.of_int 900) (F32.of_int 900) Fixture.fresh) = false
  /\ trace_of (checkMissionFeasible (Fixture.platform [] None)
                 (Fixture.navigator false 1 3) (Fixture.mission_of [])
                 (F32.of_int 900) (F32.of_int 900) Fixture.fresh) = [].
Proof. apply checkMissionFeasible_empty. reflexivity. Defined.

(** ** The geofence check without a valid geofence *)

(** C4, as stated: with an invalid geofence the check always passes.  It
    does not: the home-required test comes first. *)
Lemma checkGeofence_invalid_fence_may_fail :
  ~ (forall P nav mission home_alt home_valid s,
       geofence_valid nav = false ->
       result_of (checkGeofence P nav mission home_alt home_valid s) = true).
Proof.
  intros H.
  specialize (H (Fixture.platform [] None) Fixture.navigator_without_home
                (Fixture.mission_of []) F32.zero false Fixture.fresh eq_refl).
  discriminate H.
Qed.

(** C4, amended: with an invalid geofence the check reads no item; it
    passes with no event unless the geofence requires home and home is not
    valid, in which case it sends the home-required event and fails. *)
Theorem checkGeofence_invalid_fence P nav mission home_alt home_valid s :
  geofence_valid nav = false ->
  checkGeofence P nav mission home_alt home_valid s =
  if geofence_isHomeRequired nav && negb home_valid
  then (false, s, [Send navigator_mis_geofence_no_home])
  else (true, s, []).
Proof.
  intros H. unfold checkGeofence. rewrite H.
  destruct (geofence_isHomeRequired nav && negb home_valid); reflexivity.
Qed.

Lemma checkGeofence_invalid_fence_witness :
  checkGeofence (Fixture.platform Fixture.far_waypoint None)
    (Fixture.navigator false 1 0) (Fixture.mission_of Fixture.far_waypoint)
    (F32.of_int 488) true Fixture.fresh = (true, Fixture.fresh, []).
Proof.
  exact (checkGeofence_invalid_fence
           (Fixture.platform Fixture.far_waypoint None)
           (Fixture.navigator false 1 0)
           (Fixture.mission_of Fixture.far_waypoint)
           (F32.of_int 488) true Fixture.fresh eq_refl).
Defined.

(** ** The pre-takeoff scan *)

(** C1: the code at the failing input.  The waypoint at index 0 is not
    allowed before a takeoff, the item at index 1 is, and the first takeoff is
    at index 2: [checkTakeoff] passes and sends nothing, because the scan
    keeps the verdict of the last item only. *)
Theorem checkTakeoff_last_item_decides :
  allowed_before_takeoff NAV_CMD_WAYPOINT = false
  /\ checkTakeoff (Fixture.platform Fixture.waypoint_idle_takeoff None)
       (Fixture.navigator false 1 0)
       (Fixture.mission_of Fixture.waypoint_idle_takeoff)
       (F32.of_int 488) Fixture.fresh
     = (true, {| warning := false; _has_takeoff := true;
                 _has_landing := false |}, []).
Proof. split; vm_compute; reflexivity. Qed.

(** ** Failed reads *)

Lemma run_subcheck_ok P nav c mission d s r s' t :
  run_subcheck P nav c mission d s = (r, s', t) ->
  run_ok (reports_storage_failure c) s r s' t.
Proof.
  destruct c; cbn [run_subcheck reports_storage_failure].
  - apply checkDistanceToFirstWaypoint_ok.
  - apply checkMissionItemValidity_ok.
  - apply checkDistancesBetweenWaypoints_ok.
  - apply checkGeofence_ok.
  - apply checkHomePositionAltitude_ok.
  - apply checkTakeoff_ok.
  - apply checkVTOLLanding_ok.
  - apply checkFixedWingLanding_ok.
  - apply checkTakeoffLandAvailable_ok.
Qed.

(** C3, as stated: a failed read makes the sub-check fail and send a
    storage-failure event.  [checkTakeoff] on a mission whose item cannot
    be read fails and sends nothing; and a whole run of
    [checkMissionFeasible] with the distances unchecked, on a mission that
    starts with an unsupported command followed by an item that cannot be
    read, has failed reads and no storage-failure event at all. *)
Lemma read_failure_without_event :
  (existsb is_read_failure
     (trace_of (run_subcheck (Fixture.platform Fixture.unreadable None)
                  (Fixture.navigator false 1 0) Takeoff
                  (Fixture.mission_of Fixture.unreadable) F32.zero
                  Fixture.fresh)) = true
   /\ ~ (result_of (run_subcheck (Fixture.platform Fixture.unreadable None)
                      (Fixture.navigator false 1 0) Takeoff
                      (Fixture.mission_of Fixture.unreadable) F32.zero
                      Fixture.fresh) = false
         /\ existsb (is_send is_storage_failure)
              (trace_of (run_subcheck
                           (Fixture.platform Fixture.unreadable None)
                           (Fixture.navigator false 1 0) Takeoff
                           (Fixture.mission_of Fixture.unreadable) F32.zero
                           Fixture.fresh)) = true))
  /\ existsb is_read_failure
       (trace_of (checkMissionFeasible
                    (Fixture.platform Fixture.unsupported_then_unreadable None)
                    (Fixture.navigator false 1 0)
                    (Fixture.mission_of Fixture.unsupported_then_unreadable)
                    F32.zero F32.zero Fixture.fresh)) = true
  /\ existsb (is_send is_storage_failure)
       (trace_of (checkMissionFeasible
                    (Fixture.platform Fixture.unsupported_then_unreadable None)
                    (Fixture.navigator false 1 0)
                    (Fixture.mission_of Fixture.unsupported_then_unreadable)
                    F32.zero F32.zero Fixture.fresh)) = false.
Proof.
  repeat split; try reflexivity. intros [_ H]; discriminate H.
Qed.

(** C3, amended: in every sub-check a failed read makes the sub-check
    return failure; a storage-failure event is sent by the item-validity
    check and the two distance checks, and by no other sub-check. *)
Theorem read_failure_fails P nav c mission d s :
  existsb is_read_failure (trace_of (run_subcheck P nav c mission d s)) = true ->
  result_of (run_subcheck P nav c mission d s) = false
  /\ existsb (is_send is_storage_failure)
       (trace_of (run_subcheck P nav c mission d s))
     = reports_storage_failure c.
Proof.
  destruct (run_subcheck P nav c mission d s) as [[r s'] t] eqn:E.
  apply run_subcheck_ok in E. destruct E as (_ & Hp & _ & Hs & _).
  cbn. intros H. split; [|auto].
  destruct r; [|reflexivity]. destruct (Hp eq_refl) as [_ H']. congruence.
Qed.

Lemma read_failure_fails_witness :
  result_of (run_subcheck (Fixture.platform Fixture.unreadable None)
               (Fixture.navigator false 1 0) MissionItemValidity
               (Fixture.mission_of Fixture.unreadable) F32.zero
               Fixture.fresh) = false
  /\ existsb (is_send is_storage_failure)
       (trace_of (run_subcheck (Fixture.platform Fixture.unreadable None)
                    (Fixture.navigator false 1 0) MissionItemValidity
                    (Fixture.mission_of Fixture.unreadable) F32.zero
                    Fixture.fresh)) = true.
Proof. apply read_failure_fails. reflexivity. Defined.

(** ** The warning flag and the fatal events *)



(** ** The home-altitude check *)

Lemma readable_item P mission i :
  readable P mission = true -> (i < count mission)%nat ->
  exists item, dm_read P (dataman_id mission) i = Some item.
Proof.
  unfold readable. rewrite forallb_forall. intros H Hi.
  specialize (H i). rewrite in_seq in H. specialize (H ltac:(lia)).
  destruct (dm_read P (dataman_id mission) i); [eauto | discriminate].
Qed.

Lemma to_int16_small z : 0 <= z < 32768 -> to_int16 z = z.
Proof. intros H. unfold to_int16. rewrite Z.mod_small; lia. Qed.

Lemma checkHomePositionAltitude_valid_home P mission h s :
  readable P mission = true ->
  let '(f, s', t) :=
    for_loop (count mission) 0
      (checkHomePositionAltitude_body P mission h true) tt s in
  match f with
  | Continue _ =>
      forall i item, item_at P mission i item ->
        item_contains_position P item = true ->
        F32.gt h (alt_amsl h item) = true ->
        In (Send (navigator_mis_wp_below_home (to_int16 (Z.of_nat i + 1)))) t
        /\ warning s' = true
  | Return _ => False
  end.
Proof.
  intros Hr.
  set (I := fun (i : nat) (_ : unit) (s1 : checker) (t1 : list output) =>
              forall j item, (j < i)%nat ->
                dm_read P (dataman_id mission) j = Some item ->
                item_contains_position P item = true ->
                F32.gt h (alt_amsl h item) = true ->
                In (Send (navigator_mis_wp_below_home
                            (to_int16 (Z.of_nat j + 1)))) t1
                /\ warning s1 = true).
  assert (Hbody : forall i l s1 t1, (i < count mission)%nat -> I i l s1 t1 ->
            let '(f, s', t') :=
              checkHomePositionAltitude_body P mission h true i l s1 in
            match f with
            | Continue l' => I (S i) l' s' (t1 ++ t')
            | Return _ => False
            end).
  { intros i l s1 t1 Hi HI.
    destruct (readable_item P mission i Hr Hi) as [item Hitem].
    unfold checkHomePositionAltitude_body. unfold_m. rewrite Hitem.
    rewrite andb_false_r. cbn [andb negb].
    destruct (F32.gt h (alt_amsl h item)) eqn:Hgt;
      destruct (item_contains_position P item) eqn:Hpos; cbn;
      intros j item' Hj Hj1 Hj2 Hj3;
      (assert (Hc : (j < i)%nat \/ j = i) by lia);
      (destruct Hc as [Hc| ->];
       [ destruct (HI j item' Hc Hj1 Hj2 Hj3) as [Hin Hw];
         split; [apply in_or_app; now left | auto]
       | rewrite Hitem in Hj1; injection Hj1 as <-; try congruence;
         (split; [apply in_or_app; right; now left | reflexivity]) ]). }
  pose proof (for_loop_inv _ _ I (fun _ _ _ => False) Hbody
                (count mission) 0%nat tt s [] eq_refl
                ltac:(intros j ? Hj; lia)) as H.
  destruct (for_loop _ _ _ _ _) as [[[?|?] ?] ?]; [|exact H].
  intros i item [Hi Hitem]. now apply H.
Qed.

(** A mission whose last item alone has a position, and is below home. *)
Lemma checkHomePositionAltitude_last_low P mission h s k item :
  count mission = S k ->
  (forall j, (j < k)%nat ->
     exists it, dm_read P (dataman_id mission) j = Some it
                /\ item_contains_position P it = false) ->
  dm_read P (dataman_id mission) k = Some item ->
  item_contains_position P item = true ->
  F32.gt h (alt_amsl h item) = true ->
  checkHomePositionAltitude P mission h true s
  = (true,
     {| warning := true; _has_takeoff := _has_takeoff s;
        _has_landing := _has_landing s |},
     [Send (navigator_mis_wp_below_home (to_int16 (Z.of_nat k + 1)))]).
Proof.
  intros Hc Hbefore Hitem Hpos Hlow.
  set (s' := {| warning := true; _has_takeoff := _has_takeoff s;
                _has_landing := _has_landing s |}).
  set (ev := Send (navigator_mis_wp_below_home (to_int16 (Z.of_nat k + 1)))).
  set (I := fun (i : nat) (_ : unit) (s1 : checker) (t1 : list output) =>
              ((i <= k)%nat /\ s1 = s /\ t1 = [])
              \/ (i = S k /\ s1 = s' /\ t1 = [ev])).
  assert (Hbody : forall i l s1 t1, (i < count mission)%nat -> I i l s1 t1 ->
            let '(f, s2, t') :=
              checkHomePositionAltitude_body P mission h true i l s1 in
            match f with
            | Continue l' => I (S i) l' s2 (t1 ++ t')
            | Return _ => False
            end).
  { intros i l s1 t1 Hi [(Hik & -> & ->)|(Hik & _)]; [|lia].
    unfold checkHomePositionAltitude_body. unfold_m.
    assert (Hcase : (i < k)%nat \/ i = k) by lia.
    destruct Hcase as [Hlt| ->].
    - destruct (Hbefore i Hlt) as (it & -> & Hno). rewrite Hno.
      rewrite !andb_false_r. cbn. left. repeat split. lia.
    - rewrite Hitem, Hpos, Hlow. rewrite andb_false_r. cbn.
      right. repeat split. }
  pose proof (for_loop_inv _ _ I (fun _ _ _ => False) Hbody
                (count mission) 0%nat tt s [] eq_refl
                ltac:(left; repeat split; lia)) as H.
  unfold checkHomePositionAltitude, bind.
  destruct (for_loop _ _ _ _ _) as [[[?|?] s1] t1]; [|contradiction].
  cbn [app] in H. destruct H as [(Hle & _)|(_ & -> & ->)]; [lia|].
  reflexivity.
Qed.

Lemma long_mission_readable k :
  readable (Fixture.long_storage k) (Fixture.long_mission k) = true.
Proof. unfold readable. apply forallb_forall. intros i _. reflexivity. Qed.

Lemma long_mission_last k :
  item_at (Fixture.long_storage k) (Fixture.long_mission k) k
    (Fixture.item NAV_CMD_WAYPOINT 100 0 (-5) 2).
Proof.
  split; [apply Nat.lt_succ_diag_r|].
  unfold Fixture.long_storage, dm_read. now rewrite Nat.ltb_irrefl.
Qed.

Lemma long_mission_trace k :
  trace_of (checkHomePositionAltitude (Fixture.long_storage k)
              (Fixture.long_mission k) (F32.of_int 488) true Fixture.fresh)
  = [Send (navigator_mis_wp_below_home (to_int16 (Z.of_nat k + 1)))].
Proof.
  rewrite (checkHomePositionAltitude_last_low (Fixture.long_storage k)
             (Fixture.long_mission k) (F32.of_int 488) Fixture.fresh k
             (Fixture.item NAV_CMD_WAYPOINT 100 0 (-5) 2)).
  - reflexivity.
  - reflexivity.
  - intros j Hj. exists (Fixture.item NAV_CMD_IDLE 0 0 0 0).
    unfold Fixture.long_storage, dm_read.
    apply Nat.ltb_lt in Hj. rewrite Hj. split; reflexivity.
  - apply long_mission_last.
  - reflexivity.
  - reflexivity.
Qed.

Lemma long_mission_no_event k :
  Z.of_nat k + 1 = 32768 ->
  ~ In (Send (navigator_mis_wp_below_home (Z.of_nat k + 1)))
       (trace_of (checkHomePositionAltitude (Fixture.long_storage k)
                    (Fixture.long_mission k) (F32.of_int 488) true
                    Fixture.fresh)).
Proof.
  intros Hk. rewrite long_mission_trace, Hk. intros [H|[]]. discriminate H.
Qed.

Lemma long_mission_low k :
  item_contains_position (Fixture.long_storage k)
    (Fixture.item NAV_CMD_WAYPOINT 100 0 (-5) 2) = true
  /\ F32.gt (F32.of_int 488)
        (if altitude_is_relative (Fixture.item NAV_CMD_WAYPOINT 100 0 (-5) 2)
         then F32.add (altitude (Fixture.item NAV_CMD_WAYPOINT 100 0 (-5) 2))
                      (F32.of_int 488)
         else altitude (Fixture.item NAV_CMD_WAYPOINT 100 0 (-5) 2)) = true.
Proof. split; reflexivity. Qed.

(** C7, as stated: the event carries the one-based index.  Its argument
    is a 16-bit signed integer: for the item at index 32767 the event
    carries -32768 and no event carries 32768. *)
Lemma below_home_index_wraps :
  ~ (forall P mission h s i item,
       readable P mission = true ->
       item_at P mission i item ->
       item_contains_position P item = true ->
       F32.gt h (if altitude_is_relative item
                 then F32.add (altitude item) h else altitude item) = true ->
       In (Send (navigator_mis_wp_below_home (Z.of_nat i + 1)))
          (trace_of (checkHomePositionAltitude P mission h true s))).
Proof.
  intros H.
  apply (long_mission_no_event (Z.to_nat 32767)).
  - rewrite Z2Nat.id by lia. reflexivity.
  - apply (H (Fixture.long_storage (Z.to_nat 32767))
             (Fixture.long_mission (Z.to_nat 32767)) (F32.of_int 488)
             Fixture.fresh (Z.to_nat 32767)
             (Fixture.item NAV_CMD_WAYPOINT 100 0 (-5) 2)).
    + apply long_mission_readable.
    + apply long_mission_last.
    + exact (proj1 (long_mission_low _)).
    + exact (proj2 (long_mission_low 0)).
Qed.

(** C7, amended: with a valid home altitude and a mission that can be
    read, the home-altitude check passes; for every positional item at
    index [i] whose altitude above mean sea level (the stored altitude, plus
    the home altitude if it is relative) is below the home altitude it sends
    the below-home event and the warning flag is set.  The argument of the
    event is [i + 1] as a 16-bit signed integer, which is [i + 1] below
    32768.  No other event is non-fatal: a sub-check that passes, and a run
    of [checkMissionFeasible] that returns [true], has sent no event other
    than the below-home warning. *)
Theorem waypoint_below_home_is_a_warning P nav mission d1 d2 h s :
  (readable P mission = true ->
   result_of (checkHomePositionAltitude P mission h true s) = true
   /\ forall i item, item_at P mission i item ->
        item_contains_position P item = true ->
        F32.gt h (if altitude_is_relative item
                  then F32.add (altitude item) h else altitude item) = true ->
        In (Send (navigator_mis_wp_below_home
                    ((Z.of_nat i + 1 + 32768) mod 65536 - 32768)))
           (trace_of (checkHomePositionAltitude P mission h true s))
        /\ (Z.of_nat i + 1 < 32768 ->
            In (Send (navigator_mis_wp_below_home (Z.of_nat i + 1)))
               (trace_of (checkHomePositionAltitude P mission h true s)))
        /\ warning (state_of (checkHomePositionAltitude P mission h true s))
           = true)
  /\ (forall c,
        result_of (run_subcheck P nav c mission d1 s) = true ->
        existsb is_fatal (trace_of (run_subcheck P nav c mission d1 s)) = false)
  /\ (result_of (checkMissionFeasible P nav mission d1 d2 s) = true ->
      existsb is_fatal (trace_of (checkMissionFeasible P nav mission d1 d2 s))
      = false).
Proof.
  split; [|split].
  - intros Hr.
    pose proof (checkHomePositionAltitude_valid_home P mission h s Hr) as H.
    unfold checkHomePositionAltitude, bind.
    destruct (for_loop _ _ _ _ _) as [[[?|?] s1] t1]; [|contradiction].
    cbn. split; [reflexivity|]. intros i item Hi Hp Hg.
    rewrite app_nil_r. destruct (H i item Hi Hp Hg) as [Hin Hw].
    split; [exact Hin|]. split; [|exact Hw].
    intros Hb. rewrite <- (to_int16_small (Z.of_nat i + 1)) by lia.
    exact Hin.
  - intros c Hres.
    destruct (run_subcheck P nav c mission d1 s) as [[r s'] t] eqn:E.
    apply run_subcheck_ok in E. destruct E as (_ & Hp & _).
    cbn in *. now apply Hp.
  - intros Hres.
    destruct (checkMissionFeasible P nav mission d1 d2 s) as [[r s'] t] eqn:E.
    apply checkMissionFeasible_ok in E. destruct E as (Hp & _).
    cbn in *. now apply Hp.
Qed.

Lemma waypoint_below_home_is_a_warning_witness :
  result_of (checkHomePositionAltitude
               (Fixture.platform Fixture.low_waypoint None)
               (Fixture.mission_of Fixture.low_waypoint)
               (F32.of_int 488) true Fixture.fresh) = true
  /\ In (Send (navigator_mis_wp_below_home 2))
        (trace_of (checkHomePositionAltitude
                     (Fixture.platform Fixture.low_waypoint None)
                     (Fixture.mission_of Fixture.low_waypoint)
                     (F32.of_int 488) true Fixture.fresh))
  /\ warning
       (state_of (checkHomePositionAltitude
                    (Fixture.platform Fixture.low_waypoint None)
                    (Fixture.mission_of Fixture.low_waypoint)
                    (F32.of_int 488) true Fixture.fresh)) = true.
Proof.
  destruct (proj1 (waypoint_below_home_is_a_warning
                     (Fixture.platform Fixture.low_waypoint None)
                     (Fixture.navigator false 1 0)
                     (Fixture.mission_of Fixture.low_waypoint)
                     (F32.of_int 900) (F32.of_int 900) (F32.of_int 488)
                     Fixture.fresh) eq_refl) as [H1 H2].
  split; [exact H1|].
  destruct (H2 1%nat (Fixture.item NAV_CMD_WAYPOINT 100 0 (-5) 2)
              (conj (le_n 2) eq_refl) eq_refl eq_refl) as (_ & Hin & Hw).
  split; [apply Hin; lia | exact Hw].
Defined.

(** ** The minimum takeoff altitude *)

Lemma first_low_takeoff_unique P nav mission h i a j b :
  first_low_takeoff P nav mission h i a ->
  first_low_takeoff P nav mission h j b -> i = j /\ a = b.
Proof.
  intros ([Hi Ha] & Ta & La & Ra) ([Hj Hb] & Tb & Lb & Rb).
  assert (i = j).
  { destruct (Nat.lt_trichotomy i j) as [H|[H|H]]; [|assumption|].
    - destruct (Rb i H) as (it & E & F). rewrite Ha in E.
      injection E as <-. rewrite Ta, La in F. discriminate.
    - destruct (Ra j H) as (it & E & F). rewrite Hb in E.
      injection E as <-. rewrite Tb, Lb in F. discriminate. }
  subst j. split; [reflexivity | congruence].
Qed.

Lemma reaches_no_low P nav mission h i k item :
  reaches P nav mission h i -> (k < i)%nat ->
  first_low_takeoff P nav mission h k item -> False.
Proof.
  intros R Hk ([_ Ha] & Ta & La & _).
  destruct (R k Hk) as (it & E & F). rewrite Ha in E. injection E as <-.
  rewrite Ta, La in F. discriminate.
Qed.

Lemma unread_no_low P nav mission h i k item :
  reaches P nav mission h i -> dm_read P (dataman_id mission) i = None ->
  first_low_takeoff P nav mission h k item -> False.
Proof.
  intros R Hn F. destruct (Nat.lt_trichotomy k i) as [H|[H|H]].
  - eapply reaches_no_low; eauto.
  - subst k. destruct F as ([_ Ha] & _). congruence.
  - destruct F as (_ & _ & _ & Rk). destruct (Rk i H) as (it & E & _).
    congruence.
Qed.

Lemma checkTakeoff_loop P nav mission h s :
  let '(f, s', t) :=
    for_loop (count mission) 0 (checkTakeoff_body P nav mission h) (false, -1) s in
  match f with
  | Continue _ => t = [] /\ reaches P nav mission h (count mission)
  | Return b => takeoff_loop_post P nav mission h b t
  end.
Proof.
  set (I := fun (i : nat) (_ : bool * Z) (_ : checker) (t1 : list output) =>
              t1 = [] /\ reaches P nav mission h i).
  assert (Hbody : forall i l s1 t1, (i < count mission)%nat -> I i l s1 t1 ->
            let '(f, s', t') := checkTakeoff_body P nav mission h i l s1 in
            match f with
            | Continue l' => I (S i) l' s' (t1 ++ t')
            | Return b => takeoff_loop_post P nav mission h b (t1 ++ t')
            end).
  { intros i [tf ti] s1 t1 Hi [-> R].
    unfold checkTakeoff_body. unfold_m.
    destruct (dm_read P (dataman_id mission) i) as [item|] eqn:Hitem.
    - destruct (is_takeoff_cmd (nav_cmd_of item)) eqn:Ht;
        [destruct (takeoff_too_low P nav h item) eqn:Hl|].
      + cbn. left. exists i, item. repeat split; auto.
      + assert (R' : reaches P nav mission h (S i)).
        { intros j Hj. assert (Hc : (j < i)%nat \/ j = i) by lia.
          destruct Hc as [Hc| ->]; [auto|].
          exists item. now rewrite Ht, Hl. }
        repeat case_split; cbn; split; auto.
      + assert (R' : reaches P nav mission h (S i)).
        { intros j Hj. assert (Hc : (j < i)%nat \/ j = i) by lia.
          destruct Hc as [Hc| ->]; [auto|].
          exists item. now rewrite Ht. }
        cbn; split; auto.
    - cbn. right. exists i. auto. }
  assert (R0 : reaches P nav mission h 0) by (intros j Hj; lia).
  pose proof (for_loop_inv _ _ I
                (fun b _ t1 => takeoff_loop_post P nav mission h b t1) Hbody
                (count mission) 0%nat (false, -1) s [] eq_refl
                (conj eq_refl R0)) as H.
  destruct (for_loop _ _ _ _ _) as [[[?|?] ?] ?]; exact H.
Qed.

Lemma checkTakeoff_scan_no_low P mission n tf s :
  existsb (is_send is_takeoff_too_low)
    (trace_of (for_loop n 0 (checkTakeoff_scan_body P mission) tf s)) = false.
Proof.
  pose proof (for_loop_inv (checkTakeoff_scan_body P mission) n
                (fun _ _ _ t1 => existsb (is_send is_takeoff_too_low) t1 = false)
                (fun _ _ t1 => existsb (is_send is_takeoff_too_low) t1 = false))
    as H.
  assert (Hbody : forall i l s1 t1, (i < n)%nat ->
            existsb (is_send is_takeoff_too_low) t1 = false ->
            let '(f, s', t') := checkTakeoff_scan_body P mission i l s1 in
            match f with
            | Continue l' => existsb (is_send is_takeoff_too_low) (t1 ++ t') = false
            | Return b => existsb (is_send is_takeoff_too_low) (t1 ++ t') = false
            end).
  { intros i l s1 t1 _ Ht. unfold checkTakeoff_scan_body. unfold_m.
    case_split; cbn; rewrite existsb_app, Ht; reflexivity. }
  specialize (H Hbody n 0%nat tf s [] eq_refl eq_refl).
  destruct (for_loop _ _ _ _ _) as [[[?|?] ?] ?]; exact H.
Qed.

Lemma is_takeoff_item_iff item :
  is_takeoff_cmd (nav_cmd_of item) = true <-> is_takeoff_item item.
Proof.
  unfold is_takeoff_cmd, is_takeoff_item.
  rewrite orb_true_iff, !cmd_eqb_eq. reflexivity.
Qed.

(** The rule of the specification is the test of the code. *)
Lemma below_minimum_takeoff_alt_eq P nav h item :
  below_minimum_takeoff_alt P nav h item = takeoff_too_low P nav h item.
Proof. reflexivity. Qed.

Lemma rule_acceptance_radius_eq P nav item :
  rule_acceptance_radius P nav item = takeoff_acceptance_radius P nav item.
Proof. reflexivity. Qed.

Lemma first_takeoff_below_minimum_iff P nav mission h i item :
  first_takeoff_below_minimum P nav mission h i item
  <-> first_low_takeoff P nav mission h i item.
Proof.
  unfold first_takeoff_below_minimum, first_low_takeoff, reaches.
  rewrite <- is_takeoff_item_iff, below_minimum_takeoff_alt_eq.
  split; intros (Hi & Ht & Hl & Hb);
    (split; [exact Hi|]); (split; [exact Ht|]); (split; [exact Hl|]);
    intros j Hj; destruct (Hb j Hj) as (it & Hit & Hok); exists it;
    (split; [exact Hit|]).
  - destruct (is_takeoff_cmd (nav_cmd_of it)) eqn:E; [|reflexivity].
    apply is_takeoff_item_iff in E. cbn [andb].
    rewrite <- below_minimum_takeoff_alt_eq. now apply Hok.
  - intros E. apply is_takeoff_item_iff in E. rewrite E in Hok.
    rewrite below_minimum_takeoff_alt_eq. exact Hok.
Qed.

Lemma checkTakeoff_body_return P nav mission h i l s b s' t :
  checkTakeoff_body P nav mission h i l s = (Return b, s', t) -> b = false.
Proof.
  unfold checkTakeoff_body. split_pairs. unfold_m.
  repeat case_split; intros E; inversion E; reflexivity.
Qed.

(** The too-low event of [checkTakeoff], in the quantities of the code. *)
Lemma checkTakeoff_too_low_event P nav mission h s :
  (forall i item l s1,
     dm_read P (dataman_id mission) i = Some item ->
     is_takeoff_cmd (nav_cmd_of item) = true ->
     (checkTakeoff_body P nav mission h i l s1
      = (Return false, s1,
         [Send (navigator_mis_takeoff_too_low
                  (F32.add (takeoff_acceptance_radius P nav item) F32.one))])
      <-> F32.lt (F32.sub (takeoff_alt h item) F32.one)
                 (takeoff_acceptance_radius P nav item) = true))
  /\ (existsb (is_send is_takeoff_too_low)
        (trace_of (checkTakeoff P nav mission h s)) = true
      <-> exists i item, first_low_takeoff P nav mission h i item)
  /\ (forall i item, first_low_takeoff P nav mission h i item ->
        result_of (checkTakeoff P nav mission h s) = false
        /\ trace_of (checkTakeoff P nav mission h s)
           = [Send (navigator_mis_takeoff_too_low
                      (F32.add (takeoff_acceptance_radius P nav item) F32.one))]).
Proof.
  split; [|].
  - intros i item [tf ti] s1 Hitem Ht.
    unfold checkTakeoff_body. unfold_m. rewrite Hitem, Ht.
    fold (takeoff_too_low P nav h item).
    destruct (takeoff_too_low P nav h item); cbn.
    + split; auto.
    + split; [|discriminate]. repeat case_split; discriminate.
  - pose proof (checkTakeoff_loop P nav mission h s) as H.
    destruct (checkTakeoff P nav mission h s) as [[r s'] t] eqn:E.
    cbn [result_of trace_of fst snd].
    unfold checkTakeoff in E. unfold bind at 1 in E.
    destruct (for_loop _ _ _ _ _) as [[[[tf ti]|b] s1] t1].
    + destruct H as [-> R].
      assert (Hno : forall k item, ~ first_low_takeoff P nav mission h k item).
      { intros k item F. eapply reaches_no_low; eauto. now destruct F as [[? _] _]. }
      assert (Hlow : existsb (is_send is_takeoff_too_low) t = false).
      { revert E. unfold_m. case_split.
        - pose proof (checkTakeoff_scan_no_low P mission (Z.to_nat ti) tf s1) as Hs.
          destruct (for_loop _ _ _ _ _) as [[[?|?] ?] ?]; cbn in Hs;
            repeat case_split; cbn; intros [= <- <- <-];
            rewrite existsb_app, Hs; reflexivity.
        - repeat case_split; cbn; intros [= <- <- <-]; reflexivity. }
      rewrite Hlow. split.
      * split; [discriminate|]. intros (k & item & F). now apply Hno in F.
      * intros k item F. now apply Hno in F.
    + cbn in E. rewrite app_nil_r in E. injection E as <- <- <-.
      destruct H as [(k & item & F & -> & ->)|(k & R & Hn & ->)].
      * split; [split; eauto|].
        intros i item' F'.
        destruct (first_low_takeoff_unique _ _ _ _ _ _ _ _ F F') as [-> ->]. auto.
      * split; [split; [discriminate|]|].
        -- intros (i & item & F). exfalso. eapply unread_no_low; eauto.
        -- intros i item F. exfalso. eapply unread_no_low; eauto.
Qed.

(** A takeoff item that is too low and can be read makes the check fail,
    wherever it is in the mission. *)
Lemma checkTakeoff_low_item_fails P nav mission h s i item :
  item_at P mission i item ->
  is_takeoff_cmd (nav_cmd_of item) = true ->
  takeoff_too_low P nav h item = true ->
  result_of (checkTakeoff P nav mission h s) = false.
Proof.
  intros [Hi Hitem] Ht Hl.
  pose proof (checkTakeoff_loop P nav mission h s) as H.
  unfold checkTakeoff. unfold bind at 1.
  destruct (for_loop _ _ _ _ _) as [[[[tf ti]|b] s1] t1] eqn:E.
  - destruct H as [_ R]. destruct (R i Hi) as (it & Hit & Hok).
    rewrite Hitem in Hit. injection Hit as <-.
    rewrite Ht, Hl in Hok. discriminate.
  - cbn. destruct b; [|reflexivity]. exfalso.
    destruct H as [(k & it & _ & Hb & _)|(k & R & Hn & ->)];
      [discriminate|].
    assert (Hret : forall n j l s0 b' s' t',
              for_loop n j (checkTakeoff_body P nav mission h) l s0
              = (Return b', s', t') -> b' = false).
    { induction n as [|n IH]; intros j l s0 b' s' t'; [discriminate|].
      cbn [for_loop]. unfold bind.
      destruct (checkTakeoff_body P nav mission h j l s0)
        as [[[l1|b1] s2] t2] eqn:Eb.
      - destruct (for_loop n (S j) _ l1 s2) as [[f3 s3] t3] eqn:E3.
        intros [= -> <- <-]. exact (IH _ _ _ _ _ _ E3).
      - cbn. intros [= <- <- <-].
        exact (checkTakeoff_body_return _ _ _ _ _ _ _ _ _ _ Eb). }
    specialize (Hret _ _ _ _ _ _ _ E). discriminate.
Qed.

(** C6, as stated: for every takeoff item the sub-check fails with the
    too-low event of that item exactly when the item is below the minimum.
    A second takeoff item below the minimum gets no event: the loop has
    left the function at the first one. *)
Lemma second_low_takeoff_gets_no_event :
  ~ (forall P nav mission h s i item,
       item_at P mission i item -> is_takeoff_item item ->
       (result_of (checkTakeoff P nav mission h s) = false
        /\ In (Send (navigator_mis_takeoff_too_low
                       (F32.add (rule_acceptance_radius P nav item) F32.one)))
              (trace_of (checkTakeoff P nav mission h s))
        <-> below_minimum_takeoff_alt P nav h item = true)).
Proof.
  intros H.
  specialize (H (Fixture.platform Fixture.two_low_takeoffs None)
                (Fixture.navigator false 1 0)
                (Fixture.mission_of Fixture.two_low_takeoffs)
                (F32.of_int 488) Fixture.fresh 1%nat
                (Fixture.item NAV_CMD_TAKEOFF 0 0 10 20)
                (conj (le_n 2) eq_refl) (or_introl eq_refl)).
  destruct H as [_ H]. destruct (H eq_refl) as [_ Hin].
  vm_compute in Hin. destruct Hin as [Hin|[]]. discriminate Hin.
Qed.

(** C6, amended: at a takeoff item ([TAKEOFF] or [VTOL_TAKEOFF]) the loop
    of [checkTakeoff] leaves the function with failure and the too-low
    event, whose argument is the acceptance radius plus one, exactly when
    the takeoff altitude above home (the stored altitude if relative, the
    stored altitude minus the home altitude otherwise) minus 1 m is below
    the acceptance radius (the item's when it exceeds
    [NAV_EPSILON_POSITION], the default otherwise).  The sub-check fails
    whenever a takeoff item that can be read is below that minimum.  It
    sends a too-low event exactly when the mission has a first takeoff item
    below the minimum with every item before it readable, and then that
    event, with the radius of that first item, is its only output. *)
Theorem takeoff_altitude_rule P nav mission h s :
  (forall i item l s1,
     dm_read P (dataman_id mission) i = Some item ->
     is_takeoff_item item ->
     (checkTakeoff_body P nav mission h i l s1
      = (Return false, s1,
         [Send (navigator_mis_takeoff_too_low
                  (F32.add (rule_acceptance_radius P nav item) F32.one))])
      <-> below_minimum_takeoff_alt P nav h item = true))
  /\ (forall i item,
        item_at P mission i item -> is_takeoff_item item ->
        below_minimum_takeoff_alt P nav h item = true ->
        result_of (checkTakeoff P nav mission h s) = false)
  /\ (existsb (is_send is_takeoff_too_low)
        (trace_of (checkTakeoff P nav mission h s)) = true
      <-> exists i item, first_takeoff_below_minimum P nav mission h i item)
  /\ (forall i item, first_takeoff_below_minimum P nav mission h i item ->
        result_of (checkTakeoff P nav mission h s) = false
        /\ trace_of (checkTakeoff P nav mission h s)
           = [Send (navigator_mis_takeoff_too_low
                      (F32.add (rule_acceptance_radius P nav item) F32.one))]).
Proof.
  destruct (checkTakeoff_too_low_event P nav mission h s) as (H1 & H2 & H3).
  split; [|split; [|split]].
  - intros i item l s1 Hitem Ht. apply is_takeoff_item_iff in Ht.
    rewrite below_minimum_takeoff_alt_eq, rule_acceptance_radius_eq.
    exact (H1 i item l s1 Hitem Ht).
  - intros i item Hi Ht Hl. apply is_takeoff_item_iff in Ht.
    rewrite below_minimum_takeoff_alt_eq in Hl.
    exact (checkTakeoff_low_item_fails P nav mission h s i item Hi Ht Hl).
  - rewrite H2. split; intros (i & item & F); exists i, item;
      now apply first_takeoff_below_minimum_iff.
  - intros i item F. apply first_takeoff_below_minimum_iff in F.
    rewrite rule_acceptance_radius_eq. exact (H3 i item F).
Qed.

Lemma takeoff_altitude_rule_witness :
  result_of (checkTakeoff (Fixture.platform Fixture.low_absolute_takeoff None)
               (Fixture.navigator false 1 3)
               (Fixture.mission_of Fixture.low_absolute_takeoff)
               (F32.of_int 488) Fixture.fresh) = false
  /\ trace_of (checkTakeoff
                 (Fixture.platform Fixture.low_absolute_takeoff None)
                 (Fixture.navigator false 1 3)
                 (Fixture.mission_of Fixture.low_absolute_takeoff)
                 (F32.of_int 488) Fixture.fresh)
     = [Send (navigator_mis_takeoff_too_low (F32.of_int 3))].
Proof.
  apply (proj2 (proj2 (proj2 (takeoff_altitude_rule
                                (Fixture.platform
                                   Fixture.low_absolute_takeoff None)
                                (Fixture.navigator false 1 3)
                                (Fixture.mission_of
                                   Fixture.low_absolute_takeoff)
                                (F32.of_int 488) Fixture.fresh)))
           0%nat Fixture.absolute_takeoff).
  split; [split; [cbn; lia | reflexivity]|].
  split; [left; reflexivity|].
  split; [reflexivity|].
  intros j Hj; lia.
Defined.

(** ** The derived landing flag *)

Lemma for_loop_frame {L} (body : nat -> L -> M (flow L)) :
  (forall i l s, _has_landing (state_of (body i l s)) = _has_landing s) ->
  forall n i l s, _has_landing (state_of (for_loop n i body l s)) = _has_landing s.
Proof.
  intros Hb n. induction n as [|n IH]; intros i l s; [reflexivity|].
  cbn [for_loop]. unfold bind. specialize (Hb i l s).
  destruct (body i l s) as [[[l1|b] s1] t1]; cbn in Hb.
  - specialize (IH (S i) l1 s1).
    destruct (for_loop n (S i) body l1 s1) as [[f2 s2] t2]. cbn in *. congruence.
  - cbn. exact Hb.
Qed.

Ltac frame_body := unfold_m; repeat case_split; reflexivity.

Ltac frame_loop lem :=
  match goal with
  | |- context [for_loop ?n ?i ?body ?l ?s] =>
      let H := fresh "Hframe" in
      pose proof (for_loop_frame body lem n i l s) as H;
      destruct (for_loop n i body l s) as [[[?|?] ?] ?]; cbn in H
  end.

Section Frame.
Variable P : Platform.
Variable nav : Navigator.

Lemma checkMissionItemValidity_body_frame mission i l s :
  _has_landing (state_of (checkMissionItemValidity_body P nav mission i l s))
  = _has_landing s.
Proof. unfold checkMissionItemValidity_body. frame_body. Qed.

Lemma checkDistancesBetweenWaypoints_body_frame mission d i l s :
  _has_landing
    (state_of (checkDistancesBetweenWaypoints_body P mission d i l s))
  = _has_landing s.
Proof. unfold checkDistancesBetweenWaypoints_body. frame_body. Qed.

Lemma checkGeofence_body_frame mission h hv i l s :
  _has_landing (state_of (checkGeofence_body P nav mission h hv i l s))
  = _has_landing s.
Proof. unfold checkGeofence_body. frame_body. Qed.

Lemma checkHomePositionAltitude_body_frame mission h hv i l s :
  _has_landing (state_of (checkHomePositionAltitude_body P mission h hv i l s))
  = _has_landing s.
Proof. unfold checkHomePositionAltitude_body. frame_body. Qed.

Lemma checkTakeoff_body_frame mission h i l s :
  _has_landing (state_of (checkTakeoff_body P nav mission h i l s))
  = _has_landing s.
Proof. unfold checkTakeoff_body. destruct l. frame_body. Qed.

Lemma checkTakeoff_scan_body_frame mission i l s :
  _has_landing (state_of (checkTakeoff_scan_body P mission i l s))
  = _has_landing s.
Proof. unfold checkTakeoff_scan_body. frame_body. Qed.

Lemma checkMissionItemValidity_frame mission s :
  _has_landing (state_of (checkMissionItemValidity P nav mission s))
  = _has_landing s.
Proof.
  unfold checkMissionItemValidity, bind.
  frame_loop (checkMissionItemValidity_body_frame mission); exact Hframe.
Qed.

Lemma checkDistancesBetweenWaypoints_frame mission d s :
  _has_landing (state_of (checkDistancesBetweenWaypoints P mission d s))
  = _has_landing s.
Proof.
  unfold checkDistancesBetweenWaypoints. unfold_m. case_split; [reflexivity|].
  frame_loop (checkDistancesBetweenWaypoints_body_frame mission d);
    exact Hframe.
Qed.

Lemma checkGeofence_frame mission h hv s :
  _has_landing (state_of (checkGeofence P nav mission h hv s))
  = _has_landing s.
Proof.
  unfold checkGeofence. unfold_m. repeat case_split; try reflexivity.
  frame_loop (checkGeofence_body_frame mission h hv); exact Hframe.
Qed.

Lemma checkHomePositionAltitude_frame mission h hv s :
  _has_landing (state_of (checkHomePositionAltitude P mission h hv s))
  = _has_landing s.
Proof.
  unfold checkHomePositionAltitude, bind.
  frame_loop (checkHomePositionAltitude_body_frame mission h hv);
    exact Hframe.
Qed.

Lemma checkTakeoff_frame mission h s :
  _has_landing (state_of (checkTakeoff P nav mission h s)) = _has_landing s.
Proof.
  unfold checkTakeoff. unfold_m.
  frame_loop (checkTakeoff_body_frame mission h); [|exact Hframe].
  split_pairs. case_split.
  - frame_loop (checkTakeoff_scan_body_frame mission);
      repeat case_split; cbn in *; congruence.
  - repeat case_split; cbn in *; congruence.
Qed.

Lemma checkTakeoffLandAvailable_frame s :
  _has_landing (state_of (checkTakeoffLandAvailable nav s)) = _has_landing s.
Proof.
  unfold checkTakeoffLandAvailable. unfold_m.
  destruct (takeoff_land_required nav) as [|p|p];
    repeat match goal with
           | |- context [match ?q with xI _ => _ | xO _ => _ | xH => _ end] =>
               destruct q
           end;
    repeat case_split; reflexivity.
Qed.
End Frame.

Section Landing.
Variable P : Platform.
Variable nav : Navigator.
Variable mission : mission_s.
Hypothesis Hr : readable P mission = true.

Lemma landing_continue cmds i item s1 s' :
  dm_read P (dataman_id mission) i = Some item ->
  landing_inv P mission cmds i s1 ->
  _has_landing s' = _has_landing s1 || is_one_of (nav_cmd_of item) cmds ->
  landing_inv P mission cmds (S i) s'.
Proof.
  intros Hitem HI E. unfold landing_inv in *. rewrite E, orb_true_iff. split.
  - intros [H|H].
    + apply HI in H. destruct H as (j & it & Hj & H1 & H2).
      exists j, it. repeat split; auto.
    + exists i, item. repeat split; auto.
  - intros (j & it & Hj & H1 & H2).
    assert (Hc : (j < i)%nat \/ j = i) by lia. destruct Hc as [Hc| ->].
    + left. apply HI. eauto.
    + right. congruence.
Qed.

Lemma landing_return cmds i item s1 s' :
  (i < count mission)%nat ->
  dm_read P (dataman_id mission) i = Some item ->
  landing_inv P mission cmds i s1 ->
  _has_landing s' = _has_landing s1 || is_one_of (nav_cmd_of item) cmds ->
  _has_landing s' = true ->
  landing_exit P mission cmds s'.
Proof.
  intros Hi Hitem HI E Ht. split; [exact Ht|].
  rewrite Ht in E. symmetry in E. apply orb_true_iff in E.
  destruct E as [H|H].
  - apply HI in H. destruct H as (j & it & Hj & H1 & H2).
    exists j, it. repeat split; auto. lia.
  - exists i, item. repeat split; auto.
Qed.

Ltac landing_side :=
  cbn [_has_landing is_one_of existsb];
  repeat match goal with
         | H : (?a ==c ?b) = _ |- context [?a ==c ?b] => rewrite H
         | H : _has_landing ?s = _ |- context [_has_landing ?s] => rewrite H
         end;
  reflexivity.

Ltac landing_leaf Hi Hitem HI :=
  cbv beta iota zeta;
  first [ discriminate
        | match goal with
          | HL : _has_landing ?s = _, H : _has_landing ?s && _ = _ |- _ =>
              rewrite HL in H; discriminate H
          end
        | eapply landing_continue; [exact Hitem | exact HI | landing_side]
        | eapply landing_return;
          [exact Hi | exact Hitem | exact HI | landing_side | landing_side] ].

Lemma checkVTOLLanding_body_landing i l s1 :
  (i < count mission)%nat ->
  landing_inv P mission
    [NAV_CMD_DO_LAND_START; NAV_CMD_LAND; NAV_CMD_VTOL_LAND] i s1 ->
  let '(f, s', _) := checkVTOLLanding_body P mission i l s1 in
  match f with
  | Continue _ =>
      landing_inv P mission
        [NAV_CMD_DO_LAND_START; NAV_CMD_LAND; NAV_CMD_VTOL_LAND] (S i) s'
  | Return _ =>
      landing_exit P mission
        [NAV_CMD_DO_LAND_START; NAV_CMD_LAND; NAV_CMD_VTOL_LAND] s'
  end.
Proof.
  intros Hi HI.
  destruct (readable_item P mission i Hr Hi) as [item Hitem].
  destruct (readable_item P mission (i - 1)%nat Hr ltac:(lia))
    as [prev Hprev].
  unfold checkVTOLLanding_body. unfold_m. rewrite Hitem, ?Hprev.
  destruct (nav_cmd_of item ==c NAV_CMD_DO_LAND_START) eqn:C1;
    destruct (nav_cmd_of item ==c NAV_CMD_LAND) eqn:C2;
    destruct (nav_cmd_of item ==c NAV_CMD_VTOL_LAND) eqn:C3;
    destruct (_has_landing s1) eqn:HL; cbn [orb andb negb];
    repeat case_split; landing_leaf Hi Hitem HI.
Qed.

Lemma checkFixedWingLanding_body_landing i l s1 :
  (i < count mission)%nat ->
  landing_inv P mission [NAV_CMD_DO_LAND_START; NAV_CMD_LAND] i s1 ->
  let '(f, s', _) := checkFixedWingLanding_body P nav mission i l s1 in
  match f with
  | Continue _ =>
      landing_inv P mission [NAV_CMD_DO_LAND_START; NAV_CMD_LAND] (S i) s'
  | Return _ =>
      landing_exit P mission [NAV_CMD_DO_LAND_START; NAV_CMD_LAND] s'
  end.
Proof.
  intros Hi HI.
  destruct (readable_item P mission i Hr Hi) as [item Hitem].
  destruct (readable_item P mission (i - 1)%nat Hr ltac:(lia))
    as [prev Hprev].
  unfold checkFixedWingLanding_body. unfold_m. rewrite Hitem, ?Hprev.
  destruct (nav_cmd_of item ==c NAV_CMD_DO_LAND_START) eqn:C1;
    destruct (nav_cmd_of item ==c NAV_CMD_LAND) eqn:C2;
    destruct (_has_landing s1) eqn:HL; cbn [orb andb negb];
    repeat case_split; landing_leaf Hi Hitem HI.
Qed.

Lemma landing_inv_init cmds s :
  _has_landing s = false -> landing_inv P mission cmds 0 s.
Proof.
  intros H. unfold landing_inv. rewrite H. split; [discriminate|].
  intros (j & _ & Hj & _). lia.
Qed.

Lemma landing_inv_final cmds s :
  landing_inv P mission cmds (count mission) s ->
  (_has_landing s = true <-> contains_any P mission cmds).
Proof.
  unfold landing_inv, contains_any, item_at. intros ->.
  split; intros (j & it & H); exists j, it; tauto.
Qed.

Lemma checkVTOLLanding_landing s :
  _has_landing s = false ->
  (_has_landing (state_of (checkVTOLLanding P mission s)) = true
   <-> contains_any P mission
         [NAV_CMD_DO_LAND_START; NAV_CMD_LAND; NAV_CMD_VTOL_LAND]).
Proof.
  intros Hs.
  pose proof (for_loop_inv (checkVTOLLanding_body P mission)
                (count mission)
                (fun i _ s1 _ =>
                   landing_inv P mission
                     [NAV_CMD_DO_LAND_START; NAV_CMD_LAND; NAV_CMD_VTOL_LAND]
                     i s1)
                (fun _ s1 _ =>
                   landing_exit P mission
                     [NAV_CMD_DO_LAND_START; NAV_CMD_LAND; NAV_CMD_VTOL_LAND]
                     s1)) as H.
  assert (Hbody : forall i l s1 (t1 : list output), (i < count mission)%nat ->
            landing_inv P mission
              [NAV_CMD_DO_LAND_START; NAV_CMD_LAND; NAV_CMD_VTOL_LAND] i s1 ->
            let '(f, s', t') := checkVTOLLanding_body P mission i l s1 in
            match f with
            | Continue _ =>
                landing_inv P mission
                  [NAV_CMD_DO_LAND_START; NAV_CMD_LAND; NAV_CMD_VTOL_LAND]
                  (S i) s'
            | Return _ =>
                landing_exit P mission
                  [NAV_CMD_DO_LAND_START; NAV_CMD_LAND; NAV_CMD_VTOL_LAND] s'
            end).
  { intros i l s1 _ Hi HI.
    pose proof (checkVTOLLanding_body_landing i l s1 Hi HI) as Hb.
    destruct (checkVTOLLanding_body P mission i l s1) as [[? ?] ?]. exact Hb. }
  specialize (H Hbody (count mission) 0%nat (0%nat, 0%nat) s [] eq_refl
                (landing_inv_init _ s Hs)).
  unfold checkVTOLLanding. unfold_m.
  destruct (for_loop _ _ _ _ _) as [[[[a b]|r] s1] t1].
  - apply landing_inv_final in H. repeat case_split; exact H.
  - cbn. destruct H as [H1 H2]. tauto.
Qed.

Lemma checkFixedWingLanding_landing s :
  _has_landing s = false ->
  (_has_landing (state_of (checkFixedWingLanding P nav mission s)) = true
   <-> contains_any P mission [NAV_CMD_DO_LAND_START; NAV_CMD_LAND]).
Proof.
  intros Hs.
  pose proof (for_loop_inv (checkFixedWingLanding_body P nav mission)
                (count mission)
                (fun i _ s1 _ =>
                   landing_inv P mission
                     [NAV_CMD_DO_LAND_START; NAV_CMD_LAND] i s1)
                (fun _ s1 _ =>
                   landing_exit P mission
                     [NAV_CMD_DO_LAND_START; NAV_CMD_LAND] s1)) as H.
  assert (Hbody : forall i l s1 (t1 : list output), (i < count mission)%nat ->
            landing_inv P mission [NAV_CMD_DO_LAND_START; NAV_CMD_LAND] i s1 ->
            let '(f, s', t') :=
              checkFixedWingLanding_body P nav mission i l s1 in
            match f with
            | Continue _ =>
                landing_inv P mission [NAV_CMD_DO_LAND_START; NAV_CMD_LAND]
                  (S i) s'
            | Return _ =>
                landing_exit P mission [NAV_CMD_DO_LAND_START; NAV_CMD_LAND] s'
            end).
  { intros i l s1 _ Hi HI.
    pose proof (checkFixedWingLanding_body_landing i l s1 Hi HI) as Hb.
    destruct (checkFixedWingLanding_body P nav mission i l s1) as [[? ?] ?].
    exact Hb. }
  specialize (H Hbody (count mission) 0%nat
                {| landing_valid := false; do_land_start_index := 0%nat;
                   landing_approach_index := 0%nat |} s [] eq_refl
                (landing_inv_init _ s Hs)).
  unfold checkFixedWingLanding. unfold_m.
  destruct (for_loop _ _ _ _ _) as [[[l|r] s1] t1].
  - apply landing_inv_final in H. repeat case_split; exact H.
  - cbn. destruct H as [H1 H2]. tauto.
Qed.

Lemma hasMissionLanding_landing s :
  result_of (hasMissionLanding P mission s) = true
  <-> contains_any P mission [NAV_CMD_LAND].
Proof.
  set (I := fun (i : nat) (found : bool) (_ : checker) (_ : list output) =>
              found = true <->
              exists j item, (j < i)%nat
                /\ dm_read P (dataman_id mission) j = Some item
                /\ is_one_of (nav_cmd_of item) [NAV_CMD_LAND] = true).
  assert (Hbody : forall i l s1 t1, (i < count mission)%nat -> I i l s1 t1 ->
            let '(f, s', t') := hasMissionLanding_body P mission i l s1 in
            match f with
            | Continue l' => I (S i) l' s' (t1 ++ t')
            | Return _ => False
            end).
  { intros i l s1 t1 Hi HI.
    destruct (readable_item P mission i Hr Hi) as [item Hitem].
    unfold hasMissionLanding_body. unfold_m. rewrite Hitem.
    destruct (nav_cmd_of item ==c NAV_CMD_LAND) eqn:C; cbv beta iota zeta;
      unfold I in *; split.
    - intros _. exists i, item. repeat split; auto. cbn. now rewrite C.
    - reflexivity.
    - intros H. apply HI in H. destruct H as (j & it & Hj & H).
      exists j, it. split; [lia | exact H].
    - intros (j & it & Hj & H1 & H2).
      assert (Hc : (j < i)%nat \/ j = i) by lia. destruct Hc as [Hc| ->].
      + apply HI. eauto.
      + rewrite Hitem in H1. injection H1 as <-. cbn in H2.
        rewrite C in H2. discriminate. }
  assert (I0 : I 0%nat false s []).
  { unfold I. split; [discriminate|]. intros (j & _ & Hj & _). lia. }
  pose proof (for_loop_inv _ _ I (fun _ _ _ => False) Hbody
                (count mission) 0%nat false s [] eq_refl I0) as H.
  unfold hasMissionLanding, bind.
  destruct (for_loop _ _ _ _ _) as [[[l|r] s1] t1]; [|contradiction].
  cbn. unfold I in H. rewrite H. unfold contains_any, item_at.
  split; intros (j & it & H'); exists j, it; tauto.
Qed.
End Landing.

(** C2, as stated: after [checkMissionFeasible] the landing flag is false
    exactly when the mission has no [LAND], [VTOL_LAND] or [DO_LAND_START]
    item, for every vehicle.  On a multicopter a mission whose only landing
    item is a [VTOL_LAND] leaves the flag false. *)
Lemma has_landing_ignores_vtol_land :
  _has_landing
    (state_of (checkMissionFeasible
                 (Fixture.platform Fixture.vtol_land_only None)
                 (Fixture.navigator false 1 0)
                 (Fixture.mission_of Fixture.vtol_land_only)
                 (F32.of_int 900) (F32.of_int 900) Fixture.fresh)) = false
  /\ contains_any (Fixture.platform Fixture.vtol_land_only None)
       (Fixture.mission_of Fixture.vtol_land_only)
       [NAV_CMD_LAND; NAV_CMD_VTOL_LAND; NAV_CMD_DO_LAND_START].
Proof.
  split; [reflexivity|].
  exists 1%nat, (Fixture.item NAV_CMD_VTOL_LAND 100 0 0 2).
  repeat split. cbn; lia.
Qed.

(** C2, amended: after [checkMissionFeasible] on a mission that is not
    empty and can be read, the landing flag is false exactly when the
    mission has no item among the landing commands of the branch taken:
    [DO_LAND_START], [LAND] and [VTOL_LAND] for a VTOL, [DO_LAND_START] and
    [LAND] for a fixed-wing vehicle, [LAND] alone for any other vehicle. *)
Theorem has_landing_after_check P nav mission d1 d2 s :
  (0 < count mission)%nat -> readable P mission = true ->
  (_has_landing (state_of (checkMissionFeasible P nav mission d1 d2 s)) = false
   <-> ~ contains_any P mission (landing_commands P nav)).
Proof.
  intros Hc Hr. unfold checkMissionFeasible, landing_commands. unfold_m.
  destruct (Z.of_nat (count mission) <=? 0) eqn:Hz; [apply Z.leb_le in Hz; lia|].
  assert (Hflag : forall b (X : Prop), (b = true <-> X) -> (b = false <-> ~ X)).
  { intros [] X HX; split; intros H; try discriminate.
    - exfalso. apply H. now apply HX.
    - intros HX'. apply HX in HX'. discriminate.
    - reflexivity. }
  destruct (negb (home_alt_valid nav));
    [| destruct (checkDistanceToFirstWaypoint P nav mission d1 _)
         as [[r0 c0] l0] ];
    cbv beta iota zeta.
  all: repeat match goal with
         | |- context [checkMissionItemValidity ?P ?n ?m ?s] =>
             let F := fresh "F" in
             pose proof (checkMissionItemValidity_frame P n m s) as F;
             destruct (checkMissionItemValidity P n m s) as [[? ?] ?];
             cbn in F; cbv beta iota zeta
         | |- context [checkDistancesBetweenWaypoints ?P ?m ?d ?s] =>
             let F := fresh "F" in
             pose proof (checkDistancesBetweenWaypoints_frame P m d s) as F;
             destruct (checkDistancesBetweenWaypoints P m d s) as [[? ?] ?];
             cbn in F; cbv beta iota zeta
         | |- context [checkGeofence ?P ?n ?m ?h ?hv ?s] =>
             let F := fresh "F" in
             pose proof (checkGeofence_frame P n m h hv s) as F;
             destruct (checkGeofence P n m h hv s) as [[? ?] ?];
             cbn in F; cbv beta iota zeta
         | |- context [checkHomePositionAltitude ?P ?m ?h ?hv ?s] =>
             let F := fresh "F" in
             pose proof (checkHomePositionAltitude_frame P m h hv s) as F;
             destruct (checkHomePositionAltitude P m h hv s) as [[? ?] ?];
             cbn in F; cbv beta iota zeta
         | |- context [checkTakeoff ?P ?n ?m ?h ?s] =>
             let F := fresh "F" in
             pose proof (checkTakeoff_frame P n m h s) as F;
             destruct (checkTakeoff P n m h s) as [[? ?] ?];
             cbn in F; cbv beta iota zeta
         end.
  all: destruct (is_vtol nav);
    [| destruct (vehicle_type nav =? VEHICLE_TYPE_FIXED_WING P)].
  all: cbv beta iota zeta.
  all: match goal with
       | |- context [checkVTOLLanding ?P ?m ?c] =>
           assert (Hfalse : _has_landing c = false) by congruence;
           pose proof (checkVTOLLanding_landing P m Hr c Hfalse) as L;
           destruct (checkVTOLLanding P m c) as [[? ?] ?]; cbn in L
       | |- context [checkFixedWingLanding ?P ?n ?m ?c] =>
           assert (Hfalse : _has_landing c = false) by congruence;
           pose proof (checkFixedWingLanding_landing P n m Hr c Hfalse) as L;
           destruct (checkFixedWingLanding P n m c) as [[? ?] ?]; cbn in L
       | |- context [hasMissionLanding ?P ?m ?c] =>
           pose proof (hasMissionLanding_landing P m Hr c) as L;
           destruct (hasMissionLanding P m c) as [[? ?] ?]; cbn in L
       end.
  all: cbv beta iota zeta.
  all: match goal with
       | |- context [checkTakeoffLandAvailable ?n ?s] =>
           let F := fresh "F" in
           pose proof (checkTakeoffLandAvailable_frame n s) as F;
           destruct (checkTakeoffLandAvailable n s) as [[? ?] ?]; cbn in F
       end.
  all: cbn;
    match goal with
    | F : _has_landing ?c = _ |- _has_landing ?c = false <-> _ => rewrite F
    end;
    cbn [_has_landing]; apply Hflag; assumption.
Qed.

Lemma has_landing_after_check_witness :
  _has_landing
    (state_of (checkMissionFeasible
                 (Fixture.platform Fixture.vtol_land_only None)
                 (Fixture.navigator false 1 0)
                 (Fixture.mission_of Fixture.vtol_land_only)
                 (F32.of_int 900) (F32.of_int 900) Fixture.fresh)) = false
  <-> ~ contains_any (Fixture.platform Fixture.vtol_land_only None)
          (Fixture.mission_of Fixture.vtol_land_only) [NAV_CMD_LAND].
Proof.
  apply (has_landing_after_check
           (Fixture.platform Fixture.vtol_land_only None)
           (Fixture.navigator false 1 0)
           (Fixture.mission_of Fixture.vtol_land_only)
           (F32.of_int 900) (F32.of_int 900) Fixture.fresh).
  - cbn; lia.
  - reflexivity.
Defined.

(** ** The glide slope of a fixed-wing landing *)

Lemma SFcompare_antisym a b :
  SFcompare b a = option_map CompOpp (SFcompare a b).
Proof.
  destruct a as [sa|sa| |sa ma ea], b as [sb|sb| |sb mb eb]; cbn;
    try reflexivity;
    try (destruct sa; reflexivity); try (destruct sb; reflexivity);
    try (destruct sa, sb; reflexivity).
  f_equal. destruct sa, sb; try reflexivity;
    rewrite (Z.compare_antisym ea eb); destruct (ea ?= eb); cbn; try reflexivity;
    fold (Pos.compare ma mb); fold (Pos.compare mb ma);
    rewrite (Pos.compare_antisym ma mb); destruct (ma ?= mb)%positive;
    reflexivity.
Qed.

Lemma SFcompare_not_nan a b :
  F32.is_nan a = false -> F32.is_nan b = false -> SFcompare a b <> None.
Proof. destruct a, b; cbn; intros; congruence. Qed.

(** Without NaNs the order is total. *)
Lemma F32_le_of_not_gt a b :
  F32.is_nan a = false -> F32.is_nan b = false ->
  F32.gt a b = false -> F32.le a b = true.
Proof.
  intros Ha Hb. unfold F32.gt, F32.le, SFltb, SFleb.
  rewrite (SFcompare_antisym a b).
  pose proof (SFcompare_not_nan a b Ha Hb) as H.
  destruct (SFcompare a b) as [[]|]; cbn; congruence.
Qed.









(** ** The Euler angles at the pitch singularity *)

(** C9: when [theta = asin(-dcm(2,0))] is within 1.0e-3 of [M_PI_2], the
    constructor leaves [phi = 0] and [psi = atan2(dcm(1,2), dcm(0,2))]: the
    second of the two assignments to [psi] is the one that remains. *)
Theorem Euler_of_Dcm_plus_half_pi (T : Type) (zero : T) (neg : T -> T)
  (add sub : T -> T -> T) (fabs : T -> T) (lt : T -> T -> bool)
  (asin : T -> T) (atan2 : T -> T -> T) (M_PI_2 c1e_3 : T)
  (dcm : Euler.Dcm T) :
  lt (fabs (sub (asin (neg (dcm 2 0)%nat)) M_PI_2)) c1e_3 = true ->
  let e := Euler.Euler_of_Dcm zero neg add sub fabs lt asin atan2 M_PI_2 c1e_3
             dcm in
  Euler.theta e = asin (neg (dcm 2 0)%nat)
  /\ Euler.phi e = zero
  /\ Euler.psi e = atan2 (dcm 1 2)%nat (dcm 0 2)%nat.
Proof.
  intros H. unfold Euler.Euler_of_Dcm, Euler.near_plus_half_pi.
  cbn [Euler.theta Euler.set_theta Euler.assign Nat.eqb].
  rewrite H. repeat split.
Qed.

Lemma Euler_of_Dcm_plus_half_pi_witness :
  let e := Euler.Euler_of_Dcm (S754_zero false) SFopp (SFadd 53 1024)
             (SFsub 53 1024) SFabs SFltb Fixture.asin_at_one
             Fixture.atan2_stub Fixture.d_half_pi Fixture.d_1e_3
             Fixture.dcm_pitch_up in
  Euler.theta e = Fixture.d_half_pi
  /\ Euler.phi e = S754_zero false
  /\ Euler.psi e = Fixture.atan2_stub (S754_zero false) Fixture.d_one.
Proof.
  exact (Euler_of_Dcm_plus_half_pi spec_float (S754_zero false) SFopp (SFadd 53 1024)
           (SFsub 53 1024) SFabs SFltb Fixture.asin_at_one
           Fixture.atan2_stub Fixture.d_half_pi Fixture.d_1e_3
           Fixture.dcm_pitch_up eq_refl).
Defined.

(** ** What the pre-takeoff scan computes *)

(** On a mission that can be read, the scan over the first [n > 0] items
    ends with the verdict of item [n - 1] alone, whatever the items before
    it are. *)
Lemma checkTakeoff_scan_keeps_last P mission n tf s :
  readable P mission = true -> (0 < n <= count mission)%nat ->
  exists item,
    dm_read P (dataman_id mission) (n - 1) = Some item
    /\ for_loop n 0 (checkTakeoff_scan_body P mission) tf s
       = (Continue (allowed_before_takeoff (nav_cmd_of item)), s, []).
Proof.
  intros Hr Hn.
  set (I := fun (i : nat) (l : bool) (s1 : checker) (t1 : list output) =>
              s1 = s /\ t1 = []
              /\ ((0 < i)%nat ->
                  exists item,
                    dm_read P (dataman_id mission) (i - 1) = Some item
                    /\ l = allowed_before_takeoff (nav_cmd_of item))).
  assert (Hbody : forall i l s1 t1, (i < n)%nat -> I i l s1 t1 ->
            let '(f, s', t') := checkTakeoff_scan_body P mission i l s1 in
            match f with
            | Continue l' => I (S i) l' s' (t1 ++ t')
            | Return _ => False
            end).
  { intros i l s1 t1 Hi (-> & -> & _).
    destruct (readable_item P mission i Hr ltac:(lia)) as [item Hitem].
    unfold checkTakeoff_scan_body. unfold_m. rewrite Hitem. cbv beta iota zeta.
    repeat split. intros _. exists item.
    replace (S i - 1)%nat with i by lia. auto. }
  assert (I0 : I 0%nat tf s []).
  { repeat split. intros H; lia. }
  pose proof (for_loop_inv _ n I (fun _ _ _ => False) Hbody n 0%nat tf s []
                eq_refl I0) as H.
  destruct (for_loop n 0 _ tf s) as [[[l|b] s1] t1]; [|contradiction].
  destruct H as (-> & H1 & H2). cbn in H1. subst t1.
  destruct (H2 ltac:(lia)) as (item & Hitem & ->). eauto.
Qed.

(** * Further properties *)

(** ** The requirement policy *)

(** X1: [checkTakeoffLandAvailable] returns the verdict of the policy
    table (requirements other than 1 to 4 pass), leaves the checker
    unchanged, sends nothing when it passes and exactly the one event of
    the policy when it fails. *)
Theorem checkTakeoffLandAvailable_table nav s :
  checkTakeoffLandAvailable nav s
  = (policy_verdict (takeoff_land_required nav) (_has_takeoff s) (_has_landing s),
     s,
     if policy_verdict (takeoff_land_required nav) (_has_takeoff s)
          (_has_landing s)
     then []
     else [Send (policy_event (takeoff_land_required nav) (_has_takeoff s))]).
Proof.
  unfold checkTakeoffLandAvailable, policy_verdict, policy_event. unfold_m.
  destruct s as [w [] []]; cbn;
    destruct (takeoff_land_required nav) as [|p|p]; try reflexivity;
    repeat (destruct p as [p|p|]; try reflexivity).
Qed.

(** ** Item validity *)

Lemma checkMissionItemValidity_body_outcome P nav mission i l s item :
  dm_read P (dataman_id mission) i = Some item ->
  exists t,
    checkMissionItemValidity_body P nav mission i l s
    = ((if item_valid P nav i item then Continue tt else Return false), s, t).
Proof.
  intros Hitem. unfold checkMissionItemValidity_body. unfold_m.
  rewrite Hitem. unfold item_valid, servo_in_range.
  destruct (differs_from_all (nav_cmd_of item) supported_commands);
    destruct (nav_cmd_of item ==c NAV_CMD_DO_SET_SERVO);
    destruct (F32.lt (params0 item) (F32.of_int 0));
    destruct (F32.gt (params0 item) (F32.of_int 5));
    destruct (F32.lt (params1 item) (F32.of_int (- PWM_DEFAULT_MAX P)));
    destruct (F32.gt (params1 item) (F32.of_int (PWM_DEFAULT_MAX P)));
    destruct (i =? 0)%nat; destruct (nav_cmd_of item ==c NAV_CMD_LAND);
    destruct (landed nav); cbn; eauto.
Qed.

Lemma checkMissionItemValidity_loop P nav mission s :
  let '(f, _, _) :=
    for_loop (count mission) 0 (checkMissionItemValidity_body P nav mission)
      tt s in
  match f with
  | Continue _ =>
      forall j, (j < count mission)%nat ->
        exists item, dm_read P (dataman_id mission) j = Some item
                     /\ item_valid P nav j item = true
  | Return b =>
      b = false
      /\ exists j, (j < count mission)%nat
           /\ forall item, dm_read P (dataman_id mission) j = Some item ->
                item_valid P nav j item = false
  end.
Proof.
  set (I := fun (i : nat) (_ : unit) (_ : checker) (_ : list output) =>
              forall j, (j < i)%nat ->
                exists item, dm_read P (dataman_id mission) j = Some item
                             /\ item_valid P nav j item = true).
  set (Q := fun (b : bool) (_ : checker) (_ : list output) =>
              b = false
              /\ exists j, (j < count mission)%nat
                   /\ forall item, dm_read P (dataman_id mission) j = Some item ->
                        item_valid P nav j item = false).
  assert (Hbody : forall i l s1 t1, (i < count mission)%nat -> I i l s1 t1 ->
            let '(f, s', t') := checkMissionItemValidity_body P nav mission i l s1 in
            match f with
            | Continue l' => I (S i) l' s' (t1 ++ t')
            | Return b => Q b s' (t1 ++ t')
            end).
  { intros i l s1 t1 Hi HI.
    destruct (dm_read P (dataman_id mission) i) as [item|] eqn:Hitem.
    - destruct (checkMissionItemValidity_body_outcome P nav mission i l s1
                  item Hitem) as [t' ->].
      destruct (item_valid P nav i item) eqn:Hv.
      + intros j Hj. assert (Hc : (j < i)%nat \/ j = i) by lia.
        destruct Hc as [Hc| ->]; [now apply HI | eauto].
      + split; [reflexivity|]. exists i. split; [assumption|].
        intros it Hit. congruence.
    - unfold checkMissionItemValidity_body. unfold_m. rewrite Hitem.
      cbv beta iota zeta. split; [reflexivity|]. exists i.
      split; [assumption|]. intros it Hit. congruence. }
  assert (I0 : I 0%nat tt s []) by (intros j Hj; lia).
  pose proof (for_loop_inv _ _ I Q Hbody (count mission) 0%nat tt s []
                eq_refl I0) as H.
  destruct (for_loop _ _ _ _ _) as [[[l|b] s1] t1]; exact H.
Qed.

Lemma checkMissionItemValidity_pass_items P nav mission s :
  result_of (checkMissionItemValidity P nav mission s) = true ->
  forall i, (i < count mission)%nat ->
    exists item, dm_read P (dataman_id mission) i = Some item
                 /\ item_valid P nav i item = true.
Proof.
  pose proof (checkMissionItemValidity_loop P nav mission s) as H.
  unfold checkMissionItemValidity, bind.
  destruct (for_loop _ _ _ _ _) as [[[l|b] s1] t1]; cbn.
  - intros _. exact H.
  - destruct H as [-> _]. discriminate.
Qed.

(** A C integer converted to [float] is never a NaN. *)
Lemma shr_1_nonneg mrs : 0 <= shr_m mrs -> 0 <= shr_m (shr_1 mrs).
Proof.
  destruct mrs as [m r s]. cbn [shr_m]. intros H. unfold shr_1.
  destruct m as [|p|p]; [cbn; lia | | lia].
  destruct p; cbn; lia.
Qed.

Lemma iter_shr_1_nonneg p mrs :
  0 <= shr_m mrs -> 0 <= shr_m (iter_pos shr_1 p mrs).
Proof.
  revert mrs. induction p as [p IH|p IH|]; intros mrs H; cbn [iter_pos].
  - apply IH, IH, shr_1_nonneg, H.
  - apply IH, IH, H.
  - apply shr_1_nonneg, H.
Qed.

Lemma shr_fexp_nonneg prec emax m e l :
  0 <= m -> 0 <= shr_m (fst (shr_fexp prec emax m e l)).
Proof.
  intros H. unfold shr_fexp, shr.
  assert (H0 : 0 <= shr_m (shr_record_of_loc m l))
    by (unfold shr_record_of_loc; destruct l as [|[]]; cbn; exact H).
  destruct (fexp prec emax (Zdigits2 m + e) - e) as [|p|p]; cbn [fst]; auto.
  now apply iter_shr_1_nonneg.
Qed.

Lemma binary_round_aux_not_nan prec emax sx mx ex lx :
  0 <= mx -> binary_round_aux prec emax sx mx ex lx <> S754_nan.
Proof.
  intros H. unfold binary_round_aux.
  pose proof (shr_fexp_nonneg prec emax mx ex lx H) as H1.
  destruct (shr_fexp prec emax mx ex lx) as [mrs' e']. cbn [fst] in H1.
  assert (Hr : 0 <= round_nearest_even (shr_m mrs') (loc_of_shr_record mrs')).
  { unfold round_nearest_even.
    destruct (loc_of_shr_record mrs') as [|[]]; try lia.
    destruct (Z.even (shr_m mrs')); lia. }
  pose proof (shr_fexp_nonneg prec emax _ e' loc_Exact Hr) as H2.
  destruct (shr_fexp prec emax _ e' loc_Exact) as [mrs'' e''].
  cbn [fst] in H2.
  destruct (shr_m mrs'') as [|p|p]; try discriminate; [|lia].
  destruct (e'' <=? emax - prec); discriminate.
Qed.

Lemma F32_of_int_not_nan z : F32.is_nan (F32.of_int z) = false.
Proof.
  assert (H : F32.of_int z <> S754_nan).
  { unfold F32.of_int, binary_normalize.
    destruct z as [|p|p]; try discriminate;
      unfold binary_round; destruct (shl_align _ _ _);
      apply binary_round_aux_not_nan; lia. }
  destruct (F32.of_int z); try reflexivity. contradiction.
Qed.

Lemma F32_lt_nan a b : F32.is_nan a = true -> F32.lt a b = false.
Proof. destruct a; try discriminate. reflexivity. Qed.

Lemma F32_gt_nan a b : F32.is_nan a = true -> F32.gt a b = false.
Proof. destruct a; try discriminate. destruct b; reflexivity. Qed.

(** X2: [checkMissionItemValidity] passes exactly when every item of the
    mission can be read, has a supported command, is not a [LAND] at index 0
    while the vehicle is landed and, if it is a [DO_SET_SERVO], makes none of
    the comparisons [params[0] < 0], [params[0] > 5],
    [params[1] < -PWM_DEFAULT_MAX], [params[1] > PWM_DEFAULT_MAX] true.  For
    a parameter that is not a NaN this is an index within 0..5 and a value
    within the bounds; a [DO_SET_SERVO] whose two parameters are NaNs passes
    the tests. *)
Theorem checkMissionItemValidity_pass_iff P nav mission s :
  (result_of (checkMissionItemValidity P nav mission s) = true
   <-> forall i, (i < count mission)%nat ->
         exists item, dm_read P (dataman_id mission) i = Some item
                      /\ item_valid P nav i item = true)
  /\ (forall i item,
        item_valid P nav i item = true ->
        nav_cmd_of item = NAV_CMD_DO_SET_SERVO ->
        (F32.lt (params0 item) (F32.of_int 0) = false
         /\ F32.gt (params0 item) (F32.of_int 5) = false
         /\ F32.lt (params1 item) (F32.of_int (- PWM_DEFAULT_MAX P)) = false
         /\ F32.gt (params1 item) (F32.of_int (PWM_DEFAULT_MAX P)) = false)
        /\ (F32.is_nan (params0 item) = false ->
            F32.le (F32.of_int 0) (params0 item) = true
            /\ F32.le (params0 item) (F32.of_int 5) = true)
        /\ (F32.is_nan (params1 item) = false ->
            F32.le (F32.of_int (- PWM_DEFAULT_MAX P)) (params1 item) = true
            /\ F32.le (params1 item) (F32.of_int (PWM_DEFAULT_MAX P)) = true))
  /\ (forall i item,
        nav_cmd_of item = NAV_CMD_DO_SET_SERVO ->
        F32.is_nan (params0 item) = true ->
        F32.is_nan (params1 item) = true ->
        item_valid P nav i item = true).
Proof.
  split; [|split].
  - split; [apply checkMissionItemValidity_pass_items|].
    pose proof (checkMissionItemValidity_loop P nav mission s) as H.
    unfold checkMissionItemValidity, bind.
    destruct (for_loop _ _ _ _ _) as [[[l|b] s1] t1]; cbn; [reflexivity|].
    destruct H as [-> (j & Hj & Hbad)].
    intros Hall. destruct (Hall j Hj) as (item & Hitem & Hv).
    rewrite (Hbad item Hitem) in Hv. discriminate.
  - intros i item Hv Hcmd. unfold item_valid, servo_in_range in Hv.
    rewrite Hcmd in Hv.
    change (NAV_CMD_DO_SET_SERVO ==c NAV_CMD_DO_SET_SERVO) with true in Hv.
    rewrite !andb_true_iff, !negb_true_iff, !orb_false_iff in Hv.
    destruct Hv as ((_ & (H1 & H2) & (H3 & H4)) & _).
    split; [repeat split; assumption|]. split; intros Hn; split.
    + apply F32_le_of_not_gt; [apply F32_of_int_not_nan | exact Hn | exact H1].
    + apply F32_le_of_not_gt; [exact Hn | apply F32_of_int_not_nan | exact H2].
    + apply F32_le_of_not_gt; [apply F32_of_int_not_nan | exact Hn | exact H3].
    + apply F32_le_of_not_gt; [exact Hn | apply F32_of_int_not_nan | exact H4].
  - intros i item Hcmd Hn0 Hn1. unfold item_valid, servo_in_range.
    rewrite Hcmd, !(F32_lt_nan _ _ Hn0), !(F32_gt_nan _ _ Hn0),
      !(F32_lt_nan _ _ Hn1), !(F32_gt_nan _ _ Hn1).
    rewrite andb_false_r. reflexivity.
Qed.

(** ** The orchestrator *)

Ltac call_eqn :=
  let E := fresh "E" in
  match goal with
  | |- context [checkDistanceToFirstWaypoint ?P ?n ?m ?d ?s] =>
      destruct (checkDistanceToFirstWaypoint P n m d s) as [[? ?] ?] eqn:E
  | |- context [checkMissionItemValidity ?P ?n ?m ?s] =>
      destruct (checkMissionItemValidity P n m s) as [[? ?] ?] eqn:E
  | |- context [checkDistancesBetweenWaypoints ?P ?m ?d ?s] =>
      destruct (checkDistancesBetweenWaypoints P m d s) as [[? ?] ?] eqn:E
  | |- context [checkGeofence ?P ?n ?m ?h ?hv ?s] =>
      destruct (checkGeofence P n m h hv s) as [[? ?] ?] eqn:E
  | |- context [checkHomePositionAltitude ?P ?m ?h ?hv ?s] =>
      destruct (checkHomePositionAltitude P m h hv s) as [[? ?] ?] eqn:E
  | |- context [checkTakeoff ?P ?n ?m ?h ?s] =>
      destruct (checkTakeoff P n m h s) as [[? ?] ?] eqn:E
  | |- context [checkVTOLLanding ?P ?m ?s] =>
      destruct (checkVTOLLanding P m s) as [[? ?] ?] eqn:E
  | |- context [checkFixedWingLanding ?P ?n ?m ?s] =>
      destruct (checkFixedWingLanding P n m s) as [[? ?] ?] eqn:E
  | |- context [hasMissionLanding ?P ?m ?s] =>
      destruct (hasMissionLanding P m s) as [[? ?] ?] eqn:E
  | |- context [checkTakeoffLandAvailable ?n ?s] =>
      destruct (checkTakeoffLandAvailable n s) as [[? ?] ?] eqn:E
  end; cbv beta iota zeta.

(** Every sub-check of a run that returns [true] has passed. *)
Lemma checkMissionFeasible_pass_parts P nav mission d1 d2 s :
  result_of (checkMissionFeasible P nav mission d1 d2 s) = true ->
  (0 < count mission)%nat
  /\ home_alt_valid nav = true
  /\ (exists s1, result_of (checkDistanceToFirstWaypoint P nav mission d1 s1) = true)
  /\ (exists s1, result_of (checkMissionItemValidity P nav mission s1) = true)
  /\ (exists s1, result_of (checkDistancesBetweenWaypoints P mission d2 s1) = true)
  /\ (exists s1, result_of (checkGeofence P nav mission (home_alt nav)
                              (home_global_position_valid nav) s1) = true)
  /\ (exists s1, result_of (checkHomePositionAltitude P mission (home_alt nav)
                              (home_alt_valid nav) s1) = true)
  /\ (exists s1, result_of (checkTakeoff P nav mission (home_alt nav) s1) = true)
  /\ (is_vtol nav = true ->
      exists s1, _has_landing s1 = false
                 /\ result_of (checkVTOLLanding P mission s1) = true)
  /\ (is_vtol nav = false ->
      (vehicle_type nav =? VEHICLE_TYPE_FIXED_WING P) = true ->
      exists s1, _has_landing s1 = false
                 /\ result_of (checkFixedWingLanding P nav mission s1) = true)
  /\ (exists s1, result_of (checkTakeoffLandAvailable nav s1) = true).
Proof.
  destruct (home_alt_valid nav) eqn:Hv.
  2: { unfold checkMissionFeasible. unfold_m. rewrite Hv.
       destruct (Z.of_nat (count mission) <=? 0); [discriminate|].
       cbn [negb]. cbv beta iota zeta. repeat call_eqn.
       destruct (is_vtol nav);
         [|destruct (vehicle_type nav =? VEHICLE_TYPE_FIXED_WING P)];
         repeat call_eqn; cbn; discriminate. }
  match goal with |- _ -> ?X => set (G := X) end.
  unfold checkMissionFeasible. unfold_m. rewrite Hv.
  destruct (Z.of_nat (count mission) <=? 0) eqn:Hz; [discriminate|].
  apply Z.leb_gt in Hz. cbn [negb]. cbv beta iota zeta.
  call_eqn.
  pose proof (checkMissionItemValidity_frame P nav mission) as F1.
  pose proof (checkDistancesBetweenWaypoints_frame P mission d2) as F2.
  pose proof (checkGeofence_frame P nav mission (home_alt nav)
                (home_global_position_valid nav)) as F3.
  pose proof (checkHomePositionAltitude_frame P mission (home_alt nav) true) as F4.
  pose proof (checkTakeoff_frame P nav mission (home_alt nav)) as F5.
  repeat match goal with
         | |- context [checkMissionItemValidity ?P ?n ?m ?s] =>
             specialize (F1 s); call_eqn
         | |- context [checkDistancesBetweenWaypoints ?P ?m ?d ?s] =>
             specialize (F2 s); call_eqn
         | |- context [checkGeofence ?P ?n ?m ?h ?hv ?s] =>
             specialize (F3 s); call_eqn
         | |- context [checkHomePositionAltitude ?P ?m ?h ?hv ?s] =>
             specialize (F4 s); call_eqn
         | |- context [checkTakeoff ?P ?n ?m ?h ?s] =>
             specialize (F5 s); call_eqn
         end.
  cbn in F1, F2, F3, F4, F5.
  destruct (is_vtol nav) eqn:Hvtol;
    [|destruct (vehicle_type nav =? VEHICLE_TYPE_FIXED_WING P) eqn:Hfw];
    cbv beta iota zeta;
    match goal with
    | |- context [checkVTOLLanding _ _ ?c] =>
        assert (Hfalse : _has_landing c = false) by congruence
    | |- context [checkFixedWingLanding _ _ _ ?c] =>
        assert (Hfalse : _has_landing c = false) by congruence
    | |- _ => idtac
    end;
    repeat call_eqn; cbn [result_of fst snd];
    rewrite negb_true_iff, ?orb_false_iff, ?negb_false_iff; intros H;
    repeat match goal with H : _ /\ _ |- _ => destruct H end; subst;
    subst G;
    repeat match goal with
           | |- (0 < _)%nat /\ _ => split; [lia|]
           | |- true = true /\ _ => split; [reflexivity|]
           | |- (exists s1, result_of (?f s1) = true) /\ _ =>
               split; [eexists; match goal with
                                | E : f _ = _ |- _ => rewrite E; reflexivity
                                end|]
           | |- (exists s1, result_of (?f s1) = true) =>
               eexists; match goal with
                        | E : f _ = _ |- _ => rewrite E; reflexivity
                        end
           | |- (_ -> _) /\ _ => split
           | |- _ -> _ => intro
           end; try discriminate;
    eexists; (split; [exact Hfalse|]);
    match goal with E : _ = _ |- _ => rewrite E; reflexivity end.
Qed.

(** X3: a run of [checkMissionFeasible] that returns [true] has read
    every item of the mission, and every item has passed the tests of the
    item-validity check; the mission is not empty and the home altitude is
    valid. *)
Theorem feasible_mission_is_valid P nav mission d1 d2 s :
  result_of (checkMissionFeasible P nav mission d1 d2 s) = true ->
  (0 < count mission)%nat
  /\ home_alt_valid nav = true
  /\ forall i, (i < count mission)%nat ->
       exists item, dm_read P (dataman_id mission) i = Some item
                    /\ item_valid P nav i item = true.
Proof.
  intros H. apply checkMissionFeasible_pass_parts in H.
  destruct H as (Hc & Hv & _ & (s1 & Hval) & _).
  repeat split; auto.
  now apply (checkMissionItemValidity_pass_items P nav mission s1).
Qed.

(** X4: without a valid home altitude a mission that is not empty is
    rejected, and the first thing the run does is to send the
    no-position-lock event. *)
Theorem no_position_lock_rejects P nav mission d1 d2 s :
  home_alt_valid nav = false -> (0 < count mission)%nat ->
  result_of (checkMissionFeasible P nav mission d1 d2 s) = false
  /\ exists t, trace_of (checkMissionFeasible P nav mission d1 d2 s)
               = Send navigator_mis_no_pos_lock :: t.
Proof.
  intros Hv Hc. unfold checkMissionFeasible. unfold_m. rewrite Hv.
  destruct (Z.of_nat (count mission) <=? 0) eqn:Hz;
    [apply Z.leb_le in Hz; lia|].
  cbn [negb]. cbv beta iota zeta. repeat call_eqn.
  destruct (is_vtol nav);
    [|destruct (vehicle_type nav =? VEHICLE_TYPE_FIXED_WING P)];
    repeat call_eqn; cbn; eauto.
Qed.

(** ** Independence of the previous call *)

Lemma for_loop_flags {L} (body : nat -> L -> M (flow L)) a b :
  (forall i l s,
     body i l (with_flags s a b)
     = let '(f, s', t) := body i l s in (f, with_flags s' a b, t)) ->
  forall n i l s,
    for_loop n i body l (with_flags s a b)
    = let '(f, s', t) := for_loop n i body l s in (f, with_flags s' a b, t).
Proof.
  intros Hb n. induction n as [|n IH]; intros i l s; [reflexivity|].
  cbn [for_loop]. unfold bind. rewrite Hb.
  destruct (body i l s) as [[[l1|r] s1] t1]; [|reflexivity].
  rewrite IH. destruct (for_loop n (S i) body l1 s1) as [[f2 s2] t2].
  reflexivity.
Qed.

(** The first-waypoint check neither reads nor writes the two derived
    flags. *)
Lemma checkDistanceToFirstWaypoint_flags P nav mission d s a b :
  checkDistanceToFirstWaypoint P nav mission d (with_flags s a b)
  = let '(r, s', t) := checkDistanceToFirstWaypoint P nav mission d s in
    (r, with_flags s' a b, t).
Proof.
  unfold checkDistanceToFirstWaypoint. unfold bind.
  destruct (F32.le d F32.zero); [reflexivity|].
  rewrite for_loop_flags.
  - destruct (for_loop _ _ _ _ _) as [[[?|?] ?] ?]; reflexivity.
  - intros i l s0. unfold checkDistanceToFirstWaypoint_body. unfold_m.
    repeat case_split; reflexivity.
Qed.

Lemma checkMissionFeasible_from_reset P nav mission d1 d2 s :
  (0 < count mission)%nat ->
  checkMissionFeasible P nav mission d1 d2 s
  = checkMissionFeasible P nav mission d1 d2
      {| warning := false; _has_takeoff := false; _has_landing := false |}.
Proof.
  intros Hc. unfold checkMissionFeasible. unfold_m.
  destruct (Z.of_nat (count mission) <=? 0) eqn:Hz;
    [apply Z.leb_le in Hz; lia|].
  destruct (negb (home_alt_valid nav)); cbn [warning _has_takeoff _has_landing].
  - reflexivity.
  - change {| warning := false; _has_takeoff := _has_takeoff s;
              _has_landing := _has_landing s |}
      with (with_flags {| warning := false; _has_takeoff := false;
                          _has_landing := false |}
              (_has_takeoff s) (_has_landing s)).
    rewrite checkDistanceToFirstWaypoint_flags.
    destruct (checkDistanceToFirstWaypoint P nav mission d1 _) as [[r s'] t].
    reflexivity.
Qed.

(** X5: on a mission that is not empty, a run of [checkMissionFeasible]
    does not depend on the state the previous call left in the checker:
    verdict, final state and output are the same from any two states. *)
Theorem checkMissionFeasible_fresh P nav mission d1 d2 s1 s2 :
  (0 < count mission)%nat ->
  checkMissionFeasible P nav mission d1 d2 s1
  = checkMissionFeasible P nav mission d1 d2 s2.
Proof.
  intros Hc.
  rewrite (checkMissionFeasible_from_reset P nav mission d1 d2 s1 Hc).
  rewrite (checkMissionFeasible_from_reset P nav mission d1 d2 s2 Hc).
  reflexivity.
Qed.

(** ** The distance checks *)

(** X6: when the maximum is positive, [checkDistanceToFirstWaypoint] is
    decided by the first item with a position alone: it passes silently
    when that item is closer to home than the maximum, and otherwise fails
    with the too-far event and the warning flag set. *)
Theorem first_waypoint_decides P nav mission d s k item :
  F32.le d F32.zero = false ->
  first_positional P mission k item ->
  checkDistanceToFirstWaypoint P nav mission d s
  = if F32.lt (distance_from_home P nav item) d
    then (true, s, [])
    else (false,
          {| warning := true; _has_takeoff := _has_takeoff s;
             _has_landing := _has_landing s |},
          [Send (navigator_mis_first_wp_too_far
                   (float_to_uint32 P (distance_from_home P nav item))
                   (float_to_uint32 P d))]).
Proof.
  intros Hd ([Hk Hitem] & Hpos & Hbefore).
  set (out := if F32.lt (distance_from_home P nav item) d
              then (true, s, [])
              else (false,
                    {| warning := true; _has_takeoff := _has_takeoff s;
                       _has_landing := _has_landing s |},
                    [Send (navigator_mis_first_wp_too_far
                             (float_to_uint32 P (distance_from_home P nav item))
                             (float_to_uint32 P d))])).
  set (I := fun (i : nat) (_ : unit) (s1 : checker) (t1 : list output) =>
              (i <= k)%nat /\ s1 = s /\ t1 = []).
  set (Q := fun (b : bool) (s1 : checker) (t1 : list output) =>
              (b, s1, t1) = out).
  assert (Hbody : forall i l s1 t1, (i < count mission)%nat -> I i l s1 t1 ->
            let '(f, s', t') :=
              checkDistanceToFirstWaypoint_body P nav mission d i l s1 in
            match f with
            | Continue l' => I (S i) l' s' (t1 ++ t')
            | Return b => Q b s' (t1 ++ t')
            end).
  { intros i l s1 t1 Hi (Hik & -> & ->).
    unfold checkDistanceToFirstWaypoint_body. unfold_m.
    assert (Hc : (i < k)%nat \/ i = k) by lia. destruct Hc as [Hc| ->].
    - destruct (Hbefore i Hc) as (it & -> & ->). cbn.
      repeat split. lia.
    - rewrite Hitem, Hpos. cbn [negb]. unfold Q, out, distance_from_home.
      destruct (F32.lt _ d); reflexivity. }
  assert (I0 : I 0%nat tt s []) by (repeat split; lia).
  pose proof (for_loop_inv _ _ I Q Hbody (count mission) 0%nat tt s []
                eq_refl I0) as H.
  unfold checkDistanceToFirstWaypoint, bind. rewrite Hd.
  destruct (for_loop _ _ _ _ _) as [[[l|b] s1] t1]; cbn.
  - destruct H as (H & _). lia.
  - unfold Q in H. cbn in H. rewrite app_nil_r. exact H.
Qed.

Lemma no_positional_loop {L} P mission (body : nat -> L -> M (flow L)) l s :
  (forall i l1 s1 it, dm_read P (dataman_id mission) i = Some it ->
     item_contains_position P it = false ->
     body i l1 s1 = (Continue l1, s1, [])) ->
  no_positional P mission ->
  for_loop (count mission) 0 body l s = (Continue l, s, []).
Proof.
  intros Hb Hno.
  pose proof (for_loop_inv body (count mission)
                (fun _ l1 s1 t1 => l1 = l /\ s1 = s /\ t1 = [])
                (fun _ _ _ => False)) as H.
  assert (Hbody : forall i l1 s1 t1, (i < count mission)%nat ->
            l1 = l /\ s1 = s /\ t1 = [] ->
            let '(f, s', t') := body i l1 s1 in
            match f with
            | Continue l' => l' = l /\ s' = s /\ t1 ++ t' = []
            | Return _ => False
            end).
  { intros i l1 s1 t1 Hi (-> & -> & ->).
    destruct (Hno i Hi) as (it & Hit & Hpos).
    rewrite (Hb i l s it Hit Hpos). auto. }
  specialize (H Hbody (count mission) 0%nat l s [] eq_refl
                (conj eq_refl (conj eq_refl eq_refl))).
  destruct (for_loop _ _ _ _ _) as [[[l'|b] s'] t']; [|contradiction].
  destruct H as (-> & -> & H). cbn in H. now subst.
Qed.

(** X7: on a mission whose items can all be read and none of which has a
    position, both distance checks pass, send nothing and leave the checker
    as it was, whatever the maxima are. *)
Theorem no_positional_distance_checks_pass P nav mission d s :
  no_positional P mission ->
  checkDistanceToFirstWaypoint P nav mission d s = (true, s, [])
  /\ checkDistancesBetweenWaypoints P mission d s = (true, s, []).
Proof.
  intros Hno. split.
  - unfold checkDistanceToFirstWaypoint, bind.
    destruct (F32.le d F32.zero); [reflexivity|].
    rewrite (no_positional_loop P mission); auto.
    intros i l1 s1 it Hit Hpos. destruct l1.
    unfold checkDistanceToFirstWaypoint_body. unfold_m.
    rewrite Hit, Hpos. reflexivity.
  - unfold checkDistancesBetweenWaypoints, bind.
    destruct (F32.le d F32.zero); [reflexivity|].
    rewrite (no_positional_loop P mission); auto.
    intros i l1 s1 it Hit Hpos.
    unfold checkDistancesBetweenWaypoints_body. unfold_m.
    rewrite Hit, Hpos. reflexivity.
Qed.

Lemma checkDistancesBetweenWaypoints_loop P mission d s :
  let '(f, _, _) :=
    for_loop (count mission) 0
      (checkDistancesBetweenWaypoints_body P mission d)
      {| last_lat := S754_nan; last_lon := S754_nan; last_cmd := None |} s in
  match f with
  | Continue _ =>
      (forall i, (i < count mission)%nat ->
         dm_read P (dataman_id mission) i <> None)
      /\ forall j k a b, consecutive_positional P mission j k a b ->
           segment_checked P d a b
  | Return b => b = false
  end.
Proof.
  set (I := fun (i : nat) (l : dist_locals) (_ : checker) (_ : list output) =>
              (forall m, (m < i)%nat -> dm_read P (dataman_id mission) m <> None)
              /\ (forall j k a b, (k < i)%nat ->
                    consecutive_positional P mission j k a b ->
                    segment_checked P d a b)
              /\ tracks_last P mission i l).
  assert (Hbody : forall i l s1 t1, (i < count mission)%nat -> I i l s1 t1 ->
            let '(f, s', t') :=
              checkDistancesBetweenWaypoints_body P mission d i l s1 in
            match f with
            | Continue l' => I (S i) l' s' (t1 ++ t')
            | Return b => b = false
            end).
  { intros i l s1 t1 Hi (Hread & Hpairs & Hlast).
    unfold checkDistancesBetweenWaypoints_body. unfold_m.
    destruct (dm_read P (dataman_id mission) i) as [it|] eqn:Hit;
      [|reflexivity].
    assert (Hread' : forall m, (m < S i)%nat ->
              dm_read P (dataman_id mission) m <> None).
    { intros m Hm. assert (Hc : (m < i)%nat \/ m = i) by lia.
      destruct Hc as [Hc| ->]; [auto | congruence]. }
    destruct (item_contains_position P it) eqn:Hpos; cbn [negb].
    - (* an item with a position *)
      assert (Hlast' : tracks_last P mission (S i)
                         {| last_lat := lat it; last_lon := lon it;
                            last_cmd := Some (nav_cmd_of it) |}).
      { intros j a Hj Ha Hpa Hnone.
        assert (Hc : (j < i)%nat \/ j = i) by lia. destruct Hc as [Hc| ->].
        - specialize (Hnone i ltac:(lia) it Hit). congruence.
        - assert (a = it) by congruence. subst a. cbn. auto. }
      assert (Hpair : PX4_ISFINITE (last_lat l) && PX4_ISFINITE (last_lon l)
                      = true ->
                F32.gt (get_distance_to_next_waypoint P (lat it) (lon it)
                          (last_lat l) (last_lon l)) d = false ->
                F32.lt (get_distance_to_next_waypoint P (lat it) (lon it)
                          (last_lat l) (last_lon l)) F32.c0_05
                && ((nav_cmd_of it ==c NAV_CMD_CONDITION_GATE)
                    || last_cmd_is l NAV_CMD_CONDITION_GATE) = false ->
                forall j a b, consecutive_positional P mission j i a b ->
                  segment_checked P d a b).
      { intros _ Hgt Hgate j a b (Hj & Ha & [_ Hb] & Hpa & _ & Hnone) _.
        assert (b = it) by congruence. subst b.
        destruct (Hlast j a Hj Ha Hpa Hnone) as (E1 & E2 & E3).
        unfold distance_between. unfold last_cmd_is in Hgate.
        rewrite E1, E2 in Hgt. rewrite E1, E2, E3 in Hgate. auto. }
      assert (Hskip : PX4_ISFINITE (last_lat l) && PX4_ISFINITE (last_lon l)
                      = false ->
                forall j a b, consecutive_positional P mission j i a b ->
                  segment_checked P d a b).
      { intros Hfin j a b (Hj & Ha & _ & Hpa & _ & Hnone) Hfa.
        destruct (Hlast j a Hj Ha Hpa Hnone) as (E1 & E2 & _).
        rewrite E1, E2 in Hfin. congruence. }
      assert (Hall : (forall j a b, consecutive_positional P mission j i a b ->
                        segment_checked P d a b) ->
                I (S i) {| last_lat := lat it; last_lon := lon it;
                           last_cmd := Some (nav_cmd_of it) |} s1 (t1 ++ [])).
      { intros Hi'. split; [exact Hread'|]. split; [|exact Hlast'].
        intros j k a b Hk Hc.
        assert (Hc' : (k < i)%nat \/ k = i) by lia. destruct Hc' as [Hc'| ->].
        - eapply Hpairs; eauto.
        - eapply Hi'; eauto. }
      destruct (PX4_ISFINITE (last_lat l) && PX4_ISFINITE (last_lon l)) eqn:Hfin;
        [destruct (F32.gt _ d) eqn:Hgt;
         [|destruct (F32.lt _ F32.c0_05 && _) eqn:Hgate]|];
        cbv beta iota zeta; try reflexivity; apply Hall;
        first [ apply Hpair; solve [auto] | apply Hskip; reflexivity ].
    - (* an item without a position *)
      cbv beta iota zeta. split; [exact Hread'|]. split.
      + intros j k a b Hk Hc.
        assert (Hc' : (k < i)%nat \/ k = i) by lia. destruct Hc' as [Hc'| ->].
        * eapply Hpairs; eauto.
        * destruct Hc as (_ & _ & [_ Hb] & _ & Hpb & _). congruence.
      + intros j a Hj Ha Hpa Hnone.
        assert (Hc : (j < i)%nat \/ j = i) by lia. destruct Hc as [Hc| ->].
        * apply (Hlast j a Hc Ha Hpa). intros m Hm. apply Hnone. lia.
        * congruence. }
  assert (I0 : I 0%nat {| last_lat := S754_nan; last_lon := S754_nan;
                         last_cmd := None |} s []).
  { split; [intros m Hm; lia|]. split; [intros j k a b Hk; lia|].
    intros j a Hj. lia. }
  pose proof (for_loop_inv _ _ I (fun b _ _ => b = false) Hbody
                (count mission) 0%nat _ s [] eq_refl I0) as H.
  destruct (for_loop _ _ _ _ _) as [[[l|b] s1] t1]; [|exact H].
  destruct H as (Hread & Hpairs & _). split; [exact Hread|].
  intros j k a b Hc. apply (Hpairs j k a b); [|exact Hc].
  now destruct Hc as (_ & _ & [Hk _] & _).
Qed.

(** X8: when the maximum is positive and [checkDistancesBetweenWaypoints]
    passes, every item was read, and for any two items with a position that
    follow one another, the first with finite latitude and longitude, the
    distance between them is not above the maximum and, if one of the two
    is a condition gate, not below 0.05 m. *)
Theorem waypoints_within_distance P mission d s :
  F32.le d F32.zero = false ->
  result_of (checkDistancesBetweenWaypoints P mission d s) = true ->
  (forall i, (i < count mission)%nat ->
     dm_read P (dataman_id mission) i <> None)
  /\ forall j k a b, consecutive_positional P mission j k a b ->
       PX4_ISFINITE (lat a) && PX4_ISFINITE (lon a) = true ->
       F32.gt (distance_between P a b) d = false
       /\ F32.lt (distance_between P a b) F32.c0_05
          && ((nav_cmd_of b ==c NAV_CMD_CONDITION_GATE)
              || (nav_cmd_of a ==c NAV_CMD_CONDITION_GATE)) = false.
Proof.
  intros Hd. pose proof (checkDistancesBetweenWaypoints_loop P mission d s) as H.
  unfold checkDistancesBetweenWaypoints, bind. rewrite Hd.
  destruct (for_loop _ _ _ _ _) as [[[l|b] s1] t1]; cbn.
  - intros _. exact H.
  - subst b. discriminate.
Qed.

(** ** Loops that test every item *)

(** A loop whose body falls through exactly on the items that pass [ok],
    and leaves with [false] otherwise, runs to its end exactly when every
    item can be read and passes. *)
Lemma all_items_loop P mission (body : nat -> unit -> M (flow unit))
  (ok : nat -> mission_item_s -> bool) s :
  (forall i l s1,
     exists s' t,
       body i l s1
       = (match dm_read P (dataman_id mission) i with
          | Some item => if ok i item then Continue tt else Return false
          | None => Return false
          end, s', t)) ->
  let '(f, _, _) := for_loop (count mission) 0 body tt s in
  match f with
  | Continue _ => all_items P mission ok
  | Return b => b = false /\ ~ all_items P mission ok
  end.
Proof.
  intros Hb.
  set (I := fun (i : nat) (_ : unit) (_ : checker) (_ : list output) =>
              forall j, (j < i)%nat ->
                exists item, dm_read P (dataman_id mission) j = Some item
                             /\ ok j item = true).
  set (Q := fun (b : bool) (_ : checker) (_ : list output) =>
              b = false /\ ~ all_items P mission ok).
  assert (Hbody : forall i l s1 t1, (i < count mission)%nat -> I i l s1 t1 ->
            let '(f, s', t') := body i l s1 in
            match f with
            | Continue l' => I (S i) l' s' (t1 ++ t')
            | Return b => Q b s' (t1 ++ t')
            end).
  { intros i l s1 t1 Hi HI. destruct (Hb i l s1) as (s' & t' & ->).
    destruct (dm_read P (dataman_id mission) i) as [item|] eqn:Hitem;
      [destruct (ok i item) eqn:Hok|].
    - intros j Hj. assert (Hc : (j < i)%nat \/ j = i) by lia.
      destruct Hc as [Hc| ->]; [now apply HI | eauto].
    - split; [reflexivity|]. intros Hall.
      destruct (Hall i Hi) as (it & Hit & Hok'). congruence.
    - split; [reflexivity|]. intros Hall.
      destruct (Hall i Hi) as (it & Hit & _). congruence. }
  assert (I0 : I 0%nat tt s []) by (intros j Hj; lia).
  pose proof (for_loop_inv _ _ I Q Hbody (count mission) 0%nat tt s []
                eq_refl I0) as H.
  destruct (for_loop _ _ _ _ _) as [[[l|b] s1] t1]; exact H.
Qed.

(** ** The geofence *)

Lemma checkGeofence_body_outcome P nav mission h hv i l s :
  exists s' t,
    checkGeofence_body P nav mission h hv i l s
    = (match dm_read P (dataman_id mission) i with
       | Some item =>
           if geofence_item_ok P nav h hv item then Continue tt
           else Return false
       | None => Return false
       end, s', t).
Proof.
  unfold checkGeofence_body. unfold_m. unfold geofence_item_ok, geofence_item.
  destruct (dm_read P (dataman_id mission) i) as [item|]; [|eauto].
  destruct (altitude_is_relative item && negb hv); [cbn; eauto|].
  destruct (item_contains_position P _ && negb (geofence_check nav _));
    cbn; eauto.
Qed.

(** X9: with a valid geofence, [checkGeofence] passes exactly when the
    geofence does not ask for a home position that is missing and every
    item can be read, does not use a relative altitude without a valid
    home position and, if it has a position, is accepted by the geofence
    with its altitude above mean sea level. *)
Theorem checkGeofence_pass_iff P nav mission h hv s :
  geofence_valid nav = true ->
  (result_of (checkGeofence P nav mission h hv s) = true
   <-> geofence_isHomeRequired nav && negb hv = false
       /\ all_items P mission (fun _ => geofence_item_ok P nav h hv)).
Proof.
  intros Hvalid. unfold checkGeofence. rewrite Hvalid.
  destruct (geofence_isHomeRequired nav && negb hv).
  { cbn. split; [discriminate | intros [H _]; discriminate]. }
  pose proof (all_items_loop P mission (checkGeofence_body P nav mission h hv)
                (fun _ => geofence_item_ok P nav h hv) s
                (checkGeofence_body_outcome P nav mission h hv)) as H.
  unfold bind.
  destruct (for_loop _ _ _ _ _) as [[[l|b] s1] t1]; cbn.
  - split; [intros _; split; [reflexivity | exact H] | reflexivity].
  - destruct H as [-> Hn].
    split; [discriminate | intros [_ Ha]; contradiction].
Qed.

(** ** The home altitude *)

Lemma checkHomePositionAltitude_body_outcome P mission h hv i l s :
  exists s' t,
    checkHomePositionAltitude_body P mission h hv i l s
    = (match dm_read P (dataman_id mission) i with
       | Some item =>
           if negb (altitude_is_relative item && negb hv
                    && item_contains_position P item)
           then Continue tt else Return false
       | None => Return false
       end, s', t).
Proof.
  unfold checkHomePositionAltitude_body. unfold_m.
  destruct (dm_read P (dataman_id mission) i) as [item|]; [|cbn; eauto].
  destruct (altitude_is_relative item && negb hv
            && item_contains_position P item); [cbn; eauto|].
  destruct (hv && F32.gt h (alt_amsl h item) && item_contains_position P item);
    cbn; eauto.
Qed.

(** X10: [checkHomePositionAltitude] passes exactly when every item can
    be read and no item with a position uses a relative altitude while the
    home altitude is not valid; an item below home never makes it fail. *)
Theorem checkHomePositionAltitude_pass_iff P mission h hv s :
  result_of (checkHomePositionAltitude P mission h hv s) = true
  <-> all_items P mission
        (fun _ item => negb (altitude_is_relative item && negb hv
                             && item_contains_position P item)).
Proof.
  pose proof (all_items_loop P mission
                (checkHomePositionAltitude_body P mission h hv)
                (fun _ item => negb (altitude_is_relative item && negb hv
                                     && item_contains_position P item)) s
                (checkHomePositionAltitude_body_outcome P mission h hv)) as H.
  unfold checkHomePositionAltitude, bind.
  destruct (for_loop _ _ _ _ _) as [[[l|b] s1] t1]; cbn.
  - split; [intros _; exact H | reflexivity].
  - destruct H as [-> Hn]. split; [discriminate | intros Ha; contradiction].
Qed.

(** ** The takeoff sequence *)

Lemma checkTakeoff_loop_locals P nav mission h s :
  let '(f, s1, t1) :=
    for_loop (count mission) 0 (checkTakeoff_body P nav mission h) (false, -1) s in
  match f with
  | Continue l => takeoff_loop_inv P nav mission h s (count mission) l s1 t1
  | Return b => b = false /\ ~ reaches P nav mission h (count mission)
  end.
Proof.
  assert (Hbody : forall i l s1 t1, (i < count mission)%nat ->
            takeoff_loop_inv P nav mission h s i l s1 t1 ->
            let '(f, s', t') := checkTakeoff_body P nav mission h i l s1 in
            match f with
            | Continue l' =>
                takeoff_loop_inv P nav mission h s (S i) l' s' (t1 ++ t')
            | Return b => b = false /\ ~ reaches P nav mission h (count mission)
            end).
  { intros i [tf ti] s1 t1 Hi (-> & R & Hw & Hl & Ht & Hf & Hidx).
    cbn [fst snd] in *.
    unfold checkTakeoff_body. unfold_m.
    destruct (dm_read P (dataman_id mission) i) as [item|] eqn:Hitem.
    2: { split; [reflexivity|]. intros Rc.
         destruct (Rc i Hi) as (it & Hit & _). congruence. }
    destruct (is_takeoff_cmd (nav_cmd_of item)) eqn:Hto.
    - destruct (takeoff_too_low P nav h item) eqn:Hlow.
      { split; [reflexivity|]. intros Rc.
        destruct (Rc i Hi) as (it & Hit & Hok).
        assert (it = item) by congruence. subst it.
        rewrite Hto, Hlow in Hok. discriminate. }
      assert (Hat : takeoff_at P mission i) by (exists item; auto).
      assert (R' : reaches P nav mission h (S i)).
      { intros j Hj. assert (Hc : (j < i)%nat \/ j = i) by lia.
        destruct Hc as [Hc| ->]; [auto|]. exists item. now rewrite Hto, Hlow. }
      assert (Ht' : true = true <->
                _has_takeoff s = true
                \/ exists j, (j < S i)%nat /\ takeoff_at P mission j).
      { split; [|reflexivity]. intros _. right. exists i. split; [lia|auto]. }
      destruct (i =? 0)%nat eqn:Hi0.
      + apply Nat.eqb_eq in Hi0. subst i. cbv beta iota zeta.
        repeat split; cbn [fst snd warning _has_landing _has_takeoff]; auto;
          try (intros _; right; exists 0%nat; split; [lia|auto]);
          try lia.
        destruct Hidx as [[-> Hn]|(k & _ & (Hk & _))]; [|lia].
        left. split; [reflexivity|]. intros j Hj. lia.
      + apply Nat.eqb_neq in Hi0.
        assert (Hf' : tf = true <-> (0 < S i)%nat /\ takeoff_at P mission 0).
        { rewrite Hf. split; intros [? ?]; split; auto; lia. }
        destruct (ti =? -1) eqn:Hti; cbv beta iota zeta.
        * apply Z.eqb_eq in Hti. subst ti.
          destruct Hidx as [[_ Hn]|(k & Hk & _)]; [|lia].
          repeat split; cbn [fst snd warning _has_landing _has_takeoff]; auto;
            try apply Ht'; try apply Hf'; auto.
          right. exists i. split; [reflexivity|].
          split; [lia|]. split; [exact Hat|]. intros j Hj. apply Hn. lia.
        * apply Z.eqb_neq in Hti.
          destruct Hidx as [[Hn _]|(k & Hk & (Hk1 & Hk2 & Hk3))];
            [contradiction|].
          repeat split; cbn [fst snd warning _has_landing _has_takeoff]; auto;
            try apply Ht'; try apply Hf'; auto.
          right. exists k. split; [exact Hk|].
          split; [lia|]. split; auto.
    - assert (Hnot : ~ takeoff_at P mission i).
      { intros (it & Hit & Hit'). congruence. }
      assert (R' : reaches P nav mission h (S i)).
      { intros j Hj. assert (Hc : (j < i)%nat \/ j = i) by lia.
        destruct Hc as [Hc| ->]; [auto|]. exists item. now rewrite Hto. }
      cbv beta iota zeta.
      split; [reflexivity|]. split; [exact R'|].
      split; [exact Hw|]. split; [exact Hl|]. cbn [fst snd].
      split; [|split].
      + rewrite Ht. split; (intros [H|(j & Hj & H)]; [now left|right]).
        * exists j. split; [lia|auto].
        * assert (Hc : (j < i)%nat \/ j = i) by lia.
          destruct Hc as [Hc| ->]; [eauto | contradiction].
      + rewrite Hf. split; intros [H0 H1]; split; auto; try lia.
        assert (Hc : (0 < i)%nat \/ i = 0%nat) by lia.
        destruct Hc as [Hc| ->]; [auto | contradiction].
      + destruct Hidx as [[-> Hn]|(k & Hk & (Hk1 & Hk2 & Hk3))].
        * left. split; [reflexivity|]. intros j Hj.
          assert (Hc : (j < i)%nat \/ j = i) by lia.
          destruct Hc as [Hc| ->]; [apply Hn; lia | exact Hnot].
        * right. exists k. split; [exact Hk|]. split; [lia|]. split; auto. }
  assert (I0 : takeoff_loop_inv P nav mission h s 0 (false, -1) s []).
  { split; [reflexivity|]. split; [intros j Hj; lia|].
    split; [reflexivity|]. split; [reflexivity|]. cbn [fst snd].
    split; [|split].
    - split; [now left|]. intros [H|(j & Hj & _)]; [exact H | lia].
    - split; [discriminate|]. intros [H _]. lia.
    - left. split; [reflexivity|]. intros j Hj. lia. }
  pose proof (for_loop_inv _ _ (takeoff_loop_inv P nav mission h s)
                (fun b _ _ =>
                   b = false /\ ~ reaches P nav mission h (count mission))
                Hbody
                (count mission) 0%nat (false, -1) s [] eq_refl I0) as H.
  destruct (for_loop _ _ _ _ _) as [[[l|b] s1] t1]; exact H.
Qed.

Lemma reaches_readable P nav mission h :
  reaches P nav mission h (count mission) -> readable P mission = true.
Proof.
  intros R. unfold readable. apply forallb_forall. intros i Hi.
  apply in_seq in Hi. destruct (R i ltac:(lia)) as (it & -> & _). reflexivity.
Qed.

Lemma checkTakeoff_scan_state P mission n tf s :
  state_of (for_loop n 0 (checkTakeoff_scan_body P mission) tf s) = s.
Proof.
  pose proof (for_loop_inv (checkTakeoff_scan_body P mission) n
                (fun _ _ s' _ => s' = s) (fun _ s' _ => s' = s)) as Hi.
  assert (Hb : forall i l s0 (t0 : list output), (i < n)%nat -> s0 = s ->
            let '(f, s', t') := checkTakeoff_scan_body P mission i l s0 in
            match f with
            | Continue _ => s' = s
            | Return _ => s' = s
            end).
  { intros i l s0 t0 _ ->. unfold checkTakeoff_scan_body. unfold_m.
    case_split; reflexivity. }
  specialize (Hi Hb n 0%nat tf s [] eq_refl eq_refl).
  destruct (for_loop n 0 _ tf s) as [[[?|?] ?] ?]; exact Hi.
Qed.

Lemma checkTakeoff_passing_loop P nav mission h s :
  result_of (checkTakeoff P nav mission h s) = true ->
  exists l,
    takeoff_loop_inv P nav mission h s (count mission) l
      (state_of (checkTakeoff P nav mission h s)) [].
Proof.
  pose proof (checkTakeoff_loop_locals P nav mission h s) as H.
  destruct (checkTakeoff P nav mission h s) as [[r s'] t] eqn:E.
  cbn [result_of state_of fst snd]. intros Hr. subst r.
  unfold checkTakeoff in E. unfold bind at 1 in E.
  destruct (for_loop _ _ _ _ _) as [[[[tf ti]|b] s1] t1].
  2: { destruct H as [-> _]. cbn in E. discriminate E. }
  assert (s' = s1).
  { revert E. unfold_m. case_split.
    - pose proof (checkTakeoff_scan_state P mission (Z.to_nat ti) tf s1) as Hs.
      destruct (for_loop _ _ _ _ _) as [[[?|?] ?] ?]; cbn in Hs; subst;
        repeat case_split; intros E;
        apply (f_equal state_of) in E; cbn in E; congruence.
    - repeat case_split; intros E;
        apply (f_equal state_of) in E; cbn in E; congruence. }
  subst s'. exists (tf, ti). destruct H as (-> & H). split; [reflexivity|].
  exact H.
Qed.

(** X11: when [checkTakeoff] passes, every item was read and every
    takeoff item is at least the acceptance radius plus 1 m above home; the
    warning flag and the landing flag are as before; and, started with the
    takeoff flag cleared, the takeoff flag is set afterwards exactly when
    the mission has a takeoff item. *)
Theorem checkTakeoff_pass P nav mission h s :
  result_of (checkTakeoff P nav mission h s) = true ->
  (forall i, (i < count mission)%nat ->
     exists item, dm_read P (dataman_id mission) i = Some item
       /\ (is_takeoff_cmd (nav_cmd_of item) = true ->
           F32.lt (F32.sub (takeoff_alt h item) F32.one)
                  (takeoff_acceptance_radius P nav item) = false))
  /\ warning (state_of (checkTakeoff P nav mission h s)) = warning s
  /\ _has_landing (state_of (checkTakeoff P nav mission h s)) = _has_landing s
  /\ (_has_takeoff s = false ->
      (_has_takeoff (state_of (checkTakeoff P nav mission h s)) = true
       <-> exists j, (j < count mission)%nat /\ takeoff_at P mission j)).
Proof.
  intros Hr.
  destruct (checkTakeoff_passing_loop P nav mission h s Hr)
    as (l & _ & R & Hw & Hl & Ht & _ & _).
  split; [|split; [exact Hw | split; [exact Hl|]]].
  - intros i Hi. destruct (R i Hi) as (it & Hit & Hok). exists it.
    split; [exact Hit|]. intros Hto. rewrite Hto in Hok. exact Hok.
  - intros Hs. rewrite Ht, Hs. split.
    + intros [H|H]; [discriminate | exact H].
    + intros H. now right.
Qed.

Lemma first_later_takeoff_unique P mission i k k' :
  first_later_takeoff P mission i k -> first_later_takeoff P mission i k' ->
  k = k'.
Proof.
  intros (Hk & Hat & Hmin) (Hk' & Hat' & Hmin').
  destruct (Nat.lt_trichotomy k k') as [H|[H|H]]; [|assumption|].
  - exfalso. apply (Hmin' k); [lia | exact Hat].
  - exfalso. apply (Hmin k'); [lia | exact Hat'].
Qed.

(** X12: the verdict of [checkTakeoff] on a mission whose items can all
    be read and whose takeoff items are all high enough, started with the
    takeoff flag cleared.  Without a takeoff item at an index above 0 it
    passes and sends nothing.  Otherwise the item directly before the first
    takeoff item at an index above 0 decides: the check passes silently if
    that item is one of the commands allowed before a takeoff, and fails
    with the takeoff-not-first event if it is not. *)
Theorem checkTakeoff_verdict P nav mission h s :
  _has_takeoff s = false ->
  reaches P nav mission h (count mission) ->
  ((forall j, (0 < j < count mission)%nat -> ~ takeoff_at P mission j) ->
   result_of (checkTakeoff P nav mission h s) = true
   /\ trace_of (checkTakeoff P nav mission h s) = [])
  /\ (forall k prev,
        first_later_takeoff P mission (count mission) k ->
        dm_read P (dataman_id mission) (k - 1) = Some prev ->
        result_of (checkTakeoff P nav mission h s)
        = allowed_before_takeoff (nav_cmd_of prev)
        /\ trace_of (checkTakeoff P nav mission h s)
           = if allowed_before_takeoff (nav_cmd_of prev) then []
             else [Send navigator_mis_takeoff_not_first]).
Proof.
  intros Hs R.
  pose proof (checkTakeoff_loop_locals P nav mission h s) as H.
  destruct (checkTakeoff P nav mission h s) as [[r s'] t] eqn:E.
  cbn [result_of trace_of fst snd].
  unfold checkTakeoff in E. unfold bind at 1 in E.
  destruct (for_loop _ _ _ _ _) as [[[[tf ti]|b] s1] t1].
  2: { destruct H as [_ Hn]. contradiction. }
  destruct H as (-> & _ & _ & _ & Ht & Hf & Hidx). cbn [fst snd] in *.
  rewrite Hs in Ht. split.
  - intros Hno.
    destruct Hidx as [[-> _]|(k & _ & (Hk & Hat & _))];
      [|exfalso; apply (Hno k); [lia | exact Hat]].
    revert E. unfold_m. rewrite Z.eqb_refl. cbn [negb]. cbv beta iota zeta.
    assert (Hok : _has_takeoff s1 && negb tf = false).
    { destruct (_has_takeoff s1) eqn:Hh; [|reflexivity].
      destruct (proj1 Ht eq_refl) as [H|(j & Hj & Hat)]; [discriminate|].
      assert (Hc : j = 0%nat \/ (0 < j)%nat) by lia.
      destruct Hc as [->|Hc]; [|exfalso; apply (Hno j); [lia | exact Hat]].
      assert (H0 : (0 < count mission)%nat) by lia.
      rewrite (proj2 Hf (conj H0 Hat)). reflexivity. }
    rewrite Hok. intros [= <- _ <-]. auto.
  - intros k prev Hfirst Hprev.
    destruct Hidx as [[_ Hn]|(k' & -> & Hfirst')].
    { exfalso. destruct Hfirst as (Hk & Hat & _). now apply (Hn k). }
    assert (k' = k) by (eapply first_later_takeoff_unique; eauto). subst k'.
    destruct Hfirst as (Hk & Hat & _).
    revert E. unfold_m.
    replace (Z.of_nat k =? -1) with false by (symmetry; apply Z.eqb_neq; lia).
    cbn [negb]. rewrite Nat2Z.id.
    assert (Hkc : (0 < k <= count mission)%nat) by lia.
    destruct (checkTakeoff_scan_keeps_last P mission k tf s1
                (reaches_readable P nav mission h R) Hkc)
      as (it & Hit & ->).
    assert (it = prev) by congruence. subst it.
    assert (Hh : _has_takeoff s1 = true).
    { apply Ht. right. exists k. split; [lia | exact Hat]. }
    rewrite Hh. cbv beta iota zeta.
    destruct (allowed_before_takeoff (nav_cmd_of prev)); cbn;
      intros [= <- _ <-]; auto.
Qed.

(** ** The landing sequence *)

Ltac tests_to_props :=
  repeat match goal with
         | H : (_ ==c _) = true |- _ => apply cmd_eqb_eq in H
         | H : (_ ==c _) = false |- _ => apply cmd_eqb_neq in H
         end.

Ltac rewrite_tests :=
  repeat match goal with
         | H : (?a ==c ?b) = _ |- context [?a ==c ?b] => rewrite H
         | H : _has_landing ?s = _ |- context [_has_landing ?s] => rewrite H
         end.

(** One iteration of [checkVTOLLanding] that falls through. *)
Lemma checkVTOLLanding_body_continue P mission i l s item l' s' t' :
  dm_read P (dataman_id mission) i = Some item ->
  checkVTOLLanding_body P mission i l s = (Continue l', s', t') ->
  _has_landing s'
  = _has_landing s
    || is_one_of (nav_cmd_of item)
         [NAV_CMD_DO_LAND_START; NAV_CMD_LAND; NAV_CMD_VTOL_LAND]
  /\ (fst l'
      = if nav_cmd_of item ==c NAV_CMD_DO_LAND_START then i else fst l)
  /\ (snd l'
      = if is_one_of (nav_cmd_of item) [NAV_CMD_LAND; NAV_CMD_VTOL_LAND]
        then (i - 1)%nat else snd l)
  /\ ((nav_cmd_of item ==c NAV_CMD_DO_LAND_START) = true ->
      _has_landing s = false)
  /\ (is_one_of (nav_cmd_of item) [NAV_CMD_LAND; NAV_CMD_VTOL_LAND] = true ->
      (0 < i)%nat)
  /\ (nav_cmd_of item = NAV_CMD_RETURN_TO_LAUNCH ->
      _has_landing s && (fst l <? i)%nat = false).
Proof.
  intros Hitem. unfold checkVTOLLanding_body. unfold_m. rewrite Hitem.
  cbn [is_one_of existsb].
  destruct (nav_cmd_of item ==c NAV_CMD_DO_LAND_START) eqn:C1;
    destruct (nav_cmd_of item ==c NAV_CMD_LAND) eqn:C2;
    destruct (nav_cmd_of item ==c NAV_CMD_VTOL_LAND) eqn:C3;
    destruct (_has_landing s) eqn:HL; cbn [orb andb negb];
    repeat case_split; cbv beta iota zeta; intros E;
    try discriminate E; inversion E; subst; clear E;
    cbn [is_one_of existsb _has_landing fst snd]; rewrite_tests;
    (split; [reflexivity|]); (split; [reflexivity|]);
    (split; [reflexivity|]);
    (split; [intros; congruence|]);
    (split; [intros; try discriminate;
             match goal with
             | H : (0 <? _)%nat = true |- _ => now apply Nat.ltb_lt in H
             end|]);
    intros Hr; tests_to_props; try congruence; auto;
    match goal with
    | H : _has_landing ?s = _, H2 : _has_landing ?s && _ = _ |- _ =>
        rewrite H in H2; exact H2
    end.
Qed.

(** One iteration of [checkFixedWingLanding] that falls through. *)
Lemma checkFixedWingLanding_body_continue P nav mission i l s item l' s' t' :
  dm_read P (dataman_id mission) i = Some item ->
  checkFixedWingLanding_body P nav mission i l s = (Continue l', s', t') ->
  _has_landing s'
  = _has_landing s
    || is_one_of (nav_cmd_of item) [NAV_CMD_DO_LAND_START; NAV_CMD_LAND]
  /\ (do_land_start_index l'
      = if nav_cmd_of item ==c NAV_CMD_DO_LAND_START then i
        else do_land_start_index l)
  /\ (landing_valid l'
      = (nav_cmd_of item ==c NAV_CMD_LAND) || landing_valid l)
  /\ (landing_approach_index l'
      = if nav_cmd_of item ==c NAV_CMD_LAND then (i - 1)%nat
        else landing_approach_index l)
  /\ ((nav_cmd_of item ==c NAV_CMD_DO_LAND_START) = true ->
      _has_landing s = false)
  /\ (is_one_of (nav_cmd_of item) [NAV_CMD_LAND] = true -> (0 < i)%nat)
  /\ (nav_cmd_of item = NAV_CMD_RETURN_TO_LAUNCH ->
      _has_landing s && (do_land_start_index l <? i)%nat = false).
Proof.
  intros Hitem. unfold checkFixedWingLanding_body. unfold_m. rewrite Hitem.
  destruct (nav_cmd_of item ==c NAV_CMD_DO_LAND_START) eqn:C1;
    destruct (nav_cmd_of item ==c NAV_CMD_LAND) eqn:C2;
    destruct (_has_landing s) eqn:HL; cbn [orb andb negb];
    repeat case_split; cbv beta iota zeta; intros E;
    try discriminate E; inversion E; subst; clear E;
    cbn [is_one_of existsb _has_landing landing_valid do_land_start_index
         landing_approach_index]; rewrite_tests;
    (split; [reflexivity|]); (split; [reflexivity|]);
    (split; [reflexivity|]); (split; [reflexivity|]);
    (split; [intros; congruence|]);
    (split; [intros; try discriminate;
             match goal with
             | H : (0 <? _)%nat = true |- _ => now apply Nat.ltb_lt in H
             end|]);
    intros Hr; tests_to_props; try congruence; auto;
    match goal with
    | H : _has_landing ?s = _, H2 : _has_landing ?s && _ = _ |- _ =>
        rewrite H in H2; exact H2
    end.
Qed.

(** [landing_inv] at the start of a scan and across one item, with no
    assumption on the other items. *)
Lemma landing_inv_start P mission cmds s :
  _has_landing s = false -> landing_inv P mission cmds 0 s.
Proof.
  intros H. unfold landing_inv. rewrite H. split; [discriminate|].
  intros (j & it & Hj & _). inversion Hj.
Qed.

Lemma landing_inv_step P mission cmds i item s1 s' :
  dm_read P (dataman_id mission) i = Some item ->
  landing_inv P mission cmds i s1 ->
  _has_landing s' = _has_landing s1 || is_one_of (nav_cmd_of item) cmds ->
  landing_inv P mission cmds (S i) s'.
Proof.
  intros Hitem HI E. unfold landing_inv in *. rewrite E, orb_true_iff. split.
  - intros [H|H].
    + apply HI in H. destruct H as (j & it & Hj & H1 & H2).
      exists j, it. repeat split; auto.
    + exists i, item. repeat split; auto.
  - intros (j & it & Hj & H1 & H2).
    assert (Hc : (j < i)%nat \/ j = i) by lia. destruct Hc as [Hc| ->].
    + left. apply HI. eauto.
    + right. congruence.
Qed.

Lemma landing_rules_intro P mission lands cmds i item s d :
  landing_inv P mission cmds i s ->
  (d < Nat.max i 1)%nat ->
  (is_one_of (nav_cmd_of item) lands = true -> (0 < i)%nat) ->
  ((nav_cmd_of item ==c NAV_CMD_DO_LAND_START) = true ->
   _has_landing s = false) ->
  (nav_cmd_of item = NAV_CMD_RETURN_TO_LAUNCH ->
   _has_landing s && (d <? i)%nat = false) ->
  landing_rules P mission lands cmds i item.
Proof.
  intros HI Hd Hland Hdls Hrtl. split; [exact Hland|].
  unfold is_one_of at 1. cbn [existsb]. rewrite orb_false_r, orb_true_iff.
  intros Hc Hex.
  assert (Hs : _has_landing s = true) by (apply HI; exact Hex).
  destruct Hex as (j & _ & Hj & _).
  destruct Hc as [Hc|Hc].
  - apply Hdls in Hc. congruence.
  - apply cmd_eqb_eq in Hc. apply Hrtl in Hc. rewrite Hs in Hc.
    cbn [andb] in Hc. apply Nat.ltb_ge in Hc. lia.
Qed.

Lemma checkVTOLLanding_body_return P mission i l s b s' t' :
  checkVTOLLanding_body P mission i l s = (Return b, s', t') -> b = false.
Proof.
  unfold checkVTOLLanding_body. unfold_m.
  repeat case_split; intros E; inversion E; reflexivity.
Qed.

Lemma checkFixedWingLanding_body_return P nav mission i l s b s' t' :
  checkFixedWingLanding_body P nav mission i l s = (Return b, s', t') ->
  b = false.
Proof.
  unfold checkFixedWingLanding_body. unfold_m.
  repeat case_split; intros E; inversion E; reflexivity.
Qed.

Lemma checkVTOLLanding_body_read P mission i l s l' s' t' :
  checkVTOLLanding_body P mission i l s = (Continue l', s', t') ->
  exists item, dm_read P (dataman_id mission) i = Some item.
Proof.
  unfold checkVTOLLanding_body. unfold_m.
  destruct (dm_read P (dataman_id mission) i) as [item|]; [eauto|].
  discriminate.
Qed.

Lemma checkFixedWingLanding_body_read P nav mission i l s l' s' t' :
  checkFixedWingLanding_body P nav mission i l s = (Continue l', s', t') ->
  exists item, dm_read P (dataman_id mission) i = Some item.
Proof.
  unfold checkFixedWingLanding_body. unfold_m.
  destruct (dm_read P (dataman_id mission) i) as [item|]; [eauto|].
  discriminate.
Qed.

Lemma checkVTOLLanding_loop P mission s :
  _has_landing s = false ->
  let '(f, s', _) :=
    for_loop (count mission) 0 (checkVTOLLanding_body P mission)
      (0%nat, 0%nat) s in
  match f with
  | Continue l => vtol_inv P mission (count mission) l s'
  | Return b => b = false
  end.
Proof.
  intros Hs.
  pose proof (for_loop_inv (checkVTOLLanding_body P mission) (count mission)
                (fun i l s1 _ => vtol_inv P mission i l s1)
                (fun b _ _ => b = false)) as H.
  assert (Hbody : forall i l s1 (t1 : list output), (i < count mission)%nat ->
            vtol_inv P mission i l s1 ->
            let '(f, s', t') := checkVTOLLanding_body P mission i l s1 in
            match f with
            | Continue l' => vtol_inv P mission (S i) l' s'
            | Return b => b = false
            end).
  { intros i l s1 _ Hi (HI & Hd & Hrules & Hland & Hdls).
    destruct (checkVTOLLanding_body P mission i l s1) as [[[l'|b] s'] t']
      eqn:E.
    - destruct (checkVTOLLanding_body_read _ _ _ _ _ _ _ _ E) as [item Hitem].
      destruct (checkVTOLLanding_body_continue _ _ _ _ _ _ _ _ _ Hitem E)
        as (F1 & F2 & F3 & F4 & F5 & F6).
      split; [eapply landing_inv_step; [exact Hitem | exact HI | exact F1]|].
      split; [rewrite F2; destruct (_ ==c _); lia|].
      split.
      { intros k it Hk Hit.
        assert (Hc : (k < i)%nat \/ k = i) by lia. destruct Hc as [Hc| ->].
        + now apply Hrules.
        + assert (it = item) by congruence. subst it.
          exact (landing_rules_intro _ _ _ _ _ _ _ _ HI Hd F5 F4 F6). }
      split.
      { rewrite F3.
        destruct (is_one_of (nav_cmd_of item)
                    [NAV_CMD_LAND; NAV_CMD_VTOL_LAND]) eqn:C.
        - intros Hpos. exists item.
          replace (i - 1 + 1)%nat with i by lia. repeat split; auto.
        - intros Hv. destruct (Hland Hv) as (it & H1 & H2 & H3).
          exists it. repeat split; auto. }
      { intros k it Hk Hit Hcmd. rewrite F2.
        assert (Hc : (k < i)%nat \/ k = i) by lia. destruct Hc as [Hc| ->].
        - destruct (nav_cmd_of item ==c NAV_CMD_DO_LAND_START).
          + exfalso. specialize (F4 eq_refl).
            assert (Ht : _has_landing s1 = true).
            { apply HI. exists k, it. repeat split; auto.
              cbn. rewrite Hcmd. unfold cmd_eqb.
              destruct (nav_cmd_eq_dec _ _); [reflexivity|congruence]. }
            congruence.
          + now apply (Hdls k it).
        - assert (it = item) by congruence. subst it.
          apply cmd_eqb_eq in Hcmd. now rewrite Hcmd. }
    - exact (checkVTOLLanding_body_return _ _ _ _ _ _ _ _ E). }
  specialize (H Hbody (count mission) 0%nat (0%nat, 0%nat) s [] eq_refl).
  assert (H0 : vtol_inv P mission 0 (0%nat, 0%nat) s).
  { split; [apply landing_inv_start; exact Hs|].
    split; [cbn; lia|].
    split; [intros k it Hk; lia|].
    split; [cbn; lia|]. intros k it Hk. lia. }
  specialize (H H0).
  destruct (for_loop _ _ _ _ _) as [[[l|b] s1] t1]; exact H.
Qed.

Lemma checkFixedWingLanding_loop P nav mission s :
  _has_landing s = false ->
  let '(f, s', _) :=
    for_loop (count mission) 0 (checkFixedWingLanding_body P nav mission)
      {| landing_valid := false; do_land_start_index := 0%nat;
         landing_approach_index := 0%nat |} s in
  match f with
  | Continue l => fw_inv P mission (count mission) l s'
  | Return b => b = false
  end.
Proof.
  intros Hs.
  pose proof (for_loop_inv (checkFixedWingLanding_body P nav mission)
                (count mission)
                (fun i l s1 _ => fw_inv P mission i l s1)
                (fun b _ _ => b = false)) as H.
  assert (Hbody : forall i l s1 (t1 : list output), (i < count mission)%nat ->
            fw_inv P mission i l s1 ->
            let '(f, s', t') :=
              checkFixedWingLanding_body P nav mission i l s1 in
            match f with
            | Continue l' => fw_inv P mission (S i) l' s'
            | Return b => b = false
            end).
  { intros i l s1 _ Hi (HI & Hd & Hrules & Hvalid & Hdls).
    destruct (checkFixedWingLanding_body P nav mission i l s1)
      as [[[l'|b] s'] t'] eqn:E.
    - destruct (checkFixedWingLanding_body_read _ _ _ _ _ _ _ _ _ E)
        as [item Hitem].
      destruct (checkFixedWingLanding_body_continue
                  _ _ _ _ _ _ _ _ _ _ Hitem E)
        as (F1 & F2 & F3 & F4 & F5 & F6 & F7).
      split; [eapply landing_inv_step; [exact Hitem | exact HI | exact F1]|].
      split; [rewrite F2; destruct (_ ==c _); lia|].
      split.
      { intros k it Hk Hit.
        assert (Hc : (k < i)%nat \/ k = i) by lia. destruct Hc as [Hc| ->].
        + now apply Hrules.
        + assert (it = item) by congruence. subst it.
          exact (landing_rules_intro _ _ _ _ _ _ _ _ HI Hd F6 F5 F7). }
      split.
      { rewrite F3, F4.
        destruct (nav_cmd_of item ==c NAV_CMD_LAND) eqn:C.
        - intros _. exists item.
          assert (0 < i)%nat by (apply F6; cbn; now rewrite C).
          replace (i - 1 + 1)%nat with i by lia.
          apply cmd_eqb_eq in C. repeat split; auto.
        - cbn [orb]. intros Hv. destruct (Hvalid Hv) as (it & H1 & H2 & H3).
          exists it. repeat split; auto. }
      { intros k it Hk Hit Hcmd. rewrite F2.
        assert (Hc : (k < i)%nat \/ k = i) by lia. destruct Hc as [Hc| ->].
        - destruct (nav_cmd_of item ==c NAV_CMD_DO_LAND_START).
          + exfalso. specialize (F5 eq_refl).
            assert (Ht : _has_landing s1 = true).
            { apply HI. exists k, it. repeat split; auto.
              cbn. rewrite Hcmd. unfold cmd_eqb.
              destruct (nav_cmd_eq_dec _ _); [reflexivity|congruence]. }
            congruence.
          + now apply (Hdls k it).
        - assert (it = item) by congruence. subst it.
          apply cmd_eqb_eq in Hcmd. now rewrite Hcmd. } 
    - exact (checkFixedWingLanding_body_return _ _ _ _ _ _ _ _ _ E). }
  specialize (H Hbody (count mission) 0%nat
                {| landing_valid := false; do_land_start_index := 0%nat;
                   landing_approach_index := 0%nat |} s [] eq_refl).
  match type of H with
  | ?A -> _ => assert (H0 : A)
  end.
  { split; [apply landing_inv_start; exact Hs|].
    split; [cbn; lia|].
    split; [intros k it Hk; lia|].
    split; [cbn; discriminate|]. intros k it Hk. lia. }
  specialize (H H0).
  destruct (for_loop _ _ _ _ _) as [[[l|b] s1] t1]; exact H.
Qed.

(** X13: a mission that passes [checkVTOLLanding] keeps the order rules of
    the landing sequence at every item: a [LAND] or [VTOL_LAND] item is not
    the first item, and no [DO_LAND_START], [LAND] or [VTOL_LAND] item comes
    before a [DO_LAND_START] or a [RETURN_TO_LAUNCH] item. *)
Theorem checkVTOLLanding_order P mission s :
  _has_landing s = false ->
  result_of (checkVTOLLanding P mission s) = true ->
  forall k item, item_at P mission k item ->
    landing_rules P mission [NAV_CMD_LAND; NAV_CMD_VTOL_LAND]
      [NAV_CMD_DO_LAND_START; NAV_CMD_LAND; NAV_CMD_VTOL_LAND] k item.
Proof.
  intros Hs. pose proof (checkVTOLLanding_loop P mission s Hs) as H.
  unfold checkVTOLLanding. unfold_m.
  destruct (for_loop _ _ _ _ _) as [[[[a b]|r] s1] t1].
  - intros _ k item [Hk Hitem]. destruct H as (_ & _ & Hrules & _).
    now apply Hrules.
  - cbn. intros Hr. congruence.
Qed.

(** X14: a mission that passes [checkFixedWingLanding] keeps the order
    rules of the landing sequence at every item: a [LAND] item is not the
    first item, and no [DO_LAND_START] or [LAND] item comes before a
    [DO_LAND_START] or a [RETURN_TO_LAUNCH] item. *)
Theorem checkFixedWingLanding_order P nav mission s :
  _has_landing s = false ->
  result_of (checkFixedWingLanding P nav mission s) = true ->
  forall k item, item_at P mission k item ->
    landing_rules P mission [NAV_CMD_LAND]
      [NAV_CMD_DO_LAND_START; NAV_CMD_LAND] k item.
Proof.
  intros Hs. pose proof (checkFixedWingLanding_loop P nav mission s Hs) as H.
  unfold checkFixedWingLanding. unfold_m.
  destruct (for_loop _ _ _ _ _) as [[[l|r] s1] t1].
  - intros _ k item [Hk Hitem]. destruct H as (_ & _ & Hrules & _).
    now apply Hrules.
  - cbn. intros Hr. congruence.
Qed.

(** X15: in a mission that passes [checkFixedWingLanding], every
    [DO_LAND_START] item is followed by a [LAND] item. *)
Theorem fixed_wing_land_start_has_land P nav mission s :
  _has_landing s = false ->
  result_of (checkFixedWingLanding P nav mission s) = true ->
  forall k item, item_at P mission k item ->
    nav_cmd_of item = NAV_CMD_DO_LAND_START ->
    exists j it, (k < j)%nat /\ item_at P mission j it
                 /\ nav_cmd_of it = NAV_CMD_LAND.
Proof.
  intros Hs. pose proof (checkFixedWingLanding_loop P nav mission s Hs) as H.
  unfold checkFixedWingLanding. unfold_m.
  destruct (for_loop _ _ _ _ _) as [[[l|r] s1] t1].
  - destruct H as (HI & _ & _ & Hvalid & Hdls).
    intros Hres k item [Hk Hitem] Hcmd.
    assert (Ht : _has_landing s1 = true).
    { apply HI. exists k, item. repeat split; auto.
      cbn. rewrite Hcmd. unfold cmd_eqb.
      destruct (nav_cmd_eq_dec _ _); [reflexivity|congruence]. }
    rewrite Ht in Hres. cbn [andb] in Hres.
    destruct (landing_valid l) eqn:Hv; cbn [negb orb] in Hres;
      [|discriminate Hres].
    destruct (landing_approach_index l <? do_land_start_index l)%nat eqn:Hlt;
      [discriminate Hres|].
    apply Nat.ltb_ge in Hlt. rewrite (Hdls k item Hk Hitem Hcmd) in Hlt.
    destruct (Hvalid eq_refl) as (it & H1 & H2 & H3).
    exists (landing_approach_index l + 1)%nat, it.
    split; [lia|]. split; [split; assumption|assumption].
  - cbn. intros Hr. congruence.
Qed.

(** X16: in a mission that passes [checkVTOLLanding], a [DO_LAND_START]
    item that is not the first item is followed by a [LAND] or [VTOL_LAND]
    item. *)
Theorem vtol_land_start_has_land P mission s :
  _has_landing s = false ->
  result_of (checkVTOLLanding P mission s) = true ->
  forall k item, (0 < k)%nat -> item_at P mission k item ->
    nav_cmd_of item = NAV_CMD_DO_LAND_START ->
    exists j it, (k < j)%nat /\ item_at P mission j it
                 /\ is_one_of (nav_cmd_of it)
                      [NAV_CMD_LAND; NAV_CMD_VTOL_LAND] = true.
Proof.
  intros Hs. pose proof (checkVTOLLanding_loop P mission s Hs) as H.
  unfold checkVTOLLanding. unfold_m.
  destruct (for_loop _ _ _ _ _) as [[[[a b]|r] s1] t1].
  - destruct H as (HI & _ & _ & Hland & Hdls). cbn [fst snd] in *.
    intros Hres k item Hpos [Hk Hitem] Hcmd.
    assert (Ht : _has_landing s1 = true).
    { apply HI. exists k, item. repeat split; auto.
      cbn. rewrite Hcmd. unfold cmd_eqb.
      destruct (nav_cmd_eq_dec _ _); [reflexivity|congruence]. }
    rewrite Ht in Hres. cbn [andb] in Hres.
    destruct (b <? a)%nat eqn:Hlt; [discriminate Hres|].
    apply Nat.ltb_ge in Hlt. rewrite (Hdls k item Hk Hitem Hcmd) in Hlt.
    destruct (Hland ltac:(lia)) as (it & H1 & H2 & H3).
    exists (b + 1)%nat, it.
    split; [lia|]. split; [split; assumption|assumption].
  - cbn. intros Hr. congruence.
Qed.

Lemma checkFixedWingLanding_body_altitude P nav mission i l s1 :
  let '(f, _, _) := checkFixedWingLanding_body P nav mission i l s1 in
  match f with
  | Continue _ =>
      forall item, dm_read P (dataman_id mission) i = Some item ->
        nav_cmd_of item = NAV_CMD_LAND ->
        exists previous,
          (0 < i)%nat
          /\ dm_read P (dataman_id mission) (i - 1) = Some previous
          /\ F32.lt (relative_approach_altitude nav item previous)
                    F32.FLT_EPSILON = false
  | Return b => b = false
  end.
Proof.
  unfold checkFixedWingLanding_body. unfold_m.
  destruct (dm_read P (dataman_id mission) i) as [item|] eqn:Hitem;
    [|reflexivity].
  destruct (nav_cmd_of item ==c NAV_CMD_LAND) eqn:C.
  - repeat case_split; cbv beta iota zeta; try reflexivity;
      intros item' [= <-] _;
      match goal with
      | Hp : dm_read _ _ (i - 1) = Some ?prev |- _ => exists prev
      end;
      repeat match goal with
             | H : (0 <? _)%nat = true |- _ => apply Nat.ltb_lt in H
             end;
      repeat split; auto.
  - repeat case_split; cbv beta iota zeta; try reflexivity;
      intros item' [= <-] E; apply cmd_eqb_neq in C; congruence.
Qed.

(** X17: when the fixed-wing landing check passes, the item before every
    [LAND] item is not below it: the comparison of their altitude difference
    with [FLT_EPSILON] is false, so the difference is at least [FLT_EPSILON]
    unless it is a NaN. *)
Theorem approach_is_above_land P nav mission s :
  result_of (checkFixedWingLanding P nav mission s) = true ->
  forall i item, item_at P mission i item -> nav_cmd_of item = NAV_CMD_LAND ->
    exists previous,
      (0 < i)%nat
      /\ dm_read P (dataman_id mission) (i - 1) = Some previous
      /\ F32.lt (relative_approach_altitude nav item previous)
                F32.FLT_EPSILON = false
      /\ (F32.is_nan (relative_approach_altitude nav item previous) = false ->
          F32.le F32.FLT_EPSILON
                 (relative_approach_altitude nav item previous) = true).
Proof.
  set (I := fun (i : nat) (_ : fw_locals) (_ : checker) (_ : list output) =>
              forall j item, (j < i)%nat ->
                dm_read P (dataman_id mission) j = Some item ->
                nav_cmd_of item = NAV_CMD_LAND ->
                exists previous,
                  (0 < j)%nat
                  /\ dm_read P (dataman_id mission) (j - 1) = Some previous
                  /\ F32.lt (relative_approach_altitude nav item previous)
                            F32.FLT_EPSILON = false).
  assert (Hbody : forall i l s1 t1, (i < count mission)%nat -> I i l s1 t1 ->
            let '(f, s', t') :=
              checkFixedWingLanding_body P nav mission i l s1 in
            match f with
            | Continue l' => I (S i) l' s' (t1 ++ t')
            | Return b => b = false
            end).
  { intros i l s1 t1 Hi HI.
    pose proof (checkFixedWingLanding_body_altitude P nav mission i l s1)
      as Hb.
    destruct (checkFixedWingLanding_body P nav mission i l s1)
      as [[[l'|b] s'] t']; [|exact Hb].
    intros j item Hj Hitem Hland.
    assert (Hc : (j < i)%nat \/ j = i) by lia. destruct Hc as [Hc| ->].
    - now apply (HI j item).
    - now apply Hb. }
  assert (I0 : I 0%nat {| landing_valid := false; do_land_start_index := 0%nat;
                          landing_approach_index := 0%nat |} s []).
  { intros j item Hj. lia. }
  pose proof (for_loop_inv _ _ I (fun b _ _ => b = false) Hbody
                (count mission) 0%nat _ s [] eq_refl I0) as H.
  unfold checkFixedWingLanding. unfold_m.
  destruct (for_loop _ _ _ _ _) as [[[l|b] s1] t1].
  - intros _ i item [Hi Hitem] Hland.
    destruct (H i item Hi Hitem Hland) as (prev & H1 & H2 & H3).
    exists prev. repeat split; auto. intros Hnan.
    apply F32_le_of_not_gt; [reflexivity | exact Hnan | exact H3].
  - cbn. intros ->. discriminate H.
Qed.

(** ** What a feasible mission contains *)

Lemma for_loop_keeps {L} (g : checker -> bool)
  (body : nat -> L -> M (flow L)) :
  (forall i l s, g (state_of (body i l s)) = g s) ->
  forall n i l s, g (state_of (for_loop n i body l s)) = g s.
Proof.
  intros Hb n. induction n as [|n IH]; intros i l s; [reflexivity|].
  cbn [for_loop]. unfold bind. specialize (Hb i l s).
  destruct (body i l s) as [[[l1|b] s1] t1]; cbn in Hb.
  - specialize (IH (S i) l1 s1).
    destruct (for_loop n (S i) body l1 s1) as [[f2 s2] t2]. cbn in *.
    congruence.
  - cbn. exact Hb.
Qed.

Ltac keeps_loop lem :=
  match goal with
  | |- context [for_loop ?n ?i ?body ?l ?s] =>
      let H := fresh "Hkeep" in
      pose proof (for_loop_keeps _has_takeoff body lem n i l s) as H;
      destruct (for_loop n i body l s) as [[[?|?] ?] ?]; cbn in H
  end.

(** None of the sub-checks but [checkTakeoff] writes the takeoff flag. *)
Lemma checkMissionItemValidity_keeps_takeoff P nav mission s :
  _has_takeoff (state_of (checkMissionItemValidity P nav mission s))
  = _has_takeoff s.
Proof.
  unfold checkMissionItemValidity. unfold_m.
  assert (Hb : forall i l s0,
            _has_takeoff (state_of (checkMissionItemValidity_body P nav mission i l s0))
            = _has_takeoff s0)
    by (intros; unfold checkMissionItemValidity_body; frame_body).
  keeps_loop Hb; exact Hkeep.
Qed.

Lemma checkDistancesBetweenWaypoints_keeps_takeoff P mission d s :
  _has_takeoff (state_of (checkDistancesBetweenWaypoints P mission d s))
  = _has_takeoff s.
Proof.
  unfold checkDistancesBetweenWaypoints. unfold_m. case_split; [reflexivity|].
  assert (Hb : forall i l s0,
            _has_takeoff
              (state_of (checkDistancesBetweenWaypoints_body P mission d i l s0))
            = _has_takeoff s0)
    by (intros; unfold checkDistancesBetweenWaypoints_body; frame_body).
  keeps_loop Hb; exact Hkeep.
Qed.

Lemma checkGeofence_keeps_takeoff P nav mission h hv s :
  _has_takeoff (state_of (checkGeofence P nav mission h hv s))
  = _has_takeoff s.
Proof.
  unfold checkGeofence. unfold_m. repeat case_split; try reflexivity.
  assert (Hb : forall i l s0,
            _has_takeoff (state_of (checkGeofence_body P nav mission h hv i l s0))
            = _has_takeoff s0)
    by (intros; unfold checkGeofence_body; frame_body).
  keeps_loop Hb; exact Hkeep.
Qed.

Lemma checkHomePositionAltitude_keeps_takeoff P mission h hv s :
  _has_takeoff (state_of (checkHomePositionAltitude P mission h hv s))
  = _has_takeoff s.
Proof.
  unfold checkHomePositionAltitude. unfold_m.
  assert (Hb : forall i l s0,
            _has_takeoff (state_of (checkHomePositionAltitude_body P mission h hv i l s0))
            = _has_takeoff s0)
    by (intros; unfold checkHomePositionAltitude_body; frame_body).
  keeps_loop Hb; exact Hkeep.
Qed.

Lemma checkVTOLLanding_keeps_takeoff P mission s :
  _has_takeoff (state_of (checkVTOLLanding P mission s)) = _has_takeoff s.
Proof.
  unfold checkVTOLLanding. unfold_m.
  assert (Hb : forall i l s0,
            _has_takeoff (state_of (checkVTOLLanding_body P mission i l s0))
            = _has_takeoff s0)
    by (intros; unfold checkVTOLLanding_body; frame_body).
  keeps_loop Hb;
    [|exact Hkeep].
  split_pairs. case_split; exact Hkeep.
Qed.

Lemma checkFixedWingLanding_keeps_takeoff P nav mission s :
  _has_takeoff (state_of (checkFixedWingLanding P nav mission s))
  = _has_takeoff s.
Proof.
  unfold checkFixedWingLanding. unfold_m.
  assert (Hb : forall i l s0,
            _has_takeoff (state_of (checkFixedWingLanding_body P nav mission i l s0))
            = _has_takeoff s0)
    by (intros; unfold checkFixedWingLanding_body; frame_body).
  keeps_loop Hb;
    [|exact Hkeep].
  case_split; exact Hkeep.
Qed.

Lemma checkTakeoffLandAvailable_verdict nav s :
  result_of (checkTakeoffLandAvailable nav s)
  = policy_verdict (takeoff_land_required nav) (_has_takeoff s)
      (_has_landing s)
  /\ state_of (checkTakeoffLandAvailable nav s) = s.
Proof.
  unfold checkTakeoffLandAvailable, policy_verdict. unfold_m.
  destruct s as [w [] []]; cbn;
    destruct (takeoff_land_required nav) as [|p|p]; try (split; reflexivity);
    repeat (destruct p as [p|p|]; try (split; reflexivity)).
Qed.

Lemma checkTakeoff_passing_flags P nav mission h s :
  result_of (checkTakeoff P nav mission h s) = true ->
  _has_takeoff s = false ->
  readable P mission = true
  /\ (_has_takeoff (state_of (checkTakeoff P nav mission h s)) = true
      <-> exists j, (j < count mission)%nat /\ takeoff_at P mission j).
Proof.
  intros Hr Hs.
  destruct (checkTakeoff_passing_loop P nav mission h s Hr)
    as (l & _ & R & _ & _ & Ht & _ & _).
  split; [exact (reaches_readable P nav mission h R)|].
  rewrite Ht, Hs. split.
  - intros [H|H]; [discriminate | exact H].
  - intros H. now right.
Qed.

Ltac flags_call :=
  let F := fresh "F" in
  let K := fresh "K" in
  let E := fresh "E" in
  match goal with
  | |- context [checkMissionItemValidity ?P ?n ?m ?s] =>
      pose proof (checkMissionItemValidity_frame P n m s) as F;
      pose proof (checkMissionItemValidity_keeps_takeoff P n m s) as K;
      destruct (checkMissionItemValidity P n m s) as [[? ?] ?]
  | |- context [checkDistancesBetweenWaypoints ?P ?m ?d ?s] =>
      pose proof (checkDistancesBetweenWaypoints_frame P m d s) as F;
      pose proof (checkDistancesBetweenWaypoints_keeps_takeoff P m d s) as K;
      destruct (checkDistancesBetweenWaypoints P m d s) as [[? ?] ?]
  | |- context [checkGeofence ?P ?n ?m ?h ?hv ?s] =>
      pose proof (checkGeofence_frame P n m h hv s) as F;
      pose proof (checkGeofence_keeps_takeoff P n m h hv s) as K;
      destruct (checkGeofence P n m h hv s) as [[? ?] ?]
  | |- context [checkHomePositionAltitude ?P ?m ?h ?hv ?s] =>
      pose proof (checkHomePositionAltitude_frame P m h hv s) as F;
      pose proof (checkHomePositionAltitude_keeps_takeoff P m h hv s) as K;
      destruct (checkHomePositionAltitude P m h hv s) as [[? ?] ?]
  | |- context [checkTakeoff ?P ?n ?m ?h ?s] =>
      pose proof (checkTakeoff_frame P n m h s) as F;
      pose proof (checkTakeoff_passing_flags P n m h s) as K;
      destruct (checkTakeoff P n m h s) as [[? ?] ?]
  | |- context [checkVTOLLanding ?P ?m ?s] =>
      pose proof (fun Hr Hs => checkVTOLLanding_landing P m Hr s Hs) as F;
      pose proof (checkVTOLLanding_keeps_takeoff P m s) as K;
      destruct (checkVTOLLanding P m s) as [[? ?] ?]
  | |- context [checkFixedWingLanding ?P ?n ?m ?s] =>
      pose proof (fun Hr Hs => checkFixedWingLanding_landing P n m Hr s Hs)
        as F;
      pose proof (checkFixedWingLanding_keeps_takeoff P n m s) as K;
      destruct (checkFixedWingLanding P n m s) as [[? ?] ?]
  | |- context [hasMissionLanding ?P ?m ?s] =>
      pose proof (fun Hr => hasMissionLanding_landing P m Hr s) as F;
      destruct (hasMissionLanding P m s) as [[? ?] ?] eqn:E;
      destruct (hasMissionLanding_silent _ _ _ _ _ _ E) as [_ ->]
  | |- context [checkTakeoffLandAvailable ?n ?s] =>
      destruct (checkTakeoffLandAvailable_verdict n s) as [F K];
      destruct (checkTakeoffLandAvailable n s) as [[? ?] ?]
  end;
  cbn [result_of state_of fst snd] in *; cbv beta iota zeta.

(** X18: a mission that [checkMissionFeasible] accepts meets the
    takeoff and landing requirement of the vehicle: the policy table accepts
    the two flags the run leaves in the checker, the takeoff flag is set
    exactly when the mission has a takeoff item, and the landing flag
    exactly when it has one of the landing commands of the vehicle's
    branch. *)
Theorem feasible_mission_meets_policy P nav mission d1 d2 s :
  result_of (checkMissionFeasible P nav mission d1 d2 s) = true ->
  policy_verdict (takeoff_land_required nav)
    (_has_takeoff (state_of (checkMissionFeasible P nav mission d1 d2 s)))
    (_has_landing (state_of (checkMissionFeasible P nav mission d1 d2 s)))
  = true
  /\ (_has_takeoff (state_of (checkMissionFeasible P nav mission d1 d2 s))
      = true
      <-> exists j, (j < count mission)%nat /\ takeoff_at P mission j)
  /\ (_has_landing (state_of (checkMissionFeasible P nav mission d1 d2 s))
      = true
      <-> contains_any P mission (landing_commands P nav)).
Proof.
  destruct (checkMissionFeasible P nav mission d1 d2 s) as [[r s'] t] eqn:E.
  cbn [result_of state_of fst snd]. revert E.
  unfold checkMissionFeasible, landing_commands. unfold_m.
  destruct (Z.of_nat (count mission) <=? 0);
    [intros [= <- <- <-]; discriminate|].
  destruct (negb (home_alt_valid nav));
    [| destruct (checkDistanceToFirstWaypoint P nav mission d1 _)
         as [[r0 c0] l0] ];
    cbv beta iota zeta.
  all: repeat flags_call.
  all: destruct (is_vtol nav);
    [| destruct (vehicle_type nav =? VEHICLE_TYPE_FIXED_WING P)];
    cbv beta iota zeta.
  all: repeat flags_call.
  all: cbn [warning _has_takeoff _has_landing] in *.
  all: intros [= <- <- <-]; try discriminate.
  all:
    rewrite negb_true_iff, ?orb_false_iff, ?negb_false_iff; intros H;
    repeat match goal with H : _ /\ _ |- _ => destruct H end;
    try discriminate; subst.
  all: match goal with
       | K : true = true -> _ -> _ /\ _ |- _ =>
           destruct (K eq_refl ltac:(congruence)) as [Hr Hto]; clear K
       end.
  all: cbn [_has_takeoff _has_landing] in *.
  all: (split; [assumption|split]).
  all: try (rewrite ?K4; exact Hto).
  all: match goal with
       | F : readable _ _ = true -> _ -> _ <-> _ |- _ =>
           apply F; [exact Hr | congruence]
       | F : readable _ _ = true -> _ <-> _ |- _ => apply F; exact Hr
       end.
Qed.

(** ** The warning flag *)

Lemma warning_accounted_app s s1 s2 t1 t2 :
  warning_accounted s s1 t1 -> warning_accounted s1 s2 t2 ->
  warning_accounted s s2 (t1 ++ t2).
Proof.
  intros [A1 B1] [A2 B2]. unfold warning_accounted.
  rewrite !existsb_app, !orb_true_iff. split.
  - intros H. destruct (A2 H) as [H1|H1]; [|auto].
    destruct (A1 H1); auto.
  - intros [H|[H|H]]; auto.
Qed.

Lemma accounts_ret {A} (a : A) : accounts (ret a).
Proof. intros s. unfold warning_accounted. cbn. intuition discriminate. Qed.

Lemma accounts_bind {A B} (m : M A) (k : A -> M B) :
  accounts m -> (forall a, accounts (k a)) -> accounts (bind m k).
Proof.
  intros Hm Hk s. unfold bind. specialize (Hm s).
  destruct (m s) as [[a s1] t1]. specialize (Hk a s1).
  destruct (k a s1) as [[b s2] t2]. cbn in *.
  eapply warning_accounted_app; eassumption.
Qed.

Lemma accounts_for_loop {L} (body : nat -> L -> M (flow L)) :
  (forall i l, accounts (body i l)) ->
  forall n i l, accounts (for_loop n i body l).
Proof.
  intros Hb n. induction n as [|n IH]; intros i l; [apply accounts_ret|].
  cbn [for_loop]. apply accounts_bind; [apply Hb|].
  intros [l1|b]; [apply IH | apply accounts_ret].
Qed.

Ltac accounts_leaf :=
  intros; unfold warning_accounted; cbn;
  rewrite ?orb_false_r; intuition (try discriminate; auto).

Ltac accounts_body :=
  intros s; split_pairs; unfold_m; repeat case_split; accounts_leaf.

Section Accounts.
Variable P : Platform.
Variable nav : Navigator.
Variable mission : mission_s.

Lemma checkMissionItemValidity_body_accounts i l :
  accounts (checkMissionItemValidity_body P nav mission i l).
Proof. unfold checkMissionItemValidity_body. accounts_body. Qed.

Lemma checkGeofence_body_accounts h hv i l :
  accounts (checkGeofence_body P nav mission h hv i l).
Proof. unfold checkGeofence_body. accounts_body. Qed.

Lemma checkHomePositionAltitude_body_accounts h hv i l :
  accounts (checkHomePositionAltitude_body P mission h hv i l).
Proof. unfold checkHomePositionAltitude_body. accounts_body. Qed.

Lemma checkTakeoff_body_accounts h i l :
  accounts (checkTakeoff_body P nav mission h i l).
Proof. unfold checkTakeoff_body. accounts_body. Qed.

Lemma checkTakeoff_scan_body_accounts i l :
  accounts (checkTakeoff_scan_body P mission i l).
Proof. unfold checkTakeoff_scan_body. accounts_body. Qed.

Lemma hasMissionLanding_body_accounts i l :
  accounts (hasMissionLanding_body P mission i l).
Proof. unfold hasMissionLanding_body. accounts_body. Qed.

Lemma checkFixedWingLanding_body_accounts i l :
  accounts (checkFixedWingLanding_body P nav mission i l).
Proof. unfold checkFixedWingLanding_body. accounts_body. Qed.

Lemma checkVTOLLanding_body_accounts i l :
  accounts (checkVTOLLanding_body P mission i l).
Proof. unfold checkVTOLLanding_body. accounts_body. Qed.

Lemma checkDistanceToFirstWaypoint_body_accounts d i l :
  accounts (checkDistanceToFirstWaypoint_body P nav mission d i l).
Proof. unfold checkDistanceToFirstWaypoint_body. accounts_body. Qed.

Lemma checkDistancesBetweenWaypoints_body_accounts d i l :
  accounts (checkDistancesBetweenWaypoints_body P mission d i l).
Proof. unfold checkDistancesBetweenWaypoints_body. accounts_body. Qed.

End Accounts.

Create HintDb accounts.

#[local] Hint Resolve checkMissionItemValidity_body_accounts
  checkGeofence_body_accounts checkHomePositionAltitude_body_accounts
  checkTakeoff_body_accounts checkTakeoff_scan_body_accounts
  hasMissionLanding_body_accounts checkFixedWingLanding_body_accounts
  checkVTOLLanding_body_accounts checkDistanceToFirstWaypoint_body_accounts
  checkDistancesBetweenWaypoints_body_accounts : accounts.

Ltac accounts_step :=
  match goal with
  | |- accounts (ret _) => apply accounts_ret
  | |- accounts (bind _ _) => apply accounts_bind; [|intros]
  | |- accounts (for_loop _ _ _ _) => apply accounts_for_loop; intros
  | |- accounts (or_failed _ _) => unfold or_failed
  | |- accounts (if ?c then _ else _) => destruct c
  | |- accounts (match ?f with _ => _ end) => destruct f
  | |- accounts _ => solve [auto with accounts]
  | |- accounts _ => solve [intros ?; unfold_m; accounts_leaf]
  end.

Ltac accounts_auto := repeat accounts_step.

Section AccountsChecks.
Variable P : Platform.
Variable nav : Navigator.
Variable mission : mission_s.

Lemma checkMissionItemValidity_accounts :
  accounts (checkMissionItemValidity P nav mission).
Proof. unfold checkMissionItemValidity. accounts_auto. Qed.

Lemma checkGeofence_accounts h hv :
  accounts (checkGeofence P nav mission h hv).
Proof. unfold checkGeofence. accounts_auto. Qed.

Lemma checkHomePositionAltitude_accounts h hv :
  accounts (checkHomePositionAltitude P mission h hv).
Proof. unfold checkHomePositionAltitude. accounts_auto. Qed.

Lemma checkTakeoff_accounts h :
  accounts (checkTakeoff P nav mission h).
Proof. unfold checkTakeoff. accounts_auto. Qed.

Lemma hasMissionLanding_accounts :
  accounts (hasMissionLanding P mission).
Proof. unfold hasMissionLanding. accounts_auto. Qed.

Lemma checkFixedWingLanding_accounts :
  accounts (checkFixedWingLanding P nav mission).
Proof. unfold checkFixedWingLanding. accounts_auto. Qed.

Lemma checkVTOLLanding_accounts :
  accounts (checkVTOLLanding P mission).
Proof. unfold checkVTOLLanding. accounts_auto. Qed.

Lemma checkTakeoffLandAvailable_accounts :
  accounts (checkTakeoffLandAvailable nav).
Proof. unfold checkTakeoffLandAvailable. accounts_auto. Qed.

Lemma checkDistanceToFirstWaypoint_accounts d :
  accounts (checkDistanceToFirstWaypoint P nav mission d).
Proof. unfold checkDistanceToFirstWaypoint. accounts_auto. Qed.

Lemma checkDistancesBetweenWaypoints_accounts d :
  accounts (checkDistancesBetweenWaypoints P mission d).
Proof. unfold checkDistancesBetweenWaypoints. accounts_auto. Qed.

End AccountsChecks.

#[local] Hint Resolve checkMissionItemValidity_accounts
  checkGeofence_accounts checkHomePositionAltitude_accounts
  checkTakeoff_accounts hasMissionLanding_accounts
  checkFixedWingLanding_accounts checkVTOLLanding_accounts
  checkTakeoffLandAvailable_accounts checkDistanceToFirstWaypoint_accounts
  checkDistancesBetweenWaypoints_accounts : accounts.

Lemma checkMissionFeasible_accounts P nav mission d1 d2 s :
  (warning (state_of (checkMissionFeasible P nav mission d1 d2 s)) = true ->
   existsb raises_warning
     (trace_of (checkMissionFeasible P nav mission d1 d2 s)) = true)
  /\ (existsb (is_send is_wp_below_home)
        (trace_of (checkMissionFeasible P nav mission d1 d2 s)) = true ->
      warning (state_of (checkMissionFeasible P nav mission d1 d2 s)) = true).
Proof.
  unfold checkMissionFeasible.
  match goal with
  | |- context [bind (set_warning false) ?k] =>
      assert (H : accounts (k tt)) by (cbv beta; accounts_auto);
      set (rest := k) in *
  end.
  unfold bind, set_warning. cbv beta iota zeta.
  specialize (H {| warning := false; _has_takeoff := _has_takeoff s;
                   _has_landing := _has_landing s |}).
  destruct (rest tt _) as [[r s'] t]. cbn in *.
  destruct H as [A B]. split.
  - intros Hw. destruct (A Hw) as [H|H]; [discriminate | exact H].
  - intros Hb. apply B. now right.
Qed.

Lemma raises_warning_quiet t :
  existsb is_fatal t = false -> existsb is_read_failure t = false ->
  existsb raises_warning t = existsb (is_send is_wp_below_home) t.
Proof.
  induction t as [|o t IH]; [reflexivity|]. cbn [existsb].
  rewrite !orb_false_iff. intros [Hf Hft] [Hr Hrt]. rewrite (IH Hft Hrt).
  f_equal. destruct o as [e|i]; [|discriminate Hr].
  unfold is_fatal in Hf. cbn in *. apply negb_false_iff in Hf. now rewrite Hf.
Qed.

Lemma pass_warning (reports : bool) (m : M bool) :
  (forall s r s' t, m s = (r, s', t) -> run_ok reports s r s' t) ->
  accounts m ->
  forall s, result_of (m s) = true -> warning (state_of (m s)) = true ->
    warning s = true
    \/ existsb (is_send is_wp_below_home) (trace_of (m s)) = true.
Proof.
  intros Hok Hacc s. specialize (Hacc s). specialize (Hok s).
  destruct (m s) as [[r s'] t]. cbn in *. intros -> Hw.
  destruct (Hok true s' t eq_refl) as (_ & Hq & _).
  destruct (Hq eq_refl) as [Hf Hr].
  rewrite <- (raises_warning_quiet t Hf Hr). now apply Hacc.
Qed.

Ltac warn_call :=
  let W := fresh "W" in
  let E := fresh "E" in
  match goal with
  | |- context [checkDistanceToFirstWaypoint ?P ?n ?m ?d ?s] =>
      pose proof (pass_warning true _
                    (checkDistanceToFirstWaypoint_ok P n m d)
                    (checkDistanceToFirstWaypoint_accounts P n m d) s) as W;
      destruct (checkDistanceToFirstWaypoint P n m d s) as [[? ?] ?]
  | |- context [checkMissionItemValidity ?P ?n ?m ?s] =>
      pose proof (pass_warning true _
                    (checkMissionItemValidity_ok P n m)
                    (checkMissionItemValidity_accounts P n m) s) as W;
      destruct (checkMissionItemValidity P n m s) as [[? ?] ?]
  | |- context [checkDistancesBetweenWaypoints ?P ?m ?d ?s] =>
      pose proof (pass_warning true _
                    (checkDistancesBetweenWaypoints_ok P m d)
                    (checkDistancesBetweenWaypoints_accounts P m d) s) as W;
      destruct (checkDistancesBetweenWaypoints P m d s) as [[? ?] ?]
  | |- context [checkGeofence ?P ?n ?m ?h ?hv ?s] =>
      pose proof (pass_warning false _
                    (checkGeofence_ok P n m h hv)
                    (checkGeofence_accounts P n m h hv) s) as W;
      destruct (checkGeofence P n m h hv s) as [[? ?] ?]
  | |- context [checkHomePositionAltitude ?P ?m ?h ?hv ?s] =>
      pose proof (pass_warning false _
                    (checkHomePositionAltitude_ok P m h hv)
                    (checkHomePositionAltitude_accounts P m h hv) s) as W;
      destruct (checkHomePositionAltitude P m h hv s) as [[? ?] ?]
  | |- context [checkTakeoff ?P ?n ?m ?h ?s] =>
      pose proof (pass_warning false _
                    (checkTakeoff_ok P n m h)
                    (checkTakeoff_accounts P n m h) s) as W;
      destruct (checkTakeoff P n m h s) as [[? ?] ?]
  | |- context [checkVTOLLanding ?P ?m ?s] =>
      pose proof (pass_warning false _
                    (checkVTOLLanding_ok P m)
                    (checkVTOLLanding_accounts P m) s) as W;
      destruct (checkVTOLLanding P m s) as [[? ?] ?]
  | |- context [checkFixedWingLanding ?P ?n ?m ?s] =>
      pose proof (pass_warning false _
                    (checkFixedWingLanding_ok P n m)
                    (checkFixedWingLanding_accounts P n m) s) as W;
      destruct (checkFixedWingLanding P n m s) as [[? ?] ?]
  | |- context [hasMissionLanding ?P ?m ?s] =>
      destruct (hasMissionLanding P m s) as [[? ?] ?] eqn:E;
      destruct (hasMissionLanding_silent _ _ _ _ _ _ E) as [_ ->]
  | |- context [checkTakeoffLandAvailable ?n ?s] =>
      pose proof (pass_warning false _
                    (checkTakeoffLandAvailable_ok n)
                    (checkTakeoffLandAvailable_accounts n) s) as W;
      destruct (checkTakeoffLandAvailable n s) as [[? ?] ?]
  end;
  cbn [result_of state_of trace_of fst snd] in *; cbv beta iota zeta.

Lemma checkMissionFeasible_pass_warning P nav mission d1 d2 s :
  result_of (checkMissionFeasible P nav mission d1 d2 s) = true ->
  warning (state_of (checkMissionFeasible P nav mission d1 d2 s)) = true ->
  existsb (is_send is_wp_below_home)
    (trace_of (checkMissionFeasible P nav mission d1 d2 s)) = true.
Proof.
  unfold checkMissionFeasible. unfold_m.
  destruct (Z.of_nat (count mission) <=? 0); [discriminate|].
  destruct (negb (home_alt_valid nav)); cbv beta iota zeta.
  all: repeat warn_call.
  all: destruct (is_vtol nav);
    [| destruct (vehicle_type nav =? VEHICLE_TYPE_FIXED_WING P)];
    cbv beta iota zeta.
  all: repeat warn_call.
  all: cbn [result_of state_of trace_of fst snd warning] in *;
    try discriminate.
  all: rewrite negb_true_iff, ?orb_false_iff, ?negb_false_iff; intros H;
    repeat match goal with H : _ /\ _ |- _ => destruct H end;
    try discriminate; subst.
  all: rewrite ?existsb_app; cbn [existsb]; rewrite ?orb_false_r.
  all: intros Hw.
  all: repeat match goal with
              | W : true = true -> ?w = true -> _, Hw : ?w = true |- _ =>
                  destruct (W eq_refl Hw) as [Hw'|Hb]; clear W;
                  [clear Hw; rename Hw' into Hw
                  | rewrite Hb, ?orb_true_r; reflexivity]
              end.
  all: discriminate Hw.
Qed.

(** X19: the warning flag after a run of [checkMissionFeasible].  It is
    set only if the run had an output that raises it (a failed read, the
    below-home warning, a relative altitude without home, or a distance
    failure), and it is set whenever the below-home warning was sent.  After
    a run that accepted the mission the flag is set exactly when the
    below-home warning was sent. *)
Theorem warning_flag_after_run P nav mission d1 d2 s :
  (warning (state_of (checkMissionFeasible P nav mission d1 d2 s)) = true ->
   existsb raises_warning
     (trace_of (checkMissionFeasible P nav mission d1 d2 s)) = true)
  /\ (existsb (is_send is_wp_below_home)
        (trace_of (checkMissionFeasible P nav mission d1 d2 s)) = true ->
      warning (state_of (checkMissionFeasible P nav mission d1 d2 s)) = true)
  /\ (result_of (checkMissionFeasible P nav mission d1 d2 s) = true ->
      (warning (state_of (checkMissionFeasible P nav mission d1 d2 s)) = true
       <-> existsb (is_send is_wp_below_home)
             (trace_of (checkMissionFeasible P nav mission d1 d2 s)) = true)).
Proof.
  destruct (checkMissionFeasible_accounts P nav mission d1 d2 s) as [A B].
  split; [exact A|]. split; [exact B|]. intros Hr. split; [|exact B].
  now apply checkMissionFeasible_pass_warning.
Qed.

(** ** The further properties on the fixtures *)

Lemma feasible_mission_is_valid_witness :
  (0 < count (Fixture.mission_of Fixture.takeoff_waypoint_land))%nat
  /\ home_alt_valid (Fixture.navigator false 1 3) = true
  /\ forall i,
       (i < count (Fixture.mission_of Fixture.takeoff_waypoint_land))%nat ->
       exists item,
         dm_read (Fixture.platform Fixture.takeoff_waypoint_land None)
           (dataman_id (Fixture.mission_of Fixture.takeoff_waypoint_land)) i
         = Some item
         /\ item_valid (Fixture.platform Fixture.takeoff_waypoint_land None)
              (Fixture.navigator false 1 3) i item = true.
Proof.
  exact (feasible_mission_is_valid
           (Fixture.platform Fixture.takeoff_waypoint_land None)
           (Fixture.navigator false 1 3)
           (Fixture.mission_of Fixture.takeoff_waypoint_land)
           (F32.of_int 900) (F32.of_int 900) Fixture.fresh eq_refl).
Defined.

Lemma no_position_lock_rejects_witness :
  result_of (checkMissionFeasible
               (Fixture.platform Fixture.far_waypoint None)
               Fixture.navigator_without_home
               (Fixture.mission_of Fixture.far_waypoint)
               (F32.of_int 900) (F32.of_int 900) Fixture.fresh) = false
  /\ exists t,
       trace_of (checkMissionFeasible
                   (Fixture.platform Fixture.far_waypoint None)
                   Fixture.navigator_without_home
                   (Fixture.mission_of Fixture.far_waypoint)
                   (F32.of_int 900) (F32.of_int 900) Fixture.fresh)
       = Send navigator_mis_no_pos_lock :: t.
Proof.
  apply (no_position_lock_rejects
           (Fixture.platform Fixture.far_waypoint None)
           Fixture.navigator_without_home
           (Fixture.mission_of Fixture.far_waypoint)
           (F32.of_int 900) (F32.of_int 900) Fixture.fresh).
  - reflexivity.
  - cbn; lia.
Defined.

Lemma checkMissionFeasible_fresh_witness :
  checkMissionFeasible (Fixture.platform Fixture.low_waypoint None)
    (Fixture.navigator false 1 0) (Fixture.mission_of Fixture.low_waypoint)
    (F32.of_int 900) (F32.of_int 900) Fixture.fresh
  = checkMissionFeasible (Fixture.platform Fixture.low_waypoint None)
      (Fixture.navigator false 1 0) (Fixture.mission_of Fixture.low_waypoint)
      (F32.of_int 900) (F32.of_int 900)
      {| warning := true; _has_takeoff := true; _has_landing := true |}.
Proof.
  apply (checkMissionFeasible_fresh
           (Fixture.platform Fixture.low_waypoint None)
           (Fixture.navigator false 1 0)
           (Fixture.mission_of Fixture.low_waypoint)
           (F32.of_int 900) (F32.of_int 900) Fixture.fresh
           {| warning := true; _has_takeoff := true; _has_landing := true |}).
  cbn; lia.
Defined.

Lemma first_waypoint_decides_witness :
  checkDistanceToFirstWaypoint
    (Fixture.platform Fixture.idle_then_waypoint None)
    (Fixture.navigator false 1 0)
    (Fixture.mission_of Fixture.idle_then_waypoint)
    (F32.of_int 900) Fixture.fresh
  = (true, Fixture.fresh, []).
Proof.
  apply (first_waypoint_decides
           (Fixture.platform Fixture.idle_then_waypoint None)
           (Fixture.navigator false 1 0)
           (Fixture.mission_of Fixture.idle_then_waypoint)
           (F32.of_int 900) Fixture.fresh 1%nat
           (Fixture.item NAV_CMD_WAYPOINT 100 0 10 2)).
  - reflexivity.
  - split; [split; [cbn; lia | reflexivity]|].
    split; [reflexivity|].
    intros [|j] Hj; [|lia].
    exists (Fixture.item NAV_CMD_IDLE 0 0 0 0). split; reflexivity.
Defined.

Lemma no_positional_distance_checks_pass_witness :
  checkDistanceToFirstWaypoint (Fixture.platform Fixture.idle_only None)
    (Fixture.navigator false 1 0) (Fixture.mission_of Fixture.idle_only)
    (F32.of_int 900) Fixture.fresh
  = (true, Fixture.fresh, [])
  /\ checkDistancesBetweenWaypoints (Fixture.platform Fixture.idle_only None)
       (Fixture.mission_of Fixture.idle_only) (F32.of_int 900) Fixture.fresh
     = (true, Fixture.fresh, []).
Proof.
  apply (no_positional_distance_checks_pass
           (Fixture.platform Fixture.idle_only None)
           (Fixture.navigator false 1 0)
           (Fixture.mission_of Fixture.idle_only)
           (F32.of_int 900) Fixture.fresh).
  intros [|[|i]] Hi; [eexists; split; reflexivity ..|].
  cbn in Hi; lia.
Defined.

Lemma waypoints_within_distance_witness :
  F32.gt (distance_between
            (Fixture.platform Fixture.takeoff_waypoint_land None)
            (Fixture.item NAV_CMD_TAKEOFF 0 0 10 2)
            (Fixture.item NAV_CMD_WAYPOINT 100 0 10 2))
         (F32.of_int 900) = false.
Proof.
  refine (proj1 (proj2 (waypoints_within_distance
                          (Fixture.platform Fixture.takeoff_waypoint_land None)
                          (Fixture.mission_of Fixture.takeoff_waypoint_land)
                          (F32.of_int 900) Fixture.fresh eq_refl eq_refl)
                   0%nat 1%nat
                   (Fixture.item NAV_CMD_TAKEOFF 0 0 10 2)
                   (Fixture.item NAV_CMD_WAYPOINT 100 0 10 2) _ eq_refl)).
  split; [lia|]. split; [reflexivity|].
  split; [split; [cbn; lia | reflexivity]|].
  split; [reflexivity|]. split; [reflexivity|].
  intros m Hm. lia.
Defined.

Lemma checkGeofence_pass_iff_witness :
  result_of (checkGeofence (Fixture.platform Fixture.far_waypoint None)
               Fixture.fenced_navigator
               (Fixture.mission_of Fixture.far_waypoint)
               (F32.of_int 488) true Fixture.fresh) = true
  <-> geofence_isHomeRequired Fixture.fenced_navigator && negb true = false
      /\ all_items (Fixture.platform Fixture.far_waypoint None)
           (Fixture.mission_of Fixture.far_waypoint)
           (fun _ =>
              geofence_item_ok (Fixture.platform Fixture.far_waypoint None)
                Fixture.fenced_navigator (F32.of_int 488) true).
Proof.
  exact (checkGeofence_pass_iff (Fixture.platform Fixture.far_waypoint None)
           Fixture.fenced_navigator (Fixture.mission_of Fixture.far_waypoint)
           (F32.of_int 488) true Fixture.fresh eq_refl).
Defined.

Lemma checkTakeoff_pass_witness :
  _has_takeoff
    (state_of (checkTakeoff
                 (Fixture.platform Fixture.takeoff_waypoint_land None)
                 (Fixture.navigator false 1 0)
                 (Fixture.mission_of Fixture.takeoff_waypoint_land)
                 (F32.of_int 488) Fixture.fresh)) = true
  <-> exists j,
        (j < count (Fixture.mission_of Fixture.takeoff_waypoint_land))%nat
        /\ takeoff_at (Fixture.platform Fixture.takeoff_waypoint_land None)
             (Fixture.mission_of Fixture.takeoff_waypoint_land) j.
Proof.
  exact (proj2 (proj2 (proj2
           (checkTakeoff_pass
              (Fixture.platform Fixture.takeoff_waypoint_land None)
              (Fixture.navigator false 1 0)
              (Fixture.mission_of Fixture.takeoff_waypoint_land)
              (F32.of_int 488) Fixture.fresh eq_refl))) eq_refl).
Defined.

Lemma checkTakeoff_verdict_witness :
  result_of (checkTakeoff
               (Fixture.platform Fixture.waypoint_idle_takeoff None)
               (Fixture.navigator false 1 0)
               (Fixture.mission_of Fixture.waypoint_idle_takeoff)
               (F32.of_int 488) Fixture.fresh)
  = allowed_before_takeoff NAV_CMD_IDLE
  /\ trace_of (checkTakeoff
                 (Fixture.platform Fixture.waypoint_idle_takeoff None)
                 (Fixture.navigator false 1 0)
                 (Fixture.mission_of Fixture.waypoint_idle_takeoff)
                 (F32.of_int 488) Fixture.fresh)
     = [].
Proof.
  refine (proj2 (checkTakeoff_verdict
                   (Fixture.platform Fixture.waypoint_idle_takeoff None)
                   (Fixture.navigator false 1 0)
                   (Fixture.mission_of Fixture.waypoint_idle_takeoff)
                   (F32.of_int 488) Fixture.fresh eq_refl _)
            2%nat (Fixture.item NAV_CMD_IDLE 0 0 0 0) _ eq_refl).
  - intros [|[|[|j]]] Hj; [eexists; split; reflexivity ..|].
    cbn in Hj; lia.
  - split; [cbn; lia|]. split.
    + exists (Fixture.item NAV_CMD_TAKEOFF 0 0 10 2). split; reflexivity.
    + intros [|[|j]] Hj; try lia.
      intros (it & Hit & Hto). injection Hit as <-. discriminate Hto.
Defined.

Lemma checkVTOLLanding_order_witness :
  landing_rules (Fixture.platform Fixture.vtol_land_sequence None)
    (Fixture.mission_of Fixture.vtol_land_sequence)
    [NAV_CMD_LAND; NAV_CMD_VTOL_LAND]
    [NAV_CMD_DO_LAND_START; NAV_CMD_LAND; NAV_CMD_VTOL_LAND]
    1 (Fixture.item NAV_CMD_DO_LAND_START 0 0 0 0).
Proof.
  apply (checkVTOLLanding_order
           (Fixture.platform Fixture.vtol_land_sequence None)
           (Fixture.mission_of Fixture.vtol_land_sequence) Fixture.fresh).
  - reflexivity.
  - reflexivity.
  - split; [cbn; lia | reflexivity].
Defined.

Lemma checkFixedWingLanding_order_witness :
  landing_rules
    (Fixture.platform Fixture.fw_land_sequence (Some (F32.of_int 5)))
    (Fixture.mission_of Fixture.fw_land_sequence)
    [NAV_CMD_LAND] [NAV_CMD_DO_LAND_START; NAV_CMD_LAND]
    3 (Fixture.item NAV_CMD_LAND 200 0 0 2).
Proof.
  apply (checkFixedWingLanding_order
           (Fixture.platform Fixture.fw_land_sequence (Some (F32.of_int 5)))
           (Fixture.navigator false 2 3)
           (Fixture.mission_of Fixture.fw_land_sequence) Fixture.fresh).
  - reflexivity.
  - reflexivity.
  - split; [cbn; lia | reflexivity].
Defined.

Lemma fixed_wing_land_start_has_land_witness :
  exists j it,
    (1 < j)%nat
    /\ item_at
         (Fixture.platform Fixture.fw_land_sequence (Some (F32.of_int 5)))
         (Fixture.mission_of Fixture.fw_land_sequence) j it
    /\ nav_cmd_of it = NAV_CMD_LAND.
Proof.
  apply (fixed_wing_land_start_has_land
           (Fixture.platform Fixture.fw_land_sequence (Some (F32.of_int 5)))
           (Fixture.navigator false 2 3)
           (Fixture.mission_of Fixture.fw_land_sequence) Fixture.fresh
           eq_refl eq_refl 1%nat
           (Fixture.item NAV_CMD_DO_LAND_START 0 0 0 0)).
  - split; [cbn; lia | reflexivity].
  - reflexivity.
Defined.

Lemma vtol_land_start_has_land_witness :
  exists j it,
    (1 < j)%nat
    /\ item_at (Fixture.platform Fixture.vtol_land_sequence None)
         (Fixture.mission_of Fixture.vtol_land_sequence) j it
    /\ is_one_of (nav_cmd_of it) [NAV_CMD_LAND; NAV_CMD_VTOL_LAND] = true.
Proof.
  apply (vtol_land_start_has_land
           (Fixture.platform Fixture.vtol_land_sequence None)
           (Fixture.mission_of Fixture.vtol_land_sequence) Fixture.fresh
           eq_refl eq_refl 1%nat
           (Fixture.item NAV_CMD_DO_LAND_START 0 0 0 0)).
  - lia.
  - split; [cbn; lia | reflexivity].
  - reflexivity.
Defined.

Lemma approach_is_above_land_witness :
  exists previous,
    (0 < 3)%nat
    /\ dm_read
         (Fixture.platform Fixture.fw_land_sequence (Some (F32.of_int 5)))
         (dataman_id (Fixture.mission_of Fixture.fw_land_sequence)) (3 - 1)
       = Some previous
    /\ F32.lt (relative_approach_altitude (Fixture.navigator false 2 3)
                 (Fixture.item NAV_CMD_LAND 200 0 0 2) previous)
              F32.FLT_EPSILON = false
    /\ (F32.is_nan
          (relative_approach_altitude (Fixture.navigator false 2 3)
             (Fixture.item NAV_CMD_LAND 200 0 0 2) previous) = false ->
        F32.le F32.FLT_EPSILON
          (relative_approach_altitude (Fixture.navigator false 2 3)
             (Fixture.item NAV_CMD_LAND 200 0 0 2) previous) = true).
Proof.
  apply (approach_is_above_land
           (Fixture.platform Fixture.fw_land_sequence (Some (F32.of_int 5)))
           (Fixture.navigator false 2 3)
           (Fixture.mission_of Fixture.fw_land_sequence) Fixture.fresh
           eq_refl 3%nat (Fixture.item NAV_CMD_LAND 200 0 0 2)).
  - split; [cbn; lia | reflexivity].
  - reflexivity.
Defined.

Lemma feasible_mission_meets_policy_witness :
  policy_verdict 3 true true = true
  /\ (true = true
      <-> exists j,
            (j < count (Fixture.mission_of Fixture.vtol_land_sequence))%nat
            /\ takeoff_at (Fixture.platform Fixture.vtol_land_sequence None)
                 (Fixture.mission_of Fixture.vtol_land_sequence) j)
  /\ (true = true
      <-> contains_any (Fixture.platform Fixture.vtol_land_sequence None)
            (Fixture.mission_of Fixture.vtol_land_sequence)
            [NAV_CMD_DO_LAND_START; NAV_CMD_LAND; NAV_CMD_VTOL_LAND]).
Proof.
  exact (feasible_mission_meets_policy
           (Fixture.platform Fixture.vtol_land_sequence None)
           (Fixture.navigator true 1 3)
           (Fixture.mission_of Fixture.vtol_land_sequence)
           (F32.of_int 900) (F32.of_int 900) Fixture.fresh eq_refl).
Defined.

Lemma checkMissionItemValidity_pass_iff_witness :
  F32.le (F32.of_int 0) (F32.of_int 3) = true
  /\ F32.le (F32.of_int 3) (F32.of_int 5) = true.
Proof.
  apply (proj1 (proj2 (proj1 (proj2 (checkMissionItemValidity_pass_iff
                                       (Fixture.platform [] None)
                                       (Fixture.navigator false 1 0)
                                       (Fixture.mission_of [])
                                       Fixture.fresh))
                         0%nat Fixture.servo eq_refl eq_refl))
           eq_refl).
Defined.
